(** * Schema initializer of the tic-tac-toe database

    A shallow embedding of [tic_tac_toe_database/init_db.py].  The script
    is a thin layer over two libraries, [sqlite3] and [os]; both are
    given here as small executable models ([Sqlite], [Py]) and the
    script's four functions are transcribed on top of them, statement by
    statement.

    Fragment of SQLite that is modelled: ordinary tables and indices;
    columns of declared type INTEGER, TEXT or TIMESTAMP; the column
    constraints PRIMARY KEY, AUTOINCREMENT, NOT NULL, UNIQUE, DEFAULT and
    CHECK; single-column foreign keys; the storage classes NULL, INTEGER,
    REAL and TEXT.  Outside the fragment: views, triggers, virtual tables,
    BLOB values, infinite REALs, composite keys, ALTER TABLE, the pragmas
    other than foreign_keys, the objects the engine keeps under names of
    its own (the [sqlite_sequence] table of AUTOINCREMENT and the
    sqlite_autoindex indices of UNIQUE columns; fresh keys are one more
    than the largest key in use), the 64-bit range of integers, and
    SQLite's case-insensitive matching of identifiers (names are compared
    as the script spells them). *)

From Stdlib Require Import ZArith QArith String Ascii List Lia.
From stdpp Require Import base gmap strings list fin_maps pretty.

(* ===================================================================== *)
(** ** The database engine *)
(* ===================================================================== *)

Module Sqlite.

(** Stored values.  A REAL is kept as the fraction (2a+1)/2^k with k at
    least 1: every finite double that is not a whole number is such a
    fraction, in exactly one way.  A whole number is always an INTEGER:
    that is how a column of INTEGER or NUMERIC affinity stores it, and a
    TEXT column stores numbers as text. *)
Inductive value :=
  | VNull
  | VInt (z : Z)
  | VReal (a : Z) (k : positive)
  | VText (s : string).

#[global] Instance value_eq_dec : EqDecision value.
Proof. solve_decision. Defined.

Definition row := list value.

Definition real (a : Z) (k : positive) : Q := (2 * a + 1) # (2 ^ k).

(** The number a value of class INTEGER or REAL stands for. *)
Definition numeric (v : value) : option Q :=
  match v with
  | VInt z => Some (inject_Z z)
  | VReal a k => Some (real a k)
  | _ => None
  end.

(** SQLite's cross-class ordering: NULL, then numbers by their value,
    then text (text by the BINARY collation). *)
Definition value_compare (a b : value) : comparison :=
  match a, b with
  | VNull, VNull => Eq
  | VNull, _ => Lt
  | _, VNull => Gt
  | VInt x, VInt y => Z.compare x y
  | VInt x, VReal b l => Qcompare (inject_Z x) (real b l)
  | VReal a k, VInt y => Qcompare (real a k) (inject_Z y)
  | VReal a k, VReal b l => Qcompare (real a k) (real b l)
  | (VInt _ | VReal _ _), VText _ => Lt
  | VText _, (VInt _ | VReal _ _) => Gt
  | VText s, VText t => String.compare s t
  end.

Definition value_lt (a b : value) : bool :=
  match value_compare a b with Lt => true | _ => false end.

(** The MAX aggregate: the largest non-NULL value, NULL when there is
    none.  NULL is the least element of [value_compare], so it is both the
    seed and the result for an empty column. *)
Definition max_step (acc v : value) : value :=
  if value_lt acc v then v else acc.

Definition sql_max (vs : list value) : value := fold_left max_step vs VNull.

(** Declared column types; TIMESTAMP has NUMERIC affinity. *)
Inductive sqltype := INTEGER | TEXT | TIMESTAMP.

Inductive default_value :=
  | DefaultInt (z : Z)
  | DefaultCurrentTimestamp.

(** CHECK constraints of a column on its own value: [c BETWEEN lo AND hi]
    on an INTEGER column and [c IN ('a', ...)] on a TEXT column. *)
Inductive check_expr : sqltype -> Type :=
  | Between (lo hi : Z) : check_expr INTEGER
  | InList (alts : list string) : check_expr TEXT.

Inductive fk_action := NoAction | Cascade.

Record foreign_key := ForeignKey {
  fk_column : string;
  fk_parent : string;
  fk_parent_column : string;
  fk_on_delete : fk_action }.

Record column := Column {
  col_name : string;
  col_type : sqltype;
  col_primary_key : bool;
  col_autoincrement : bool;
  col_not_null : bool;
  col_unique : bool;
  col_default : option default_value;
  col_check : option (check_expr col_type) }.

Record table_def := TableDef {
  td_columns : list column;
  td_foreign_keys : list foreign_key }.

Record table := Table {
  t_def : table_def;
  t_rows : list row }.

Record index := Index {
  ix_table : string;
  ix_columns : list string }.

Record database := Database {
  db_tables : gmap string table;
  db_indices : gmap string index }.

Definition empty_db : database := Database ∅ ∅.

Inductive sql_error :=
  | NoSuchTable (t : string)
  | NoSuchColumn (c : string)
  | NoColumnNamed (t c : string)
  | IndexAlreadyNamed (n : string)
  | TableAlreadyNamed (n : string)
  | ValuesCount
  | ForeignKeyMismatch (child parent : string)
  | ForeignKeyFailed
  | NotADatabase
  | UnableToOpen.

(** The statements the script issues. *)
Inductive stmt :=
  | PragmaForeignKeys (on : bool)
  | CreateTableIfNotExists (name : string) (def : table_def)
  | CreateIndexIfNotExists (name tbl : string) (cols : list string)
  | InsertOrIgnore (tbl : string) (cols : list string) (vals : list Z)
  | SelectMax (col tbl : string).

Definition sql_result : Type := sql_error + (database * list row).

(** *** Columns and rows *)

Fixpoint find_column (name : string) (cols : list column) : option (nat * column) :=
  match cols with
  | [] => None
  | c :: cols' =>
      if String.eqb (col_name c) name then Some (0%nat, c)
      else prod_map S id <$> find_column name cols'
  end.

Definition col_index (name : string) (cols : list column) : option nat :=
  fst <$> find_column name cols.

Definition cell (i : nat) (r : row) : value := default VNull (r !! i).

Definition column_values (i : nat) (rows : list row) : list value :=
  map (cell i) rows.

(** Values of the column called [name], when the table has one. *)
Definition named_column (name : string) (t : table) : option (list value) :=
  (fun i => column_values i (t_rows t)) <$> col_index name (td_columns (t_def t)).

(** *** CHECK evaluation (three-valued: [None] is SQL NULL) *)

Definition eval_check {ty : sqltype} (ck : check_expr ty) (v : value) : option bool :=
  match ck with
  | Between lo hi =>
      match v with
      | VNull => None
      | VInt z => Some ((lo <=? z)%Z && (z <=? hi)%Z)
      | VReal a k =>
          Some (Qle_bool (inject_Z lo) (real a k) && Qle_bool (real a k) (inject_Z hi))
      | VText _ => Some false
      end
  | InList alts =>
      match v with
      | VNull => match alts with [] => Some false | _ => None end
      | VInt _ | VReal _ _ => Some false
      | VText s => Some (bool_decide (s ∈ alts))
      end
  end.

(** A CHECK constraint is violated only when it evaluates to false. *)
Definition check_fails (c : column) (v : value) : bool :=
  match col_check c with
  | Some ck => match eval_check ck v with Some false => true | _ => false end
  | None => false
  end.

Definition is_null (v : value) : bool :=
  match v with VNull => true | _ => false end.

Definition is_rowid_alias (c : column) : bool :=
  col_primary_key c && match col_type c with INTEGER => true | _ => false end.

(** Column affinity on the values the statements below supply, which are
    integers, time stamps and NULL: a TEXT column keeps integers as their
    decimal text. *)
Definition store (ty : sqltype) (v : value) : value :=
  match ty, v with
  | TEXT, VInt z => VText (pretty z)
  | _, _ => v
  end.

Definition default_of (now : string) (c : column) : value :=
  match col_default c with
  | None => VNull
  | Some (DefaultInt z) => VInt z
  | Some DefaultCurrentTimestamp => VText now
  end.

Definition next_rowid (vs : list value) : Z :=
  match sql_max vs with
  | VInt m => m + 1
  | _ => 1
  end.

Fixpoint supplied (name : string) (cols : list string) (vals : list Z) : option Z :=
  match cols, vals with
  | c :: cols', v :: vals' =>
      if String.eqb c name then Some v else supplied name cols' vals'
  | _, _ => None
  end.

(** The value a new row gets in column [c] (at position [i]). *)
Definition new_cell (now : string) (cols : list string) (vals : list Z)
    (rows : list row) (i : nat) (c : column) : value :=
  match supplied (col_name c) cols vals with
  | Some z => store (col_type c) (VInt z)
  | None =>
      if is_rowid_alias c then VInt (next_rowid (column_values i rows))
      else store (col_type c) (default_of now c)
  end.

Definition new_row (now : string) (cols : list string) (vals : list Z)
    (t : table) : row :=
  imap (new_cell now cols vals (t_rows t)) (td_columns (t_def t)).

(** NOT NULL, CHECK, PRIMARY KEY and UNIQUE: the constraints a conflict
    clause applies to.  NULLs never collide. *)
Definition violates (rows : list row) (r : row) (i : nat) (c : column) : bool :=
  let v := cell i r in
  (col_not_null c && is_null v)
  || check_fails c v
  || ((col_primary_key c || col_unique c) && negb (is_null v)
      && bool_decide (v ∈ column_values i rows)).

Definition row_conflicts (t : table) (r : row) : bool :=
  existsb (fun ic => violates (t_rows t) r (fst ic) (snd ic))
          (imap pair (td_columns (t_def t))).

(** *** Foreign keys (enforced when the connection has foreign_keys = ON) *)

(** Statement preparation resolves every parent: the parent table must
    exist and the parent column must be a key of it. *)
Definition fk_prepare (db : database) (tbl : string) (fk : foreign_key)
    : option sql_error :=
  match db_tables db !! fk_parent fk with
  | None => Some (NoSuchTable (fk_parent fk))
  | Some p =>
      match find_column (fk_parent_column fk) (td_columns (t_def p)) with
      | Some (_, pc) =>
          if col_primary_key pc || col_unique pc then None
          else Some (ForeignKeyMismatch tbl (fk_parent fk))
      | None => Some (ForeignKeyMismatch tbl (fk_parent fk))
      end
  end.

Fixpoint first_error {A} (f : A -> option sql_error) (l : list A) : option sql_error :=
  match l with
  | [] => None
  | x :: l' => match f x with Some e => Some e | None => first_error f l' end
  end.

(** After the row [r] went into [tbl] (now [t']): a non-NULL child key
    must occur in the parent column. *)
Definition fk_holds (db : database) (tbl : string) (t' : table) (r : row)
    (fk : foreign_key) : bool :=
  match find_column (fk_column fk) (td_columns (t_def t')) with
  | None => true
  | Some (i, _) =>
      let v := cell i r in
      if is_null v then true
      else
        let parent :=
          if String.eqb (fk_parent fk) tbl then Some t'
          else db_tables db !! fk_parent fk in
        match parent with
        | None => false
        | Some p =>
            match find_column (fk_parent_column fk) (td_columns (t_def p)) with
            | None => false
            | Some (j, pc) =>
                bool_decide (store (col_type pc) v ∈ column_values j (t_rows p))
            end
        end
  end.

(** *** Statements *)

(** CREATE TABLE IF NOT EXISTS: a table of that name, whatever its
    definition, makes the statement a no-op; an index of that name is an
    error. *)
Definition exec_create_table (name : string) (def : table_def) (db : database)
    : sql_result :=
  match db_tables db !! name with
  | Some _ => inr (db, [])
  | None =>
      match db_indices db !! name with
      | Some _ => inl (IndexAlreadyNamed name)
      | None =>
          inr (Database (<[name := Table def []]> (db_tables db)) (db_indices db), [])
      end
  end.

(** CREATE INDEX IF NOT EXISTS: the table is located first, then the name
    is looked up (a table of that name is an error, an index of that name
    a no-op), then the columns are resolved. *)
Definition exec_create_index (name tbl : string) (cols : list string)
    (db : database) : sql_result :=
  match db_tables db !! tbl with
  | None => inl (NoSuchTable tbl)
  | Some t =>
      match db_tables db !! name with
      | Some _ => inl (TableAlreadyNamed name)
      | None =>
          match db_indices db !! name with
          | Some _ => inr (db, [])
          | None =>
              match first_error
                      (fun c => match col_index c (td_columns (t_def t)) with
                                | None => Some (NoSuchColumn c)
                                | Some _ => None
                                end) cols with
              | Some e => inl e
              | None =>
                  inr (Database (db_tables db)
                                (<[name := Index tbl cols]> (db_indices db)), [])
              end
          end
      end
  end.

(** INSERT OR IGNORE INTO tbl (cols) VALUES (vals): a row that violates
    NOT NULL, CHECK, PRIMARY KEY or UNIQUE is skipped silently; a foreign
    key violation is not covered by the conflict clause and fails the
    statement. *)
Definition exec_insert_or_ignore (fk_on : bool) (now : string) (tbl : string)
    (cols : list string) (vals : list Z) (db : database) : sql_result :=
  match db_tables db !! tbl with
  | None => inl (NoSuchTable tbl)
  | Some t =>
      match first_error
              (fun c => match col_index c (td_columns (t_def t)) with
                        | None => Some (NoColumnNamed tbl c)
                        | Some _ => None
                        end) cols with
      | Some e => inl e
      | None =>
          if negb (length cols =? length vals)%nat then inl ValuesCount
          else
            match (if fk_on
                   then first_error (fk_prepare db tbl) (td_foreign_keys (t_def t))
                   else None) with
            | Some e => inl e
            | None =>
                let r := new_row now cols vals t in
                if row_conflicts t r then inr (db, [])
                else
                  let t' := Table (t_def t) (t_rows t ++ [r]) in
                  if fk_on && negb (forallb (fk_holds db tbl t' r)
                                            (td_foreign_keys (t_def t)))
                  then inl ForeignKeyFailed
                  else inr (Database (<[tbl := t']> (db_tables db))
                                     (db_indices db), [])
            end
      end
  end.

(** SELECT MAX(col) FROM tbl: always exactly one row. *)
Definition exec_select_max (col tbl : string) (db : database) : sql_result :=
  match db_tables db !! tbl with
  | None => inl (NoSuchTable tbl)
  | Some t =>
      match named_column col t with
      | None => inl (NoSuchColumn col)
      | Some vs => inr (db, [[sql_max vs]])
      end
  end.

(** A statement against the database, under the connection's
    foreign_keys setting and at time [now].  The pragma itself does not
    touch the database. *)
Definition exec_stmt (fk_on : bool) (now : string) (q : stmt) (db : database)
    : sql_result :=
  match q with
  | PragmaForeignKeys _ => inr (db, [])
  | CreateTableIfNotExists name def => exec_create_table name def db
  | CreateIndexIfNotExists name tbl cols => exec_create_index name tbl cols db
  | InsertOrIgnore tbl cols vals => exec_insert_or_ignore fk_on now tbl cols vals db
  | SelectMax col tbl => exec_select_max col tbl db
  end.

(** *** Rows coming and going *)

(** A row the engine lets into a table: one value per column, with every
    NOT NULL and CHECK constraint satisfied.  (Keys and foreign keys
    narrow the rows let in further.) *)
Definition admissible (def : table_def) (r : row) : Prop :=
  length r = length (td_columns def)
  /\ forall i c, td_columns def !! i = Some c ->
       (col_not_null c && is_null (cell i r)) = false
       /\ check_fails c (cell i r) = false.

Definition with_rows (n : string) (t : table) (rows : list row) (db : database)
    : database :=
  Database (<[n := Table (t_def t) rows]> (db_tables db)) (db_indices db).

(** *** Statements of other programs

    INSERT, UPDATE, DELETE and DROP TABLE, as far as they decide what
    rows a table can hold.  INSERT and UPDATE present a row to the
    constraints of the table: the values of the statement, or the old
    row with its new values, each already taken through the affinity of
    its column (in an INTEGER column the text '1' has become the integer
    1, the real 2.0 the integer 2, and 1.5 has stayed a real).  NOT NULL
    and CHECK are evaluated on that row as the conflict clause of the
    statement asks. *)

(** The conflict clauses.  FAIL and ROLLBACK let through what ABORT lets
    through; they differ in how much is undone when a row is turned
    down, and what is undone leads back to an earlier state. *)
Inductive conflict := Abort | Ignore | Replace.

Inductive verdict :=
  | Stored (r : row)
  | Skipped
  | Refused.

(** Under REPLACE a NULL in a NOT NULL column gives way to the default of
    the column; when there is none the NULL stays and is turned down. *)
Definition fill (oc : conflict) (now : string) (c : column) (v : value) : value :=
  match oc with
  | Replace =>
      if col_not_null c && is_null v then store (col_type c) (default_of now c)
      else v
  | _ => v
  end.

Definition rejects (c : column) (v : value) : bool :=
  (col_not_null c && is_null v) || check_fails c v.

Definition row_rejected (def : table_def) (r : row) : bool :=
  existsb (fun ic => rejects (snd ic) (cell (fst ic) r)) (imap pair (td_columns def)).

(** What NOT NULL and CHECK make of a presented row: only IGNORE skips a
    row that fails; a CHECK that fails under REPLACE is an error, as
    under ABORT. *)
Definition vet (oc : conflict) (now : string) (def : table_def) (r0 : row) : verdict :=
  let r := imap (fun i c => fill oc now c (cell i r0)) (td_columns def) in
  if row_rejected def r
  then match oc with Ignore => Skipped | _ => Refused end
  else Stored r.

(** One row at a time.  Keys and foreign keys add to NOT NULL and CHECK
    in two ways only: they turn a statement down, which leaves the
    database as it was, or they take rows out (REPLACE on a key that is
    taken, ON DELETE CASCADE).  The steps let any rows go along with the
    row they store, so that whatever the engine does is a step. *)
Inductive dml_step : database -> database -> Prop :=
  | dml_insert db n t oc now r0 r kept :
      db_tables db !! n = Some t ->
      vet oc now (t_def t) r0 = Stored r ->
      kept `sublist_of` t_rows t ->
      dml_step db (with_rows n t (kept ++ [r]) db)
  | dml_update db n t oc now i r0 r kept :
      db_tables db !! n = Some t ->
      (i < length (t_rows t))%nat ->
      vet oc now (t_def t) r0 = Stored r ->
      kept `sublist_of` <[i := r]> (t_rows t) ->
      dml_step db (with_rows n t kept db)
  | dml_delete db n t kept :
      db_tables db !! n = Some t ->
      kept `sublist_of` t_rows t ->
      dml_step db (with_rows n t kept db).

(** DROP TABLE takes the table and the indices on it.  (With foreign keys
    on, the rows that go with it in other tables are deletions there.) *)
Definition exec_drop_table (name : string) (db : database) : sql_result :=
  match db_tables db !! name with
  | None => inl (NoSuchTable name)
  | Some _ =>
      inr (Database (delete name (db_tables db))
                    (filter (fun p => ix_table (snd p) <> name) (db_indices db)), [])
  end.

(** A step that drops nothing: a statement of the script's kind, or a row
    inserted, updated or deleted. *)
Inductive step : database -> database -> Prop :=
  | step_stmt fk_on now q db db' rows :
      exec_stmt fk_on now q db = inr (db', rows) -> step db db'
  | step_dml db db' :
      dml_step db db' -> step db db'.

Inductive drop_step : database -> database -> Prop :=
  | drop_table db n db' rows :
      exec_drop_table n db = inr (db', rows) -> drop_step db db'.

(** The states reached while no table is dropped, and all later states. *)
Definition undropped_state : database -> database -> Prop := rtc step.

Definition later_state : database -> database -> Prop :=
  rtc (fun db db' => step db db' \/ drop_step db db').

(** The value of the column called [name] in a row of [t]. *)
Definition field (name : string) (t : table) (r : row) : value :=
  match col_index name (td_columns (t_def t)) with
  | Some i => cell i r
  | None => VNull
  end.

End Sqlite.

(* ===================================================================== *)
(** ** The interpreter's world: files, clock, and what the run did *)
(* ===================================================================== *)

Module Py.
Import Sqlite.

(** What a path of the working directory holds.  A zero-length file reads
    as the empty database. *)
Inductive node :=
  | Dir
  | TextFile (content : string)
  | DbFile (db : database).

Inductive exn :=
  | Sqlite3Error (e : sql_error)
  | IsADirectoryError (path : string)
  | FileExistsError (path : string)
  | FileNotFoundError (path : string)
  | NotADirectoryError (path : string).

(** The calls of a run that reach outside the interpreter, in the order
    they are made. *)
Inductive event :=
  | EvPrint (s : string)
  | EvConnect (path : string)
  | EvExecute (q : stmt)
  | EvCommit
  | EvMakedirs (path : string)
  | EvOpen (path : string)
  | EvWrite (path : string) (s : string)
  | EvClose (path : string).

Record world := World {
  w_fs : gmap string node;
  w_now : string }.

(** What a computation leaves behind: the world, the events it emitted,
    and a result or the exception that ended it.  The world survives an
    exception. *)
Record outcome (A : Type) := Outcome {
  out_world : world;
  out_trace : list event;
  out_result : exn + A }.
Arguments Outcome {A} _ _ _.
Arguments out_world {A} _.
Arguments out_trace {A} _.
Arguments out_result {A} _.

Definition Py (A : Type) : Type := world -> outcome A.

Definition ret {A} (a : A) : Py A := fun w => Outcome w [] (inr a).

Definition bind {A B} (m : Py A) (k : A -> Py B) : Py B :=
  fun w =>
    match m w with
    | Outcome w1 t1 (inl e) => Outcome w1 t1 (inl e)
    | Outcome w1 t1 (inr a) =>
        match k a w1 with
        | Outcome w2 t2 r => Outcome w2 (t1 ++ t2) r
        end
    end.

#[global] Instance py_ret : MRet Py := @ret.
#[global] Instance py_bind : MBind Py := fun A B k m => bind m k.
#[global] Instance py_fmap : FMap Py := fun A B f m => bind m (fun a => ret (f a)).

Definition set_fs (fs : gmap string node) (w : world) : world :=
  World fs (w_now w).

Definition print (s : string) : Py unit := fun w => Outcome w [EvPrint s] (inr tt).

(** *** os *)

Definition os_path_exists (p : string) : Py bool :=
  fun w => Outcome w [] (inr (bool_decide (is_Some (w_fs w !! p)))).

Fixpoint has_slash (p : string) : bool :=
  match p with
  | EmptyString => false
  | String c p' => Ascii.eqb c "/" || has_slash p'
  end.

(** The part of a path before its last slash. *)
Fixpoint dirname (p : string) : string :=
  match p with
  | EmptyString => EmptyString
  | String c p' => if has_slash p' then String c (dirname p') else EmptyString
  end.

(** [os.path.abspath] of a relative, normalised path under a working
    directory that is itself absolute and normalised. *)
Definition os_path_abspath (cwd p : string) : string :=
  if String.eqb cwd "/" then cwd +:+ p else cwd +:+ "/" +:+ p.

(** [os.makedirs(p, exist_ok=True)] for a path of one component. *)
Definition os_makedirs (p : string) : Py unit :=
  fun w =>
    match w_fs w !! p with
    | None => Outcome (set_fs (<[p := Dir]> (w_fs w)) w) [EvMakedirs p] (inr tt)
    | Some Dir => Outcome w [EvMakedirs p] (inr tt)
    | Some _ => Outcome w [EvMakedirs p] (inl (FileExistsError p))
    end.

(** [open(p, "w")]: the file is created or truncated. *)
Definition open_w (p : string) : Py string :=
  fun w =>
    match w_fs w !! p with
    | Some Dir => Outcome w [EvOpen p] (inl (IsADirectoryError p))
    | _ =>
        let created :=
          Outcome (set_fs (<[p := TextFile EmptyString]> (w_fs w)) w) [EvOpen p] (inr p) in
        match dirname p with
        | EmptyString => created
        | d =>
            match w_fs w !! d with
            | Some Dir => created
            | Some _ => Outcome w [EvOpen p] (inl (NotADirectoryError p))
            | None => Outcome w [EvOpen p] (inl (FileNotFoundError p))
            end
        end
    end.

Definition file_write (f : string) (s : string) : Py unit :=
  fun w =>
    let old := match w_fs w !! f with
               | Some (TextFile t) => t
               | _ => EmptyString
               end in
    Outcome (set_fs (<[f := TextFile (old +:+ s)]> (w_fs w)) w) [EvWrite f s] (inr tt).

Definition file_close (f : string) : Py unit :=
  fun w => Outcome w [EvClose f] (inr tt).

(** [with open(p, "w") as f: body] *)
Definition with_open_w (p : string) (body : string -> Py unit) : Py unit :=
  f ← open_w p; body f;; file_close f.

(** *** sqlite3 *)

(** A connection: the file it is on and its foreign_keys setting. *)
Record connection := Connection {
  conn_path : string;
  conn_foreign_keys : bool }.

(** A cursor: its connection and the rows of its last statement. *)
Record cursor := Cursor {
  cur_conn : connection;
  cur_rows : list row }.

Definition as_database (n : node) : option database :=
  match n with
  | DbFile db => Some db
  | TextFile EmptyString => Some empty_db
  | _ => None
  end.

(** The database a connection is on. *)
Definition conn_db (conn : connection) (w : world) : option database :=
  w_fs w !! conn_path conn ≫= as_database.

(** [sqlite3.connect(p)]: a missing file is created, empty. *)
Definition sqlite3_connect (p : string) : Py connection :=
  fun w =>
    match w_fs w !! p with
    | Some Dir => Outcome w [EvConnect p] (inl (Sqlite3Error UnableToOpen))
    | Some _ => Outcome w [EvConnect p] (inr (Connection p false))
    | None =>
        Outcome (set_fs (<[p := DbFile empty_db]> (w_fs w)) w) [EvConnect p]
                (inr (Connection p false))
    end.

(** One statement on a connection.  The pragma changes the connection and
    leaves the file alone; every other statement reads the file, which
    must hold a database, and writes the outcome through. *)
Definition run_stmt (conn : connection) (q : stmt) : Py (connection * list row) :=
  fun w =>
    match q with
    | PragmaForeignKeys on =>
        Outcome w [EvExecute q] (inr (Connection (conn_path conn) on, []))
    | _ =>
        match conn_db conn w with
        | None => Outcome w [EvExecute q] (inl (Sqlite3Error NotADatabase))
        | Some db =>
            match exec_stmt (conn_foreign_keys conn) (w_now w) q db with
            | inl e => Outcome w [EvExecute q] (inl (Sqlite3Error e))
            | inr (db', rows) =>
                Outcome (set_fs (<[conn_path conn := DbFile db']> (w_fs w)) w)
                        [EvExecute q] (inr (conn, rows))
            end
        end
    end.

(** [conn.execute(q)]; the script uses it for the pragma and drops the
    cursor it returns, so the connection in its new state is returned. *)
Definition conn_execute (conn : connection) (q : stmt) : Py connection :=
  fst <$> run_stmt conn q.

Definition conn_cursor (conn : connection) : Py cursor :=
  mret (Cursor conn []).

(** [cursor.execute(q)], the cursor in its new state. *)
Definition cursor_execute (cur : cursor) (q : stmt) : Py cursor :=
  '(conn, rows) ← run_stmt (cur_conn cur) q; mret (Cursor conn rows).

(** [cursor.fetchone()]: the next row or None, and the cursor past it. *)
Definition cursor_fetchone (cur : cursor) : Py (option row * cursor) :=
  mret (match cur_rows cur with
        | [] => (None, cur)
        | r :: rest => (Some r, Cursor (cur_conn cur) rest)
        end).

(** [conn.commit()].  Statements are written through as they run: the
    script's only statement inside a transaction is its last one, which
    the commit on the next line makes durable. *)
Definition conn_commit (conn : connection) : Py unit :=
  fun w => Outcome w [EvCommit] (inr tt).

(** *** The values [is_schema_up_to_date] can return *)

Inductive pyval :=
  | PyNone
  | PyBool (b : bool)
  | PyTuple (r : row).

Definition truthy (v : pyval) : bool :=
  match v with
  | PyNone => false
  | PyBool b => b
  | PyTuple [] => false
  | PyTuple (_ :: _) => true
  end.

(** [v == n] for a fetched value and an int.  A REAL is never a whole
    number here, so it equals no int. *)
Definition eq_int (v : value) (n : Z) : bool :=
  match v with
  | VInt z => (z =? n)%Z
  | _ => false
  end.

End Py.

(* ===================================================================== *)
(** ** The script *)
(* ===================================================================== *)

Import Sqlite Py.

Definition DB_NAME : string := "myapp.db".
Definition SCHEMA_VERSION : Z := 1.

Definition newline : string := String "010"%char EmptyString.
Definition dquote : string := String "034"%char EmptyString.

(** The five table definitions of [create_tables].  Fields of [Column]:
    name, type, PRIMARY KEY, AUTOINCREMENT, NOT NULL, UNIQUE, DEFAULT,
    CHECK. *)

Definition schema_migrations_def : table_def :=
  TableDef
    [ Column "version"    INTEGER   true  false false false None None;
      Column "applied_at" TIMESTAMP false false false false
             (Some DefaultCurrentTimestamp) None ]
    [].

Definition users_def : table_def :=
  TableDef
    [ Column "id"            INTEGER   true  true  false false None None;
      Column "username"      TEXT      false false true  true  None None;
      Column "password_hash" TEXT      false false true  false None None;
      Column "score"         INTEGER   false false true  false (Some (DefaultInt 0)) None;
      Column "created_at"    TIMESTAMP false false true  false
             (Some DefaultCurrentTimestamp) None ]
    [].

Definition games_def : table_def :=
  TableDef
    [ Column "id"          INTEGER   true  true  false false None None;
      Column "player_x_id" INTEGER   false false true  false None None;
      Column "player_o_id" INTEGER   false false true  false None None;
      Column "winner_id"   INTEGER   false false false false None None;
      Column "status"      TEXT      false false true  false None
             (Some (InList ["waiting"; "active"; "finished"]));
      Column "started_at"  TIMESTAMP false false false false
             (Some DefaultCurrentTimestamp) None;
      Column "finished_at" TIMESTAMP false false false false None None ]
    [ ForeignKey "player_x_id" "users" "id" Cascade;
      ForeignKey "player_o_id" "users" "id" Cascade;
      ForeignKey "winner_id"   "users" "id" NoAction ].

Definition moves_def : table_def :=
  TableDef
    [ Column "id"         INTEGER   true  true  false false None None;
      Column "game_id"    INTEGER   false false true  false None None;
      Column "user_id"    INTEGER   false false true  false None None;
      Column "row"        INTEGER   false false true  false None (Some (Between 0 2));
      Column "col"        INTEGER   false false true  false None (Some (Between 0 2));
      Column "move_num"   INTEGER   false false true  false None None;
      Column "created_at" TIMESTAMP false false false false
             (Some DefaultCurrentTimestamp) None ]
    [ ForeignKey "game_id" "games" "id" Cascade;
      ForeignKey "user_id" "users" "id" Cascade ].

Definition scores_def : table_def :=
  TableDef
    [ Column "user_id"     INTEGER true  false false false None None;
      Column "total_games" INTEGER false false true  false (Some (DefaultInt 0)) None;
      Column "wins"        INTEGER false false true  false (Some (DefaultInt 0)) None;
      Column "losses"      INTEGER false false true  false (Some (DefaultInt 0)) None;
      Column "draws"       INTEGER false false true  false (Some (DefaultInt 0)) None ]
    [ ForeignKey "user_id" "users" "id" Cascade ].

(** [get_conn]: a connection to the SQLite DB with foreign keys enabled. *)
Definition get_conn : Py connection :=
  conn ← sqlite3_connect DB_NAME;
  conn ← conn_execute conn (PragmaForeignKeys true);
  mret conn.

(** [create_tables(conn)] *)
Definition create_tables (conn : connection) : Py unit :=
  cursor ← conn_cursor conn;
  cursor ← cursor_execute cursor
    (CreateTableIfNotExists "schema_migrations" schema_migrations_def);
  cursor ← cursor_execute cursor (CreateTableIfNotExists "users" users_def);
  cursor ← cursor_execute cursor
    (CreateIndexIfNotExists "idx_users_username" "users" ["username"]);
  cursor ← cursor_execute cursor (CreateTableIfNotExists "games" games_def);
  cursor ← cursor_execute cursor
    (CreateIndexIfNotExists "idx_games_status" "games" ["status"]);
  cursor ← cursor_execute cursor (CreateTableIfNotExists "moves" moves_def);
  cursor ← cursor_execute cursor
    (CreateIndexIfNotExists "idx_moves_gameid" "moves" ["game_id"]);
  cursor ← cursor_execute cursor (CreateTableIfNotExists "scores" scores_def);
  cursor ← cursor_execute cursor
    (InsertOrIgnore "schema_migrations" ["version"] [SCHEMA_VERSION]);
  conn_commit conn.

(** [is_schema_up_to_date(conn)] returns [row and row[0] == SCHEMA_VERSION]:
    [row] itself when it is falsy (None or the empty tuple), the
    comparison otherwise. *)
Definition is_schema_up_to_date (conn : connection) : Py pyval :=
  cursor ← conn_cursor conn;
  cursor ← cursor_execute cursor (SelectMax "version" "schema_migrations");
  '(row, cursor) ← cursor_fetchone cursor;
  mret (match row with
        | None => PyNone
        | Some [] => PyTuple []
        | Some (v :: _) => PyBool (eq_int v SCHEMA_VERSION)
        end).

Section InitializeDb.

(** The working directory when the module is loaded; [DB_PATH] is
    computed from it once. *)
Variable cwd : string.

Definition DB_PATH : string := os_path_abspath cwd DB_NAME.

(** [initialize_db()] *)
Definition initialize_db : Py unit :=
  print "Checking for existing SQLite database ...";;
  db_exists ← os_path_exists DB_NAME;
  conn ← get_conn;
  (if negb db_exists
   then print ("Database will be created at " +:+ DB_PATH)
   else print ("Database found at " +:+ DB_PATH));;
  up_to_date ← is_schema_up_to_date conn;
  (if negb (truthy up_to_date)
   then print "Applying database schema ...";;
        create_tables conn;;
        print "Schema created or updated successfully."
   else print "Schema already up-to-date.");;
  print "Writing connection info ...";;
  with_open_w "db_connection.txt" (fun f =>
    file_write f ("# SQLite connection methods:" +:+ newline);;
    file_write f ("# Python: sqlite3.connect('" +:+ DB_NAME +:+ "')" +:+ newline);;
    file_write f ("# Connection string: sqlite:///" +:+ DB_PATH +:+ newline);;
    file_write f ("# File path: " +:+ DB_PATH +:+ newline));;
  os_makedirs "db_visualizer";;
  with_open_w "db_visualizer/sqlite.env" (fun f =>
    file_write f ("export SQLITE_DB=" +:+ dquote +:+ DB_PATH +:+ dquote +:+ newline));;
  print "Database initialization complete!";;
  print ("Location: " +:+ DB_PATH).

End InitializeDb.

(* ===================================================================== *)
(** ** Notions the statements are phrased in *)
(* ===================================================================== *)

(** The statements of [create_tables], in the order it issues them. *)
Definition ddl_statements : list stmt :=
  [ CreateTableIfNotExists "schema_migrations" schema_migrations_def;
    CreateTableIfNotExists "users" users_def;
    CreateIndexIfNotExists "idx_users_username" "users" ["username"];
    CreateTableIfNotExists "games" games_def;
    CreateIndexIfNotExists "idx_games_status" "games" ["status"];
    CreateTableIfNotExists "moves" moves_def;
    CreateIndexIfNotExists "idx_moves_gameid" "moves" ["game_id"];
    CreateTableIfNotExists "scores" scores_def ].

Definition record_version : stmt :=
  InsertOrIgnore "schema_migrations" ["version"] [SCHEMA_VERSION].

Definition create_tables_statements : list stmt :=
  ddl_statements ++ [record_version].

Definition is_pragma (q : stmt) : bool :=
  match q with PragmaForeignKeys _ => true | _ => false end.

(** A cursor running a list of statements, stopping at the first error. *)
Fixpoint execute_all (cur : cursor) (qs : list stmt) : Py cursor :=
  match qs with
  | [] => mret cur
  | q :: qs' => cur' ← cursor_execute cur q; execute_all cur' qs'
  end.

(** The same on a database: the database reached, the statements that
    were issued (the failing one included), and the error if any. *)
Fixpoint exec_script (fk_on : bool) (now : string) (qs : list stmt) (db : database)
    : database * list stmt * option sql_error :=
  match qs with
  | [] => (db, [], None)
  | q :: qs' =>
      match exec_stmt fk_on now q db with
      | inl e => (db, [q], Some e)
      | inr (db', _) =>
          let '(d, issued, r) := exec_script fk_on now qs' db' in
          (d, q :: issued, r)
      end
  end.

(** What a run of statements leaves: summarised by [exec_script] on the
    connection's database; every other path and the clock are untouched. *)
Definition leaves {A} (conn : connection) (w : world) (o : outcome A)
    (d : database) : Prop :=
  conn_db conn (out_world o) = Some d
  /\ w_now (out_world o) = w_now w
  /\ forall p, p <> conn_path conn -> w_fs (out_world o) !! p = w_fs w !! p.

Definition inserts_into (n : string) (q : stmt) : bool :=
  match q with
  | InsertOrIgnore tbl _ _ => String.eqb tbl n
  | _ => false
  end.

Definition has_table (n : string) (db : database) : Prop :=
  is_Some (db_tables db !! n).

(** The four application tables. *)
Definition app_tables : list string := ["users"; "games"; "moves"; "scores"].

Definition is_ddl (q : stmt) : bool :=
  match q with
  | CreateTableIfNotExists _ _ | CreateIndexIfNotExists _ _ _ => true
  | _ => false
  end.

Definition creates_table (n : string) (q : stmt) : bool :=
  match q with
  | CreateTableIfNotExists m _ => String.eqb m n
  | _ => false
  end.

(** The state in which a DDL statement has nothing left to do. *)
Definition settled (q : stmt) (db : database) : Prop :=
  match q with
  | CreateTableIfNotExists n _ => is_Some (db_tables db !! n)
  | CreateIndexIfNotExists i tbl _ =>
      is_Some (db_tables db !! tbl)
      /\ db_tables db !! i = None
      /\ is_Some (db_indices db !! i)
  | _ => True
  end.

(** [q'] would take the name that [q] needs free. *)
Definition clashes (q q' : stmt) : bool :=
  match q with
  | CreateIndexIfNotExists i _ _ => creates_table i q'
  | _ => false
  end.

Fixpoint compatible (qs : list stmt) : bool :=
  match qs with
  | [] => true
  | q :: qs' => forallb (fun q' => negb (clashes q q')) qs' && compatible qs'
  end.

(** *** The migrations ledger *)

Definition ledger (db : database) : option table :=
  db_tables db !! "schema_migrations".

Definition ledger_rows (db : database) : list row :=
  match ledger db with
  | Some t => t_rows t
  | None => []
  end.

(** The versions the ledger records: its column [version]. *)
Definition recorded_versions (db : database) : list value :=
  match ledger db with
  | Some t => default [] (named_column "version" t)
  | None => []
  end.

(** The ledger is absent, or it is the table this script defines. *)
Definition script_ledger (db : database) : Prop :=
  match ledger db with
  | Some t => t_def t = schema_migrations_def
  | None => True
  end.

(** The world at another moment: same files, clock at [t]. *)
Definition at_time (t : string) (w : world) : world := World (w_fs w) t.

(** Runs of [create_tables] one after the other, at the given times,
    whatever their outcome. *)
Fixpoint runs (conn : connection) (times : list string) (w : world) : world :=
  match times with
  | [] => w
  | t :: ts => runs conn ts (out_world (create_tables conn (at_time t w)))
  end.

(** *** Sample states *)

(** The connection [get_conn] returns. *)
Definition main_conn : connection := Connection DB_NAME true.

Definition world_of (db : database) : world :=
  World {[ DB_NAME := DbFile db ]} "2024-05-01 12:00:00".

(** A ledger made by another tool, in which [version] is not a key:
    [CREATE TABLE schema_migrations (version INTEGER)]. *)
Definition keyless_ledger_db : database :=
  Database
    {[ "schema_migrations" :=
         Table (TableDef [Column "version" INTEGER false false false false None None] [])
               [] ]}
    ∅.

(** A ledger made by another tool, with a mandatory column that the
    script's INSERT does not fill:
    [CREATE TABLE schema_migrations (version INTEGER NOT NULL PRIMARY KEY,
    dirty INTEGER NOT NULL)]. *)
Definition dirty_ledger_db : database :=
  Database
    {[ "schema_migrations" :=
         Table (TableDef [Column "version" INTEGER true false true false None None;
                          Column "dirty" INTEGER false false true false None None] [])
               [] ]}
    ∅.

(** *** What [initialize_db] is made of *)

Definition check_ledger : stmt := SelectMax "version" "schema_migrations".

(** [m] is the largest of [vs] in SQLite's ordering. *)
Definition is_maximum (m : value) (vs : list value) : Prop :=
  m ∈ vs /\ forall v, v ∈ vs -> value_lt m v = false.

Definition is_ddl_event (e : event) : bool :=
  match e with
  | EvExecute q => is_ddl q
  | _ => false
  end.

(** Some DDL statement was sent to the database, whether or not it went
    through. *)
Definition ddl_issued (tr : list event) : bool := existsb is_ddl_event tr.

(** The last part of [initialize_db]: the two metadata files. *)
Definition write_metadata (cwd : string) : Py unit :=
  print "Writing connection info ...";;
  with_open_w "db_connection.txt" (fun f =>
    file_write f ("# SQLite connection methods:" +:+ newline);;
    file_write f ("# Python: sqlite3.connect('" +:+ DB_NAME +:+ "')" +:+ newline);;
    file_write f ("# Connection string: sqlite:///" +:+ DB_PATH cwd +:+ newline);;
    file_write f ("# File path: " +:+ DB_PATH cwd +:+ newline));;
  os_makedirs "db_visualizer";;
  with_open_w "db_visualizer/sqlite.env" (fun f =>
    file_write f ("export SQLITE_DB=" +:+ dquote +:+ DB_PATH cwd +:+ dquote +:+ newline));;
  print "Database initialization complete!";;
  print ("Location: " +:+ DB_PATH cwd).

(** The world once [get_conn] has connected: a missing database file has
    been created, empty. *)
Definition connected (w : world) : world :=
  match w_fs w !! DB_NAME with
  | None => set_fs (<[DB_NAME := DbFile empty_db]> (w_fs w)) w
  | Some _ => w
  end.

(** What [initialize_db] emits up to the ledger check. *)
Definition opening (cwd : string) (w : world) : list event :=
  [ EvPrint "Checking for existing SQLite database ...";
    EvConnect DB_NAME;
    EvExecute (PragmaForeignKeys true);
    EvPrint (match w_fs w !! DB_NAME with
             | None => "Database will be created at " +:+ DB_PATH cwd
             | Some _ => "Database found at " +:+ DB_PATH cwd
             end) ].

(** [initialize_db] from the ledger check on, [t0] being what was emitted
    before. *)
Definition after_connect (cwd : string) (t0 : list event) (w1 : world) : outcome unit :=
  match is_schema_up_to_date main_conn w1 with
  | Outcome w2 t2 (inl e) => Outcome w2 (t0 ++ t2) (inl e)
  | Outcome w2 t2 (inr up) =>
      if truthy up then
        match write_metadata cwd w2 with
        | Outcome w4 t4 r =>
            Outcome w4 (t0 ++ t2 ++ [EvPrint "Schema already up-to-date."] ++ t4) r
        end
      else
        match create_tables main_conn w2 with
        | Outcome w3 t3 (inl e) =>
            Outcome w3 (t0 ++ t2 ++ [EvPrint "Applying database schema ..."] ++ t3)
                    (inl e)
        | Outcome w3 t3 (inr _) =>
            match write_metadata cwd w3 with
            | Outcome w4 t4 r =>
                Outcome w4
                  (t0 ++ t2 ++ [EvPrint "Applying database schema ..."] ++ t3
                   ++ [EvPrint "Schema created or updated successfully."] ++ t4) r
            end
        end
  end.

(** What the two metadata files are to hold. *)
Definition connection_info (cwd : string) : string :=
  "# SQLite connection methods:" +:+ newline
  +:+ "# Python: sqlite3.connect('myapp.db')" +:+ newline
  +:+ "# Connection string: sqlite:///" +:+ DB_PATH cwd +:+ newline
  +:+ "# File path: " +:+ DB_PATH cwd +:+ newline.

Definition visualizer_env (cwd : string) : string :=
  "export SQLITE_DB=" +:+ dquote +:+ DB_PATH cwd +:+ dquote +:+ newline.

(** What [write_metadata] emits when nothing stops it. *)
Definition metadata_trace (cwd : string) : list event :=
  [ EvPrint "Writing connection info ...";
    EvOpen "db_connection.txt";
    EvWrite "db_connection.txt" ("# SQLite connection methods:" +:+ newline);
    EvWrite "db_connection.txt" ("# Python: sqlite3.connect('myapp.db')" +:+ newline);
    EvWrite "db_connection.txt"
            ("# Connection string: sqlite:///" +:+ DB_PATH cwd +:+ newline);
    EvWrite "db_connection.txt" ("# File path: " +:+ DB_PATH cwd +:+ newline);
    EvClose "db_connection.txt";
    EvMakedirs "db_visualizer";
    EvOpen "db_visualizer/sqlite.env";
    EvWrite "db_visualizer/sqlite.env" (visualizer_env cwd);
    EvClose "db_visualizer/sqlite.env";
    EvPrint "Database initialization complete!";
    EvPrint ("Location: " +:+ DB_PATH cwd) ].

(** The files a run opened for writing, in order. *)
Definition files_opened (tr : list event) : list string :=
  omap (fun e => match e with EvOpen p => Some p | _ => None end) tr.

(** The database [create_tables] makes of an empty one. *)
Definition installed_db : database :=
  default empty_db
    (conn_db main_conn (out_world (create_tables main_conn (world_of empty_db)))).

(** An installed database whose ledger records versions 1 and 2, as a
    later release of the schema would leave it. *)
Definition newer_ledger_db : database :=
  Database
    (<["schema_migrations" :=
         Table schema_migrations_def
               [ [VInt 1; VText "2024-03-01 09:00:00"];
                 [VInt 2; VText "2024-04-01 09:00:00"] ]]>
       (db_tables installed_db))
    (db_indices installed_db).

(** *** The five steps of [initialize_db] *)

Inductive phase :=
  | OpenConnection
  | CheckLedger
  | ApplyDDL
  | RecordVersion
  | WriteMetadata.

Definition phase_rank (p : phase) : nat :=
  match p with
  | OpenConnection => 0
  | CheckLedger => 1
  | ApplyDDL => 2
  | RecordVersion => 3
  | WriteMetadata => 4
  end.

(** The step an event belongs to; what is printed belongs to none. *)
Definition phase_of (e : event) : option phase :=
  match e with
  | EvPrint _ => None
  | EvConnect _ => Some OpenConnection
  | EvExecute (PragmaForeignKeys _) => Some OpenConnection
  | EvExecute (SelectMax _ _) => Some CheckLedger
  | EvExecute (CreateTableIfNotExists _ _) => Some ApplyDDL
  | EvExecute (CreateIndexIfNotExists _ _ _) => Some ApplyDDL
  | EvExecute (InsertOrIgnore _ _ _) => Some RecordVersion
  | EvCommit => Some RecordVersion
  | EvMakedirs _ | EvOpen _ | EvWrite _ _ | EvClose _ => Some WriteMetadata
  end.

Definition phases (tr : list event) : list phase := omap phase_of tr.

(** No event of an earlier step comes after an event of a later one. *)
Definition in_order (ps : list phase) : Prop :=
  forall i j a b,
    (i < j)%nat -> ps !! i = Some a -> ps !! j = Some b ->
    (phase_rank a <= phase_rank b)%nat.

Fixpoint ascending (ps : list phase) : bool :=
  match ps with
  | a :: (b :: _) as rest => (phase_rank a <=? phase_rank b)%nat && ascending rest
  | _ => true
  end.

(** The steps of a complete run that found the schema outdated: connect
    and pragma, the check, eight DDL statements, the INSERT and the
    commit, and the ten file-system calls that write the two metadata files. *)
Definition complete_outdated : list phase :=
  [OpenConnection; OpenConnection; CheckLedger]
  ++ replicate 8 ApplyDDL
  ++ [RecordVersion; RecordVersion]
  ++ replicate 10 WriteMetadata.

(** The steps of a complete run that found the schema up to date. *)
Definition complete_current : list phase :=
  [OpenConnection; OpenConnection; CheckLedger] ++ replicate 10 WriteMetadata.

(** Every row of the table satisfies the table's NOT NULL and CHECK
    constraints. *)
Definition valid_rows (t : table) : Prop :=
  Forall (admissible (t_def t)) (t_rows t).

(** Whenever the table [n] is there and defined as [def], its rows are
    valid. *)
Definition checked (n : string) (def : table_def) (db : database) : Prop :=
  forall t, db_tables db !! n = Some t -> t_def t = def -> valid_rows t.

(** The table [n] is there, defined as [def]. *)
Definition defined_as (n : string) (def : table_def) (db : database) : Prop :=
  exists t, db_tables db !! n = Some t /\ t_def t = def.

(** The table [n] is there, defined as [def], with valid rows. *)
Definition holds_table (n : string) (def : table_def) (db : database) : Prop :=
  exists t, db_tables db !! n = Some t /\ t_def t = def /\ valid_rows t.

(** The ledger of [installed_db]. *)
Definition installed_ledger : table :=
  Table schema_migrations_def [[VInt 1; VText "2024-05-01 12:00:00"]].

(** A move on the centre square, a move whose row is the real number
    3/2, and [installed_db] with the two. *)
Definition centre_move : row :=
  [VInt 1; VInt 1; VInt 1; VInt 1; VInt 1; VInt 1; VText "2024-05-01 12:05:00"].

Definition half_way_move : row :=
  [VInt 2; VInt 1; VInt 1; VReal 1 1; VInt 0; VInt 2; VText "2024-05-01 12:06:00"].

Definition played_db : database :=
  with_rows "moves" (Table moves_def []) [centre_move; half_way_move] installed_db.

(** *** The script as a program *)

(** The [__main__] block. *)
Definition main (cwd : string) : Py unit :=
  print "Starting Tic Tac Toe database initialization ...";;
  initialize_db cwd.

(** The names [create_tables] gives to tables and to indices. *)
Definition script_tables : list string :=
  ["schema_migrations"; "users"; "games"; "moves"; "scores"].

Definition script_indices : list string :=
  ["idx_users_username"; "idx_games_status"; "idx_moves_gameid"].

(** No table and no index of the database has the name [n]. *)
Definition name_free (db : database) (n : string) : Prop :=
  db_tables db !! n = None /\ db_indices db !! n = None.

(** The paths [initialize_db] works on. *)
Definition script_paths : list string :=
  [DB_NAME; "db_connection.txt"; "db_visualizer"; "db_visualizer/sqlite.env"].

(** The statements a run sent to the database, in order. *)
Definition statements_issued (tr : list event) : list stmt :=
  omap (fun e => match e with EvExecute q => Some q | _ => None end) tr.

(** The file system lets the metadata files be written: neither file is a
    directory, and db_visualizer is a directory or does not exist. *)
Definition metadata_writable (w : world) : Prop :=
  w_fs w !! "db_connection.txt" <> Some Dir
  /\ (w_fs w !! "db_visualizer" = None \/ w_fs w !! "db_visualizer" = Some Dir)
  /\ w_fs w !! "db_visualizer/sqlite.env" <> Some Dir.

(** A database with a [users] table of another making, without a
    username column. *)
Definition foreign_users_db : database :=
  Database
    {[ "users" :=
         Table (TableDef [Column "id" INTEGER true false false false None None;
                          Column "email" TEXT false false true true None None] [])
               [[VInt 1; VText "ann@example.org"]] ]}
    ∅.

(** Both metadata files are in place with their contents. *)
Definition metadata_written (cwd : string) (w : world) : Prop :=
  w_fs w !! "db_connection.txt" = Some (TextFile (connection_info cwd))
  /\ w_fs w !! "db_visualizer" = Some Dir
  /\ w_fs w !! "db_visualizer/sqlite.env" = Some (TextFile (visualizer_env cwd)).

(** The ledger can be read, and whenever the check finds the database
    outdated, the statements of [create_tables] all go through and change
    nothing. *)
Definition rerunnable (d : database) : Prop :=
  (exists t vs, ledger d = Some t /\ named_column "version" t = Some vs)
  /\ (forall t vs, ledger d = Some t -> named_column "version" t = Some vs ->
        eq_int (sql_max vs) SCHEMA_VERSION = false ->
        forall now, exec_script true now create_tables_statements d
                    = (d, create_tables_statements, None)).

(** *** Applying the DDL *)

(** The DDL statements a run sent, in order. *)
Definition ddl_sent (tr : list event) : list stmt :=
  List.filter is_ddl (statements_issued tr).

(** The run applied the DDL statements: it sent all eight, in the order
    of the script, and in the database it left each has taken effect, its
    table or index being there. *)
Definition applies_ddl (o : outcome unit) : Prop :=
  ddl_sent (out_trace o) = ddl_statements
  /\ exists d,
       conn_db main_conn (out_world o) = Some d
       /\ Forall (fun q => settled q d) ddl_statements.

(** None of the eight DDL statements fails on the database. *)
Definition ddl_goes_through (now : string) (db : database) : Prop :=
  snd (exec_script true now ddl_statements db) = None.

(** An outdated database (an empty ledger of the script's making) whose
    [users] table is of another making, without a username column. *)
Definition outdated_foreign_users_db : database :=
  Database
    (<["schema_migrations" := Table schema_migrations_def []]>
       (db_tables foreign_users_db))
    ∅.

(** *** Names of the engine's own *)

(** Names beginning with sqlite_ are reserved for the objects the engine
    keeps by itself. *)
Definition internal_name (n : string) : bool := String.prefix "sqlite_" n.

(** *** A table dropped and made again *)

(** [moves] as another program might define it, without the CHECKs. *)
Definition loose_moves_def : table_def :=
  TableDef
    [ Column "id"         INTEGER   true  false false false None None;
      Column "game_id"    INTEGER   false false false false None None;
      Column "user_id"    INTEGER   false false false false None None;
      Column "row"        INTEGER   false false false false None None;
      Column "col"        INTEGER   false false false false None None;
      Column "move_num"   INTEGER   false false false false None None;
      Column "created_at" TIMESTAMP false false false false None None ]
    [].

(** A move off the board. *)
Definition stray_move : row :=
  [VInt 1; VInt 1; VInt 1; VInt 5; VInt 0; VInt 1; VNull].

(** [installed_db] after DROP TABLE moves, CREATE TABLE IF NOT EXISTS
    moves with the loose definition, and the stray move inserted. *)
Definition recreated_db : database :=
  Database
    (<["moves" := Table loose_moves_def [stray_move]]> (db_tables installed_db))
    (delete "idx_moves_gameid" (db_indices installed_db)).

(* ===================================================================== *)
(** ** Statements in sequence *)
(* ===================================================================== *)

Lemma conn_db_written conn d fs w :
  conn_db conn (set_fs (<[conn_path conn := DbFile d]> fs) w) = Some d.
Proof. unfold conn_db. simpl. by rewrite lookup_insert_eq. Qed.

Lemma run_stmt_database conn q w db :
  is_pragma q = false ->
  conn_db conn w = Some db ->
  run_stmt conn q w =
    match exec_stmt (conn_foreign_keys conn) (w_now w) q db with
    | inl e => Outcome w [EvExecute q] (inl (Sqlite3Error e))
    | inr (db', rows) =>
        Outcome (set_fs (<[conn_path conn := DbFile db']> (w_fs w)) w)
                [EvExecute q] (inr (conn, rows))
    end.
Proof. intros Hq Hdb. destruct q; try discriminate; simpl; by rewrite Hdb. Qed.

Lemma run_stmt_no_database conn q w :
  is_pragma q = false ->
  conn_db conn w = None ->
  run_stmt conn q w = Outcome w [EvExecute q] (inl (Sqlite3Error NotADatabase)).
Proof. intros Hq Hdb. destruct q; try discriminate; simpl; by rewrite Hdb. Qed.

Lemma execute_all_spec qs :
  forallb (fun q => negb (is_pragma q)) qs = true ->
  forall conn rows0 w db,
    conn_db conn w = Some db ->
    let '(d, issued, r) := exec_script (conn_foreign_keys conn) (w_now w) qs db in
    let o := execute_all (Cursor conn rows0) qs w in
    out_trace o = map EvExecute issued
    /\ match r with
       | None => exists rows, out_result o = inr (Cursor conn rows)
       | Some e => out_result o = inl (Sqlite3Error e)
       end
    /\ leaves conn w o d.
Proof.
  induction qs as [|q qs IH]; intros Hqs conn rows0 w db Hdb.
  - simpl. split; [done|]. split; [by exists rows0|]. by unfold leaves.
  - simpl in Hqs. apply andb_true_iff in Hqs as [Hq Hqs].
    apply negb_true_iff in Hq.
    simpl. unfold cursor_execute, mbind, py_bind, bind. simpl.
    rewrite (run_stmt_database _ _ _ _ Hq Hdb).
    destruct (exec_stmt _ _ q db) as [e|[db' rows]] eqn:Hex.
    + simpl. split; [done|]. split; [done|]. by unfold leaves.
    + simpl.
      set (w1 := set_fs _ w).
      specialize (IH Hqs conn rows w1 db' (conn_db_written _ _ _ _)).
      change (w_now w1) with (w_now w) in IH.
      destruct (exec_script _ _ qs db') as [[d issued] r].
      destruct (execute_all (Cursor conn rows) qs w1) as [w2 t2 r2].
      unfold leaves in *. simpl in *.
      destruct IH as (Ht & Hr & Hd & Hnow & Hframe).
      split; [by rewrite Ht|]. split; [done|].
      split; [done|]. split; [done|].
      intros p Hp. etrans; [by apply Hframe|].
      subst w1. simpl. by rewrite lookup_insert_ne.
Qed.

Lemma create_tables_as_script conn w :
  create_tables conn w =
    (execute_all (Cursor conn []) create_tables_statements ≫= fun _ => conn_commit conn) w.
Proof.
  unfold create_tables, create_tables_statements, ddl_statements, record_version.
  cbn [app execute_all].
  unfold conn_cursor, mbind, py_bind, mret, py_ret, bind, ret.
  repeat (match goal with
          | |- context [cursor_execute ?c ?q ?w] =>
              destruct (cursor_execute c q w) as [? ? [?|?]]; try reflexivity
          end).
  simpl. by rewrite ?app_nil_r, <- ?app_assoc.
Qed.

Lemma create_tables_spec conn w db d issued r :
  conn_db conn w = Some db ->
  exec_script (conn_foreign_keys conn) (w_now w) create_tables_statements db
    = (d, issued, r) ->
  out_trace (create_tables conn w)
    = map EvExecute issued ++ match r with None => [EvCommit] | Some _ => [] end
  /\ out_result (create_tables conn w)
     = match r with None => inr tt | Some e => inl (Sqlite3Error e) end
  /\ leaves conn w (create_tables conn w) d.
Proof.
  intros Hdb Hscript. rewrite create_tables_as_script.
  pose proof (execute_all_spec create_tables_statements eq_refl conn [] w db Hdb) as H.
  rewrite Hscript in H. unfold mbind, py_bind, bind, leaves in *.
  destruct (execute_all _ _ w) as [w1 t1 r1]. simpl in H.
  destruct H as (Ht & Hr & Hleaves). destruct r as [e|].
  - subst r1. simpl. by rewrite Ht, app_nil_r.
  - destruct Hr as [rows ->]. simpl. by rewrite Ht.
Qed.

Lemma create_tables_no_database conn w :
  conn_db conn w = None ->
  create_tables conn w =
    Outcome w [EvExecute (CreateTableIfNotExists "schema_migrations" schema_migrations_def)]
            (inl (Sqlite3Error NotADatabase)).
Proof.
  intros Hdb. unfold create_tables, conn_cursor, cursor_execute, mbind, py_bind,
    mret, py_ret, bind, ret. simpl.
  by rewrite Hdb.
Qed.

Lemma exec_script_app fk now qs1 qs2 db :
  exec_script fk now (qs1 ++ qs2) db =
    match exec_script fk now qs1 db with
    | (d1, issued1, Some e) => (d1, issued1, Some e)
    | (d1, issued1, None) =>
        let '(d2, issued2, r) := exec_script fk now qs2 d1 in
        (d2, issued1 ++ issued2, r)
    end.
Proof.
  revert db. induction qs1 as [|q qs1 IH]; intros db; simpl.
  - by destruct (exec_script fk now qs2 db) as [[? ?] ?].
  - destruct (exec_stmt fk now q db) as [e|[db' rows]]; [done|].
    rewrite IH. destruct (exec_script fk now qs1 db') as [[d1 i1] [e|]]; [done|].
    by destruct (exec_script fk now qs2 d1) as [[? ?] ?].
Qed.

Lemma exec_script_cons fk now q qs db :
  exec_script fk now (q :: qs) db =
    match exec_stmt fk now q db with
    | inl e => (db, [q], Some e)
    | inr (db', _) =>
        let '(d, issued, r) := exec_script fk now qs db' in
        (d, q :: issued, r)
    end.
Proof. reflexivity. Qed.

(** The statements issued are a prefix of the script, all of it when no
    statement failed. *)
Lemma exec_script_issued fk now qs db d issued r :
  exec_script fk now qs db = (d, issued, r) ->
  issued `prefix_of` qs /\ (r = None -> issued = qs).
Proof.
  revert db d issued r. induction qs as [|q qs IH]; intros db d issued r; simpl.
  - intros [= <- <- <-]. done.
  - destruct (exec_stmt fk now q db) as [e|[db' rows]].
    + intros [= <- <- <-]. split; [|done]. by exists qs.
    + destruct (exec_script fk now qs db') as [[d' i'] r'] eqn:Hrec.
      intros [= <- <- <-]. destruct (IH _ _ _ _ Hrec) as [Hp Hall].
      split; [by apply prefix_cons|]. intros ->. by rewrite Hall.
Qed.

(* ===================================================================== *)
(** ** What the statements do to tables *)
(* ===================================================================== *)

(** Only an INSERT changes a table that exists. *)
Lemma exec_stmt_keeps_table fk now q db db' rows n t :
  exec_stmt fk now q db = inr (db', rows) ->
  inserts_into n q = false ->
  db_tables db !! n = Some t ->
  db_tables db' !! n = Some t.
Proof.
  intros Hex Hq Hn. destruct q as [on|name def|name tbl cols|tbl cols vals|col tbl];
    simpl in Hex, Hq.
  - by injection Hex as <- _.
  - unfold exec_create_table in Hex.
    destruct (db_tables db !! name) eqn:Hname; [by injection Hex as <- _|].
    destruct (db_indices db !! name); [done|]. injection Hex as <- _. simpl.
    rewrite lookup_insert_ne; [done|]. intros ->. congruence.
  - unfold exec_create_index in Hex.
    destruct (db_tables db !! tbl); [|done].
    destruct (db_tables db !! name); [done|].
    destruct (db_indices db !! name); [by injection Hex as <- _|].
    destruct (first_error _ cols); [done|]. by injection Hex as <- _.
  - unfold exec_insert_or_ignore in Hex.
    destruct (db_tables db !! tbl); [|done].
    destruct (first_error _ cols); [done|].
    destruct (negb _); [done|].
    destruct (if fk then _ else _); [done|].
    destruct (row_conflicts _ _); [by injection Hex as <- _|].
    destruct (fk && _); [done|]. injection Hex as <- _. simpl.
    rewrite lookup_insert_ne; [done|]. intros ->.
    by rewrite String.eqb_refl in Hq.
  - unfold exec_select_max in Hex.
    destruct (db_tables db !! tbl); [|done].
    destruct (named_column _ _); [|done]. by injection Hex as <- _.
Qed.

Lemma exec_script_keeps_table fk now qs db d issued r n t :
  exec_script fk now qs db = (d, issued, r) ->
  forallb (fun q => negb (inserts_into n q)) qs = true ->
  db_tables db !! n = Some t ->
  db_tables d !! n = Some t.
Proof.
  revert db d issued r. induction qs as [|q qs IH]; intros db d issued r; simpl.
  - by intros [= <- <- <-].
  - intros Hex Hqs Hn. apply andb_true_iff in Hqs as [Hq Hqs].
    apply negb_true_iff in Hq.
    destruct (exec_stmt fk now q db) as [e|[db' rows]] eqn:Hstep.
    + by injection Hex as <- _ _.
    + destruct (exec_script fk now qs db') as [[d' i'] r'] eqn:Hrec.
      injection Hex as <- _ _.
      eapply IH; [done|done|]. by eapply exec_stmt_keeps_table.
Qed.

(** No statement changes an index that exists. *)
Lemma exec_stmt_keeps_index fk now q db db' rows i ix :
  exec_stmt fk now q db = inr (db', rows) ->
  db_indices db !! i = Some ix ->
  db_indices db' !! i = Some ix.
Proof.
  intros Hex Hi. destruct q as [on|name def|name tbl cols|tbl cols vals|col tbl];
    simpl in Hex.
  - by injection Hex as <- _.
  - unfold exec_create_table in Hex.
    destruct (db_tables db !! name); [by injection Hex as <- _|].
    destruct (db_indices db !! name); [done|]. by injection Hex as <- _.
  - unfold exec_create_index in Hex.
    destruct (db_tables db !! tbl); [|done].
    destruct (db_tables db !! name); [done|].
    destruct (db_indices db !! name) eqn:Hname; [by injection Hex as <- _|].
    destruct (first_error _ cols); [done|]. injection Hex as <- _. simpl.
    rewrite lookup_insert_ne; [done|]. intros ->. congruence.
  - unfold exec_insert_or_ignore in Hex.
    destruct (db_tables db !! tbl); [|done].
    destruct (first_error _ cols); [done|].
    destruct (negb _); [done|].
    destruct (if fk then _ else _); [done|].
    destruct (row_conflicts _ _); [by injection Hex as <- _|].
    destruct (fk && _); [done|]. by injection Hex as <- _.
  - unfold exec_select_max in Hex.
    destruct (db_tables db !! tbl); [|done].
    destruct (named_column _ _); [|done]. by injection Hex as <- _.
Qed.

Lemma exec_script_keeps_index fk now qs db d issued r i ix :
  exec_script fk now qs db = (d, issued, r) ->
  db_indices db !! i = Some ix ->
  db_indices d !! i = Some ix.
Proof.
  revert db d issued r. induction qs as [|q qs IH]; intros db d issued r; simpl.
  - by intros [= <- <- <-].
  - intros Hex Hi.
    destruct (exec_stmt fk now q db) as [e|[db' rows]] eqn:Hstep.
    + by injection Hex as <- _ _.
    + destruct (exec_script fk now qs db') as [[d' i'] r'] eqn:Hrec.
      injection Hex as <- _ _.
      eapply IH; [done|]. by eapply exec_stmt_keeps_index.
Qed.

(* ===================================================================== *)
(** ** Tables and indices are created only if absent *)
(* ===================================================================== *)

(** C7.  On a database in which users, games, moves and scores already
    exist, a successful run of [create_tables] leaves each of them as it
    was, definition and rows; every index that existed is unchanged too. *)
Theorem create_tables_keeps_existing conn w db :
  conn_db conn w = Some db ->
  has_table "users" db -> has_table "games" db ->
  has_table "moves" db -> has_table "scores" db ->
  out_result (create_tables conn w) = inr tt ->
  exists db',
    conn_db conn (out_world (create_tables conn w)) = Some db'
    /\ (forall n, n ∈ app_tables -> db_tables db' !! n = db_tables db !! n)
    /\ (forall i ix, db_indices db !! i = Some ix -> db_indices db' !! i = Some ix).
Proof.
  intros Hdb Hu Hg Hm Hs Hok.
  destruct (exec_script (conn_foreign_keys conn) (w_now w) create_tables_statements db)
    as [[d issued] r] eqn:Hscript.
  destruct (create_tables_spec _ _ _ _ _ _ Hdb Hscript) as (_ & _ & Hd & _).
  exists d. split; [done|]. split.
  - intros n Hn.
    assert (forall t, db_tables db !! n = Some t -> db_tables d !! n = Some t) as Hkeep.
    { intros t Ht. eapply exec_script_keeps_table; [exact Hscript| |exact Ht].
      unfold app_tables in Hn.
      repeat (apply elem_of_cons in Hn as [->|Hn]; [reflexivity|]).
      by apply elem_of_nil in Hn. }
    unfold app_tables in Hn.
    repeat (apply elem_of_cons in Hn as [->|Hn];
            [match goal with
             | H : has_table ?n db |- context [db_tables db !! ?n] =>
                 destruct H as [t Ht]; rewrite Ht; by apply Hkeep
             end|]).
    by apply elem_of_nil in Hn.
  - intros i ix Hi. by eapply exec_script_keeps_index.
Qed.

(* ===================================================================== *)
(** ** Re-running the DDL *)
(* ===================================================================== *)

Lemma exec_stmt_table_exists fk now q db db' rows n :
  exec_stmt fk now q db = inr (db', rows) ->
  is_Some (db_tables db !! n) ->
  is_Some (db_tables db' !! n).
Proof.
  intros Hex [t Ht].
  destruct (inserts_into n q) eqn:Hq.
  - destruct q as [| | |tbl cols vals|]; try discriminate. simpl in Hq, Hex.
    apply String.eqb_eq in Hq as ->. unfold exec_insert_or_ignore in Hex.
    rewrite Ht in Hex.
    destruct (first_error _ cols); [done|].
    destruct (negb _); [done|].
    destruct (if fk then _ else _); [done|].
    destruct (row_conflicts _ _); [injection Hex as <- _; by exists t|].
    destruct (fk && _); [done|]. injection Hex as <- _. simpl.
    rewrite lookup_insert_eq. by eexists.
  - exists t. by eapply exec_stmt_keeps_table.
Qed.

Lemma exec_stmt_table_absent fk now q db db' rows n :
  exec_stmt fk now q db = inr (db', rows) ->
  creates_table n q = false ->
  db_tables db !! n = None ->
  db_tables db' !! n = None.
Proof.
  intros Hex Hq Hn. destruct q as [on|name def|name tbl cols|tbl cols vals|col tbl];
    simpl in Hex, Hq.
  - by injection Hex as <- _.
  - unfold exec_create_table in Hex.
    destruct (db_tables db !! name); [by injection Hex as <- _|].
    destruct (db_indices db !! name); [done|]. injection Hex as <- _. simpl.
    rewrite lookup_insert_ne; [done|]. intros ->.
    by rewrite String.eqb_refl in Hq.
  - unfold exec_create_index in Hex.
    destruct (db_tables db !! tbl); [|done].
    destruct (db_tables db !! name); [done|].
    destruct (db_indices db !! name); [by injection Hex as <- _|].
    destruct (first_error _ cols); [done|]. by injection Hex as <- _.
  - unfold exec_insert_or_ignore in Hex.
    destruct (db_tables db !! tbl) eqn:Htbl; [|done].
    destruct (first_error _ cols); [done|].
    destruct (negb _); [done|].
    destruct (if fk then _ else _); [done|].
    destruct (row_conflicts _ _); [by injection Hex as <- _|].
    destruct (fk && _); [done|]. injection Hex as <- _. simpl.
    rewrite lookup_insert_ne; [done|]. intros ->. congruence.
  - unfold exec_select_max in Hex.
    destruct (db_tables db !! tbl); [|done].
    destruct (named_column _ _); [|done]. by injection Hex as <- _.
Qed.

(** A DDL statement that went through leaves nothing for a second run. *)
Lemma exec_stmt_settles fk now q db db' rows :
  is_ddl q = true ->
  exec_stmt fk now q db = inr (db', rows) ->
  settled q db'.
Proof.
  intros Hq Hex. destruct q as [on|name def|name tbl cols|tbl cols vals|col tbl];
    try discriminate; simpl in *.
  - unfold exec_create_table in Hex.
    destruct (db_tables db !! name) eqn:Hname; [injection Hex as <- _; by eexists|].
    destruct (db_indices db !! name); [done|]. injection Hex as <- _. simpl.
    rewrite lookup_insert_eq. by eexists.
  - unfold exec_create_index in Hex.
    destruct (db_tables db !! tbl) eqn:Htbl; [|done].
    destruct (db_tables db !! name) eqn:Hname; [done|].
    destruct (db_indices db !! name) eqn:Hix.
    + injection Hex as <- _. rewrite Htbl, Hname, Hix. by repeat split; eexists.
    + destruct (first_error _ cols); [done|]. injection Hex as <- _. simpl.
      rewrite Htbl, Hname, lookup_insert_eq. by repeat split; eexists.
Qed.

Lemma settled_noop fk now q db :
  is_ddl q = true ->
  settled q db ->
  exec_stmt fk now q db = inr (db, []).
Proof.
  intros Hq Hs. destruct q as [on|name def|name tbl cols|tbl cols vals|col tbl];
    try discriminate; simpl in *.
  - unfold exec_create_table. by destruct Hs as [t ->].
  - unfold exec_create_index. destruct Hs as ([t ->] & -> & [ix ->]). done.
Qed.

Lemma settled_stable fk now q q' db db' rows :
  settled q db ->
  exec_stmt fk now q' db = inr (db', rows) ->
  clashes q q' = false ->
  settled q db'.
Proof.
  intros Hs Hex Hc. destruct q as [on|name def|name tbl cols|tbl cols vals|col tbl];
    simpl in *; try done.
  - by eapply exec_stmt_table_exists.
  - destruct Hs as (Ht & Hn & [ix Hix]). split; [|split].
    + by eapply exec_stmt_table_exists.
    + by eapply exec_stmt_table_absent.
    + exists ix. by eapply exec_stmt_keeps_index.
Qed.

Lemma exec_script_settled_stable fk now q qs db d issued r :
  settled q db ->
  exec_script fk now qs db = (d, issued, r) ->
  forallb (fun q' => negb (clashes q q')) qs = true ->
  settled q d.
Proof.
  revert db d issued r. induction qs as [|q' qs IH]; intros db d issued r Hs; simpl.
  - by intros [= <- <- <-].
  - intros Hex Hqs. apply andb_true_iff in Hqs as [Hq Hqs].
    apply negb_true_iff in Hq.
    destruct (exec_stmt fk now q' db) as [e|[db' rows]] eqn:Hstep.
    + by injection Hex as <- _ _.
    + destruct (exec_script fk now qs db') as [[d' i'] r'] eqn:Hrec.
      injection Hex as <- _ _.
      eapply IH; [|done|done]. by eapply settled_stable.
Qed.

Lemma exec_script_settles fk now qs db d issued :
  forallb is_ddl qs = true ->
  compatible qs = true ->
  exec_script fk now qs db = (d, issued, None) ->
  Forall (fun q => settled q d) qs.
Proof.
  revert db d issued. induction qs as [|q qs IH]; intros db d issued; simpl.
  - constructor.
  - intros Hddl Hcomp Hex.
    apply andb_true_iff in Hddl as [Hq Hddl].
    apply andb_true_iff in Hcomp as [Hc Hcomp].
    destruct (exec_stmt fk now q db) as [e|[db' rows]] eqn:Hstep; [done|].
    destruct (exec_script fk now qs db') as [[d' i'] r'] eqn:Hrec.
    injection Hex as <- _ ->. constructor.
    + eapply exec_script_settled_stable; [|exact Hrec|exact Hc].
      by eapply exec_stmt_settles.
    + by eapply IH.
Qed.

Lemma exec_script_noop fk now qs d :
  forallb is_ddl qs = true ->
  Forall (fun q => settled q d) qs ->
  exec_script fk now qs d = (d, qs, None).
Proof.
  induction qs as [|q qs IH]; simpl; [done|].
  intros Hddl Hs. apply andb_true_iff in Hddl as [Hq Hddl].
  inversion Hs as [|? ? Hq' Hs']; subst.
  rewrite (settled_noop _ _ _ _ Hq Hq').
  by rewrite (IH Hddl Hs').
Qed.

(* ===================================================================== *)
(** ** The ledger across a run *)
(* ===================================================================== *)

Lemma recorded_versions_script db t :
  ledger db = Some t ->
  t_def t = schema_migrations_def ->
  recorded_versions db = column_values 0 (t_rows t).
Proof.
  intros Hl Hdef. unfold recorded_versions, named_column. by rewrite Hl, Hdef.
Qed.

(** The DDL creates the ledger when it is missing and otherwise leaves it
    alone. *)
Lemma ddl_ledger fk now db d issued r :
  exec_script fk now ddl_statements db = (d, issued, r) ->
  (ledger d = ledger db
   \/ (ledger db = None /\ ledger d = Some (Table schema_migrations_def [])))
  /\ (r = None -> is_Some (ledger d)).
Proof.
  unfold ddl_statements. rewrite exec_script_cons. cbn [exec_stmt].
  unfold exec_create_table. fold (ledger db).
  destruct (ledger db) as [t|] eqn:Hl.
  - destruct (exec_script fk now _ db) as [[d' i'] r'] eqn:Hrest.
    intros [= <- _ _].
    assert (ledger d' = Some t) as ->; [|by eauto].
    by eapply exec_script_keeps_table.
  - destruct (db_indices db !! "schema_migrations").
    + intros [= <- _ <-]. split; [by left|done].
    + destruct (exec_script fk now _ _) as [[d' i'] r'] eqn:Hrest.
      intros [= <- _ _].
      assert (ledger d' = Some (Table schema_migrations_def [])) as ->; [|by eauto].
      eapply exec_script_keeps_table; [exact Hrest|done|]. simpl.
      by rewrite lookup_insert_eq.
Qed.

(** Recording the version in a ledger of the script's own definition:
    skipped when version 1 is there, one row appended otherwise.  The
    statement cannot fail. *)
Lemma record_version_script_ledger fk now db t :
  ledger db = Some t ->
  t_def t = schema_migrations_def ->
  exec_stmt fk now record_version db =
    inr (if bool_decide (VInt 1 ∈ column_values 0 (t_rows t)) then db
         else Database
                (<["schema_migrations" :=
                     Table schema_migrations_def (t_rows t ++ [[VInt 1; VText now]])]>
                   (db_tables db))
                (db_indices db),
         []).
Proof.
  intros Hl Hdef. destruct t as [def rows]. simpl in Hdef. subst def.
  unfold ledger in Hl. simpl. unfold exec_insert_or_ignore. rewrite Hl.
  cbn -[bool_decide]. rewrite !orb_false_r.
  destruct fk; cbn -[bool_decide]; by destruct (bool_decide _).
Qed.

Lemma create_tables_ledger fk now db d issued r :
  script_ledger db ->
  exec_script fk now create_tables_statements db = (d, issued, r) ->
  script_ledger d
  /\ (ledger_rows d = ledger_rows db
      \/ (r = None /\ (VInt SCHEMA_VERSION ∉ recorded_versions db)
          /\ ledger_rows d = ledger_rows db ++ [[VInt SCHEMA_VERSION; VText now]]))
  /\ (r = None -> VInt SCHEMA_VERSION ∈ recorded_versions d).
Proof.
  intros Hsl. unfold create_tables_statements. rewrite exec_script_app.
  destruct (exec_script fk now ddl_statements db) as [[d1 i1] r1] eqn:Hddl.
  destruct (ddl_ledger _ _ _ _ _ _ Hddl) as [Hl Hsome].
  assert (script_ledger d1 /\ ledger_rows d1 = ledger_rows db
          /\ recorded_versions d1 = recorded_versions db) as (Hsl1 & Hrows1 & Hrec1).
  { unfold script_ledger, ledger_rows, recorded_versions in *.
    destruct Hl as [Heq|[Hnone Heq]]; rewrite Heq.
    - by repeat split.
    - rewrite Hnone. by repeat split. }
  destruct r1 as [e|].
  - intros [= <- _ <-]. split; [done|]. split; [by left|done].
  - destruct (Hsome eq_refl) as [t Ht].
    assert (t_def t = schema_migrations_def) as Hdef.
    { unfold script_ledger in Hsl1. by rewrite Ht in Hsl1. }
    cbn [exec_script]. rewrite (record_version_script_ledger _ _ _ _ Ht Hdef).
    rewrite <- Hrows1, <- Hrec1.
    rewrite (recorded_versions_script _ _ Ht Hdef).
    unfold ledger_rows at 2 4. rewrite Ht.
    case_bool_decide as Hin.
    + intros [= <- _ <-]. split; [done|].
      split; [left; unfold ledger_rows; by rewrite Ht|].
      intros _. by rewrite (recorded_versions_script _ _ Ht Hdef).
    + intros [= <- _ <-].
      unfold script_ledger, ledger_rows, recorded_versions, ledger, named_column.
      simpl. rewrite lookup_insert_eq. simpl.
      split; [done|]. split; [by right|].
      intros _. unfold column_values. rewrite map_app. simpl.
      apply elem_of_app. right. apply elem_of_cons. by left.
Qed.

Lemma recorded_rows db :
  script_ledger db ->
  recorded_versions db = column_values 0 (ledger_rows db).
Proof.
  unfold script_ledger, recorded_versions, ledger_rows, named_column.
  destruct (ledger db) as [t|]; [|done]. by intros ->.
Qed.

(** One run of [create_tables] on a ledger of the script's own making,
    at the level of worlds. *)
Lemma create_tables_run conn w db t :
  conn_db conn w = Some db ->
  script_ledger db ->
  let o := create_tables conn (at_time t w) in
  exists d,
    conn_db conn (out_world o) = Some d
    /\ script_ledger d
    /\ (ledger_rows d = ledger_rows db
        \/ (out_result o = inr tt
            /\ (VInt SCHEMA_VERSION ∉ recorded_versions db)
            /\ ledger_rows d = ledger_rows db ++ [[VInt SCHEMA_VERSION; VText t]]))
    /\ (out_result o = inr tt -> VInt SCHEMA_VERSION ∈ recorded_versions d).
Proof.
  intros Hdb Hsl o.
  destruct (exec_script (conn_foreign_keys conn) t create_tables_statements db)
    as [[d issued] r] eqn:Hscript.
  assert (conn_db conn (at_time t w) = Some db) as Hdb' by done.
  destruct (create_tables_spec _ _ _ _ _ _ Hdb' Hscript) as (_ & Hres & Hd & _).
  destruct (create_tables_ledger _ _ _ _ _ _ Hsl Hscript) as (Hsl' & Hrows & Hrec).
  exists d. split; [done|]. split; [done|]. subst o. rewrite Hres. split.
  - destruct Hrows as [?|(-> & ? & ?)]; [by left|by right].
  - destruct r; [done|]. intros _. by apply Hrec.
Qed.

Lemma rerun fk now now' db d issued :
  script_ledger db ->
  exec_script fk now create_tables_statements db = (d, issued, None) ->
  exec_script fk now' create_tables_statements d = (d, create_tables_statements, None).
Proof.
  intros Hsl Hrun.
  destruct (create_tables_ledger _ _ _ _ _ _ Hsl Hrun) as (Hsl' & _ & Hrec).
  specialize (Hrec eq_refl).
  unfold create_tables_statements in Hrun. rewrite exec_script_app in Hrun.
  destruct (exec_script fk now ddl_statements db) as [[d1 i1] [e|]] eqn:Hddl; [done|].
  pose proof (exec_script_settles fk now ddl_statements db d1 i1 eq_refl eq_refl Hddl)
    as Hsettled.
  cbn [exec_script] in Hrun.
  destruct (exec_stmt fk now record_version d1) as [e|[d2 rows]] eqn:Hins; [done|].
  injection Hrun as <- _.
  assert (Forall (fun q => settled q d2) ddl_statements) as Hsettled2.
  { eapply Forall_impl; [exact Hsettled|]. intros q Hq.
    eapply settled_stable; [exact Hq|exact Hins|]. by destruct q. }
  unfold create_tables_statements. rewrite exec_script_app.
  rewrite (exec_script_noop fk now' ddl_statements d2 eq_refl Hsettled2).
  cbn [exec_script].
  unfold script_ledger in Hsl'. destruct (ledger d2) as [t|] eqn:Ht.
  - rewrite (record_version_script_ledger _ _ _ _ Ht Hsl').
    rewrite (recorded_versions_script _ _ Ht Hsl') in Hrec.
    by rewrite bool_decide_eq_true_2.
  - unfold recorded_versions in Hrec. rewrite Ht in Hrec. by apply elem_of_nil in Hrec.
Qed.

(* ===================================================================== *)
(** ** The schema version is recorded *)
(* ===================================================================== *)

(** C4, as the code has it.  When the ledger is absent or is the table
    this script defines, every successful run of [create_tables] leaves a
    row whose version is SCHEMA_VERSION in it. *)
Theorem create_tables_records_version conn w db :
  conn_db conn w = Some db ->
  script_ledger db ->
  out_result (create_tables conn w) = inr tt ->
  exists db',
    conn_db conn (out_world (create_tables conn w)) = Some db'
    /\ VInt SCHEMA_VERSION ∈ recorded_versions db'.
Proof.
  intros Hdb Hsl Hok.
  destruct (create_tables_run conn w db (w_now w) Hdb Hsl) as (d & Hd & _ & _ & Hrec).
  assert (at_time (w_now w) w = w) as Hw by by destruct w.
  rewrite Hw in *. exists d. split; [done|]. by apply Hrec.
Qed.

(** C4 fails as stated: on a ledger whose [dirty] column is NOT NULL
    without a default, OR IGNORE skips the row; the run succeeds and the
    ledger stays empty. *)
Lemma create_tables_may_record_nothing :
  out_result (create_tables main_conn (world_of dirty_ledger_db)) = inr tt
  /\ recorded_versions
       <$> conn_db main_conn
             (out_world (create_tables main_conn (world_of dirty_ledger_db)))
     = Some [].
Proof. split; vm_compute; reflexivity. Qed.

(* ===================================================================== *)
(** ** Applying the DDL twice *)
(* ===================================================================== *)

(** C3, as the code has it.  When the ledger is absent or is the table
    this script defines and [create_tables] succeeds, a second run right
    after it, at whatever time, succeeds as well and leaves the database
    exactly as the first run left it; no other file changes. *)
Theorem create_tables_idempotent conn w db now' :
  conn_db conn w = Some db ->
  script_ledger db ->
  out_result (create_tables conn w) = inr tt ->
  let w1 := at_time now' (out_world (create_tables conn w)) in
  out_result (create_tables conn w1) = inr tt
  /\ conn_db conn (out_world (create_tables conn w1)) = conn_db conn w1
  /\ forall p, p <> conn_path conn ->
       w_fs (out_world (create_tables conn w1)) !! p = w_fs w1 !! p.
Proof.
  intros Hdb Hsl Hok w1.
  destruct (exec_script (conn_foreign_keys conn) (w_now w) create_tables_statements db)
    as [[d issued] r] eqn:Hscript.
  destruct (create_tables_spec _ _ _ _ _ _ Hdb Hscript) as (_ & Hres & Hd & _).
  rewrite Hok in Hres. destruct r as [e|]; [done|].
  assert (conn_db conn w1 = Some d) as Hdb1 by done.
  pose proof (rerun _ _ now' _ _ _ Hsl Hscript) as Hrerun.
  destruct (create_tables_spec _ _ _ _ _ _ Hdb1 Hrerun) as (_ & Hres1 & Hd1 & _ & Hframe).
  split; [done|]. split; [by rewrite Hd1, Hdb1|done].
Qed.

(** C3 fails as stated: on a ledger in which [version] is not a key the
    first run succeeds and inserts a row, and the second run succeeds and
    inserts another. *)
Lemma create_tables_may_insert_twice :
  let w1 := out_world (create_tables main_conn (world_of keyless_ledger_db)) in
  out_result (create_tables main_conn (world_of keyless_ledger_db)) = inr tt
  /\ out_result (create_tables main_conn w1) = inr tt
  /\ recorded_versions <$> conn_db main_conn w1 = Some [VInt 1]
  /\ recorded_versions <$> conn_db main_conn (out_world (create_tables main_conn w1))
     = Some [VInt 1; VInt 1]
  /\ conn_db main_conn (out_world (create_tables main_conn w1))
     <> conn_db main_conn w1.
Proof.
  repeat split; try (vm_compute; reflexivity).
  intros H. apply (f_equal (fmap recorded_versions)) in H.
  vm_compute in H. discriminate.
Qed.

(* ===================================================================== *)
(** ** The ledger has no duplicates *)
(* ===================================================================== *)

Lemma runs_app conn ts1 ts2 w :
  runs conn (ts1 ++ ts2) w = runs conn ts2 (runs conn ts1 w).
Proof. revert w. induction ts1 as [|t ts1 IH]; intros w; simpl; [done|apply IH]. Qed.

(** Any number of runs keeps the ledger the script's own and free of
    duplicate versions. *)
Lemma runs_keep_ledger conn times :
  forall w db,
    conn_db conn w = Some db ->
    script_ledger db ->
    NoDup (recorded_versions db) ->
    exists d,
      conn_db conn (runs conn times w) = Some d
      /\ script_ledger d
      /\ NoDup (recorded_versions d).
Proof.
  induction times as [|t ts IH]; intros w db Hdb Hsl Hnd; simpl.
  - by exists db.
  - destruct (create_tables_run conn w db t Hdb Hsl) as (d & Hd & Hsl' & Hrows & _).
    apply (IH _ d Hd Hsl').
    rewrite (recorded_rows _ Hsl'). rewrite (recorded_rows _ Hsl) in Hnd.
    destruct Hrows as [->|(_ & Hnew & ->)]; [done|].
    rewrite (recorded_rows _ Hsl) in Hnew.
    unfold column_values in *. rewrite map_app. simpl.
    apply NoDup_app. split; [done|]. split.
    + intros v Hv Hv'. apply elem_of_cons in Hv' as [->|Hv']; [done|].
      by apply elem_of_nil in Hv'.
    + apply NoDup_singleton.
Qed.

(** Once the version is recorded, runs leave the ledger's rows alone. *)
Lemma runs_add_nothing conn times :
  forall w db,
    conn_db conn w = Some db ->
    script_ledger db ->
    VInt SCHEMA_VERSION ∈ recorded_versions db ->
    exists d,
      conn_db conn (runs conn times w) = Some d
      /\ ledger_rows d = ledger_rows db.
Proof.
  induction times as [|t ts IH]; intros w db Hdb Hsl Hrec; simpl.
  - by exists db.
  - destruct (create_tables_run conn w db t Hdb Hsl) as (d & Hd & Hsl' & Hrows & _).
    destruct Hrows as [Hrows|(_ & Hnew & _)]; [|done].
    destruct (IH _ d Hd Hsl') as (d' & Hd' & Hrows').
    + by rewrite (recorded_rows _ Hsl'), Hrows, <- (recorded_rows _ Hsl).
    + exists d'. split; [done|]. by rewrite Hrows'.
Qed.

(** C10.  With [version] the primary key of the ledger (the ledger is
    absent or the script's own, and holds no duplicate to begin with):
    after any number of runs of [create_tables] the ledger has at most one
    row per version; a run adds at most the row for SCHEMA_VERSION, and
    only when that version is not recorded yet; and after a successful
    run, further runs, however many, leave the ledger's rows as they
    are. *)
Theorem ledger_never_duplicates conn w db :
  conn_db conn w = Some db ->
  script_ledger db ->
  NoDup (recorded_versions db) ->
  (forall times, exists d,
      conn_db conn (runs conn times w) = Some d
      /\ script_ledger d
      /\ NoDup (recorded_versions d))
  /\ (forall t, exists d,
        conn_db conn (runs conn [t] w) = Some d
        /\ (ledger_rows d = ledger_rows db
            \/ ((VInt SCHEMA_VERSION ∉ recorded_versions db)
                /\ ledger_rows d = ledger_rows db ++ [[VInt SCHEMA_VERSION; VText t]])))
  /\ (forall t times,
        out_result (create_tables conn (at_time t w)) = inr tt ->
        exists d1 d2,
          conn_db conn (runs conn [t] w) = Some d1
          /\ conn_db conn (runs conn (t :: times) w) = Some d2
          /\ VInt SCHEMA_VERSION ∈ recorded_versions d1
          /\ ledger_rows d2 = ledger_rows d1).
Proof.
  intros Hdb Hsl Hnd. split; [|split].
  - intros times. by eapply runs_keep_ledger.
  - intros t. simpl.
    destruct (create_tables_run conn w db t Hdb Hsl) as (d & Hd & _ & Hrows & _).
    exists d. split; [done|]. destruct Hrows as [?|(_ & ? & ?)]; [by left|by right].
  - intros t times Hok.
    destruct (create_tables_run conn w db t Hdb Hsl) as (d1 & Hd1 & Hsl1 & _ & Hrec).
    specialize (Hrec Hok).
    destruct (runs_add_nothing conn times _ d1 Hd1 Hsl1 Hrec) as (d2 & Hd2 & Hrows).
    exists d1, d2. by repeat split.
Qed.

(* ===================================================================== *)
(** ** The ledger check *)
(* ===================================================================== *)

Lemma is_schema_up_to_date_spec conn w :
  let o := is_schema_up_to_date conn w in
  out_trace o = [EvExecute check_ledger]
  /\ out_result o =
       match conn_db conn w with
       | None => inl (Sqlite3Error NotADatabase)
       | Some db =>
           match ledger db with
           | None => inl (Sqlite3Error (NoSuchTable "schema_migrations"))
           | Some t =>
               match named_column "version" t with
               | None => inl (Sqlite3Error (NoSuchColumn "version"))
               | Some vs => inr (PyBool (eq_int (sql_max vs) SCHEMA_VERSION))
               end
           end
       end
  /\ conn_db conn (out_world o) = conn_db conn w
  /\ w_now (out_world o) = w_now w
  /\ forall p, p <> conn_path conn -> w_fs (out_world o) !! p = w_fs w !! p.
Proof.
  cbv zeta.
  unfold is_schema_up_to_date, conn_cursor, cursor_execute, cursor_fetchone,
    mbind, py_bind, mret, py_ret, bind, ret, check_ledger. cbn [cur_conn].
  destruct (conn_db conn w) as [db|] eqn:Hdb.
  - rewrite (run_stmt_database conn (SelectMax "version" "schema_migrations") w db
               eq_refl Hdb).
    cbn [exec_stmt]. unfold exec_select_max. fold (ledger db).
    destruct (ledger db) as [t|]; [|by simpl].
    destruct (named_column "version" t) as [vs|]; [|by simpl].
    simpl. split; [done|]. split; [done|]. split; [apply conn_db_written|].
    split; [done|]. intros p Hp. by rewrite lookup_insert_ne.
  - rewrite (run_stmt_no_database conn (SelectMax "version" "schema_migrations") w
               eq_refl Hdb). by simpl.
Qed.

Lemma pow2_even k : exists m, (0 < m)%Z /\ Z.pos (2 ^ k) = (2 * m)%Z.
Proof.
  induction k as [|k [m [Hm Hk]]] using Pos.peano_ind.
  - by exists 1%Z.
  - exists (Z.pos (2 ^ k)). rewrite Pos.pow_succ_r. lia.
Qed.

(** Comparisons of numbers, brought down to integer arithmetic: the
    denominator of a real is positive and even. *)
Ltac numbers :=
  repeat match goal with
         | k : positive |- _ =>
             lazymatch goal with
             | _ : Z.pos (2 ^ k) = _ |- _ => fail
             | _ => destruct (pow2_even k) as (? & ? & ?)
             end
         end;
  unfold max_step, value_lt, value_compare, Qcompare, real, inject_Z;
  cbn [Qnum Qden];
  repeat first
    [ match goal with
      | H : Z.pos (2 ^ ?k) = _ |- context [Z.pos (2 ^ ?k)] => rewrite !H
      end
    | match goal with
      | |- context [(?a ?= ?b)%Z] => destruct (Z.compare_spec a b)
      end ].

Lemma max_step_bounded n acc v :
  value_lt (VInt n) (max_step acc v) = false
  <-> value_lt (VInt n) acc = false /\ value_lt (VInt n) v = false.
Proof.
  destruct acc as [|a|a k|s], v as [|b|b l|s']; numbers.
  all: try tauto.
  all: try (destruct (String.compare s s'); simpl; tauto).
  all: try (split; [discriminate|intros [? ?]; discriminate]).
  all: try (exfalso; nia).
Qed.

Lemma max_step_attains n acc v :
  value_lt (VInt n) acc = false ->
  value_lt (VInt n) v = false ->
  max_step acc v = VInt n <-> acc = VInt n \/ v = VInt n.
Proof.
  destruct acc as [|a|a k|s], v as [|b|b l|s']; numbers.
  all: try discriminate.
  all: intros _ _.
  all: try (destruct (String.compare s s')).
  all: split; [intros [=]|intros [[=]|[=]]]; subst; auto; try lia.
  all: try (f_equal; lia).
Qed.

Lemma fold_max_is n vs :
  forall acc,
    fold_left max_step vs acc = VInt n
    <-> (acc = VInt n \/ VInt n ∈ vs)
        /\ value_lt (VInt n) acc = false
        /\ forall v, v ∈ vs -> value_lt (VInt n) v = false.
Proof.
  induction vs as [|v vs IH]; intros acc; simpl.
  - split.
    + intros ->. split; [by left|]. split; [|by intros v Hv; apply elem_of_nil in Hv].
      unfold value_lt. simpl. by rewrite Z.compare_refl.
    + intros ([->|Hin] & _); [done|by apply elem_of_nil in Hin].
  - rewrite IH. rewrite max_step_bounded. split.
    + intros (Hex & (Hacc & Hv) & Hall).
      split; [|split; [done|]].
      * destruct Hex as [Hex|Hex]; [|right; by apply list_elem_of_further].
        apply max_step_attains in Hex as [->| ->]; [by left| |done|done].
        right. apply list_elem_of_here.
      * intros v' Hv'. apply elem_of_cons in Hv' as [->|Hv']; [done|by apply Hall].
    + intros (Hex & Hacc & Hall).
      assert (value_lt (VInt n) v = false) as Hv by (apply Hall, list_elem_of_here).
      split; [|split; [done|]].
      * destruct Hex as [->|Hex].
        -- left. apply max_step_attains; auto.
        -- apply elem_of_cons in Hex as [<-|Hex]; [|by right].
           left. apply max_step_attains; auto.
      * intros v' Hv'. apply Hall. by apply list_elem_of_further.
Qed.

(** MAX is [n] exactly when [n] is recorded and nothing larger is. *)
Lemma sql_max_is n vs : sql_max vs = VInt n <-> is_maximum (VInt n) vs.
Proof.
  unfold sql_max, is_maximum. rewrite fold_max_is. split.
  - intros ([[=]|Hin] & _ & Hall). done.
  - intros (Hin & Hall). split; [by right|]. by split.
Qed.

Lemma eq_int_true v n : eq_int v n = true <-> v = VInt n.
Proof.
  destruct v as [|z|a k|s]; simpl; split; try discriminate.
  - intros ->%Z.eqb_eq. done.
  - intros [= ->]. apply Z.eqb_refl.
Qed.

(* ===================================================================== *)
(** ** The control flow of [initialize_db] *)
(* ===================================================================== *)

Lemma initialize_db_tail cwd :
  initialize_db cwd =
    (print "Checking for existing SQLite database ...";;
     db_exists ← os_path_exists DB_NAME;
     conn ← get_conn;
     (if negb db_exists
      then print ("Database will be created at " +:+ DB_PATH cwd)
      else print ("Database found at " +:+ DB_PATH cwd));;
     up_to_date ← is_schema_up_to_date conn;
     (if negb (truthy up_to_date)
      then print "Applying database schema ...";;
           create_tables conn;;
           print "Schema created or updated successfully."
      else print "Schema already up-to-date.");;
     write_metadata cwd).
Proof. reflexivity. Qed.

Lemma get_conn_spec w :
  get_conn w =
    match w_fs w !! DB_NAME with
    | Some Dir => Outcome w [EvConnect DB_NAME] (inl (Sqlite3Error UnableToOpen))
    | _ =>
        Outcome (connected w) [EvConnect DB_NAME; EvExecute (PragmaForeignKeys true)]
                (inr main_conn)
    end.
Proof.
  unfold get_conn, sqlite3_connect, conn_execute, connected, fmap, py_fmap,
    mbind, py_bind, mret, py_ret, bind, ret.
  by destruct (w_fs w !! DB_NAME) as [[| |]|].
Qed.

Lemma initialize_db_unfold cwd w :
  initialize_db cwd w =
    match w_fs w !! DB_NAME with
    | Some Dir =>
        Outcome w [EvPrint "Checking for existing SQLite database ..."; EvConnect DB_NAME]
                (inl (Sqlite3Error UnableToOpen))
    | _ =>
        match is_schema_up_to_date main_conn (connected w) with
        | Outcome w2 t2 (inl e) => Outcome w2 (opening cwd w ++ t2) (inl e)
        | Outcome w2 t2 (inr up) =>
            if truthy up then
              match write_metadata cwd w2 with
              | Outcome w4 t4 r =>
                  Outcome w4
                    (opening cwd w ++ t2
                     ++ [EvPrint "Schema already up-to-date."] ++ t4) r
              end
            else
              match create_tables main_conn w2 with
              | Outcome w3 t3 (inl e) =>
                  Outcome w3
                    (opening cwd w ++ t2
                     ++ [EvPrint "Applying database schema ..."] ++ t3) (inl e)
              | Outcome w3 t3 (inr _) =>
                  match write_metadata cwd w3 with
                  | Outcome w4 t4 r =>
                      Outcome w4
                        (opening cwd w ++ t2
                         ++ [EvPrint "Applying database schema ..."] ++ t3
                         ++ [EvPrint "Schema created or updated successfully."] ++ t4) r
                  end
              end
        end
    end.
Proof.
  rewrite initialize_db_tail.
  unfold mbind, py_bind, bind, print, os_path_exists, opening.
  rewrite get_conn_spec.
  destruct (w_fs w !! DB_NAME) as [n|] eqn:Hn.
  - destruct n; [done| |].
    all: rewrite bool_decide_eq_true_2 by by eexists.
    all: cbn [negb out_world app].
    all: destruct (is_schema_up_to_date main_conn (connected w)) as [w2 t2 [e|up]];
      [done|].
    all: destruct (truthy up); cbn [negb].
    all: try (destruct (write_metadata cwd w2) as [w4 t4 r]; simpl;
              by rewrite <- ?app_assoc).
    all: destruct (create_tables main_conn w2) as [w3 t3 [e|[]]];
      [simpl; by rewrite <- ?app_assoc|].
    all: destruct (write_metadata cwd w3) as [w4 t4 r]; simpl.
    all: by rewrite <- ?app_assoc.
  - rewrite bool_decide_eq_false_2 by (intros [? ?]; done).
    cbn [negb out_world app].
    destruct (is_schema_up_to_date main_conn (connected w)) as [w2 t2 [e|up]];
      [done|].
    destruct (truthy up); cbn [negb].
    + destruct (write_metadata cwd w2) as [w4 t4 r]; simpl. by rewrite <- ?app_assoc.
    + destruct (create_tables main_conn w2) as [w3 t3 [e|[]]];
        [simpl; by rewrite <- ?app_assoc|].
      destruct (write_metadata cwd w3) as [w4 t4 r]; simpl.
      by rewrite <- ?app_assoc.
Qed.

(* ===================================================================== *)
(** ** The metadata files *)
(* ===================================================================== *)

Lemma append_assoc (a b c : string) : (a +:+ b) +:+ c = a +:+ (b +:+ c).
Proof.
  induction a as [|x a IH]; [done|].
  change (String x ((a +:+ b) +:+ c) = String x (a +:+ (b +:+ c))). by f_equal.
Qed.

Lemma file_write_inserted f s old fs w :
  file_write f s (set_fs (<[f := TextFile old]> fs) w) =
    Outcome (set_fs (<[f := TextFile (old +:+ s)]> fs) w) [EvWrite f s] (inr tt).
Proof.
  unfold file_write, set_fs. cbn [w_fs w_now].
  by rewrite lookup_insert_eq, insert_insert_eq.
Qed.

Lemma connection_info_written cwd :
  (((EmptyString +:+ "# SQLite connection methods:" +:+ newline)
    +:+ "# Python: sqlite3.connect('" +:+ DB_NAME +:+ "')" +:+ newline)
   +:+ "# Connection string: sqlite:///" +:+ DB_PATH cwd +:+ newline)
  +:+ "# File path: " +:+ DB_PATH cwd +:+ newline
  = connection_info cwd.
Proof. unfold connection_info. rewrite !append_assoc. reflexivity. Qed.

(** The block that writes db_connection.txt. *)
Lemma write_connection_info cwd w :
  with_open_w "db_connection.txt" (fun f =>
    file_write f ("# SQLite connection methods:" +:+ newline);;
    file_write f ("# Python: sqlite3.connect('" +:+ DB_NAME +:+ "')" +:+ newline);;
    file_write f ("# Connection string: sqlite:///" +:+ DB_PATH cwd +:+ newline);;
    file_write f ("# File path: " +:+ DB_PATH cwd +:+ newline)) w
  = match w_fs w !! "db_connection.txt" with
    | Some Dir =>
        Outcome w [EvOpen "db_connection.txt"]
                (inl (IsADirectoryError "db_connection.txt"))
    | _ =>
        Outcome (set_fs (<["db_connection.txt" := TextFile (connection_info cwd)]>
                           (w_fs w)) w)
                [ EvOpen "db_connection.txt";
                  EvWrite "db_connection.txt" ("# SQLite connection methods:" +:+ newline);
                  EvWrite "db_connection.txt"
                          ("# Python: sqlite3.connect('myapp.db')" +:+ newline);
                  EvWrite "db_connection.txt"
                          ("# Connection string: sqlite:///" +:+ DB_PATH cwd +:+ newline);
                  EvWrite "db_connection.txt" ("# File path: " +:+ DB_PATH cwd +:+ newline);
                  EvClose "db_connection.txt" ]
                (inr tt)
    end.
Proof.
  unfold with_open_w, open_w, mbind, py_bind, bind.
  change (dirname "db_connection.txt") with EmptyString.
  destruct (w_fs w !! "db_connection.txt") as [[| |]|]; [done| | |].
  all: cbv beta iota zeta; rewrite file_write_inserted.
  all: cbv beta iota; rewrite file_write_inserted.
  all: cbv beta iota; rewrite file_write_inserted.
  all: cbv beta iota; rewrite file_write_inserted.
  all: unfold file_close; cbv beta iota.
  all: by rewrite connection_info_written.
Qed.

(** The block that writes db_visualizer/sqlite.env, once the directory is
    there. *)
Lemma write_visualizer_env cwd w :
  w_fs w !! "db_visualizer" = Some Dir ->
  with_open_w "db_visualizer/sqlite.env" (fun f =>
    file_write f ("export SQLITE_DB=" +:+ dquote +:+ DB_PATH cwd +:+ dquote +:+ newline)) w
  = match w_fs w !! "db_visualizer/sqlite.env" with
    | Some Dir =>
        Outcome w [EvOpen "db_visualizer/sqlite.env"]
                (inl (IsADirectoryError "db_visualizer/sqlite.env"))
    | _ =>
        Outcome (set_fs (<["db_visualizer/sqlite.env" := TextFile (visualizer_env cwd)]>
                           (w_fs w)) w)
                [ EvOpen "db_visualizer/sqlite.env";
                  EvWrite "db_visualizer/sqlite.env" (visualizer_env cwd);
                  EvClose "db_visualizer/sqlite.env" ]
                (inr tt)
    end.
Proof.
  intros Hdir. unfold with_open_w, open_w, mbind, py_bind, bind.
  change (dirname "db_visualizer/sqlite.env") with "db_visualizer".
  destruct (w_fs w !! "db_visualizer/sqlite.env") as [[| |]|]; [done| | |].
  all: cbv beta iota zeta; rewrite Hdir.
  all: cbv beta iota zeta; rewrite file_write_inserted.
  all: unfold file_close; cbv beta iota.
  all: reflexivity.
Qed.

Lemma os_makedirs_spec p w :
  os_makedirs p w =
    match w_fs w !! p with
    | None => Outcome (set_fs (<[p := Dir]> (w_fs w)) w) [EvMakedirs p] (inr tt)
    | Some Dir => Outcome w [EvMakedirs p] (inr tt)
    | Some _ => Outcome w [EvMakedirs p] (inl (FileExistsError p))
    end.
Proof. reflexivity. Qed.

Lemma bind_apply {A B} (m : Py A) (k : A -> Py B) w :
  (m ≫= k) w =
    match m w with
    | Outcome w1 t1 (inl e) => Outcome w1 t1 (inl e)
    | Outcome w1 t1 (inr a) =>
        match k a w1 with
        | Outcome w2 t2 r => Outcome w2 (t1 ++ t2) r
        end
    end.
Proof. reflexivity. Qed.

Lemma write_metadata_spec cwd w :
  let o := write_metadata cwd w in
  out_trace o `prefix_of` metadata_trace cwd
  /\ w_now (out_world o) = w_now w
  /\ (forall p, p <> "db_connection.txt" -> p <> "db_visualizer" ->
                p <> "db_visualizer/sqlite.env" ->
                w_fs (out_world o) !! p = w_fs w !! p)
  /\ (out_result o = inr tt ->
      out_trace o = metadata_trace cwd
      /\ w_fs (out_world o) !! "db_connection.txt" = Some (TextFile (connection_info cwd))
      /\ w_fs (out_world o) !! "db_visualizer" = Some Dir
      /\ w_fs (out_world o) !! "db_visualizer/sqlite.env"
         = Some (TextFile (visualizer_env cwd))).
Proof.
  cbv zeta. remember (write_metadata cwd w) as o eqn:Ho.
  unfold write_metadata in Ho.
  rewrite bind_apply in Ho. unfold print at 1 in Ho. cbv beta iota in Ho.
  rewrite bind_apply, write_connection_info in Ho.
  destruct (w_fs w !! "db_connection.txt") as [[|c1|db1]|] eqn:H1; cbv beta iota in Ho.
  { subst o. cbn [out_trace out_world out_result app]. split; [by eexists|].
    split; [done|]. split; [done|]. discriminate. }
  all: rewrite bind_apply, os_makedirs_spec in Ho.
  all: unfold set_fs at 1 in Ho; cbn [w_fs] in Ho.
  all: rewrite lookup_insert_ne in Ho by done.
  all: destruct (w_fs w !! "db_visualizer") as [[|c2|db2]|] eqn:H2; cbv beta iota in Ho.
  all: try (subst o; cbn [out_trace out_world out_result app set_fs w_fs w_now];
            split; [by eexists|]; split; [done|];
            split; [by intros p Hp1 Hp2 Hp3; rewrite lookup_insert_ne|discriminate]).
  all: rewrite bind_apply, write_visualizer_env in Ho
         by (unfold set_fs; cbn [w_fs];
             rewrite ?lookup_insert_eq, ?lookup_insert_ne by done; done).
  all: unfold set_fs in Ho; cbn [w_fs w_now] in Ho.
  all: rewrite ?lookup_insert_ne in Ho by done.
  all: destruct (w_fs w !! "db_visualizer/sqlite.env") as [[|c3|db3]|] eqn:H3;
         cbv beta iota in Ho.
  all: try rewrite bind_apply in Ho; unfold print in Ho; cbv beta iota in Ho.
  all: subst o; cbn [out_trace out_world out_result app w_fs w_now].
  all: split; [by eexists|]; split; [done|].
  all: split; [by intros p Hp1 Hp2 Hp3; rewrite ?lookup_insert_ne by done|].
  all: try discriminate.
  all: intros _; split; [done|].
  all: rewrite ?lookup_insert_eq, ?lookup_insert_ne by done.
  all: rewrite ?lookup_insert_eq, ?lookup_insert_ne by done.
  all: by rewrite ?lookup_insert_eq, ?lookup_insert_ne by done.
Qed.

(** The events of [create_tables]: statements of the script, in order,
    then the commit when none failed.  The first statement is always
    issued. *)
Lemma create_tables_trace conn w :
  exists issued,
    issued `prefix_of` create_tables_statements
    /\ issued <> []
    /\ out_trace (create_tables conn w)
       = map EvExecute issued
         ++ match out_result (create_tables conn w) with
            | inr _ => [EvCommit]
            | inl _ => []
            end
    /\ (out_result (create_tables conn w) = inr tt -> issued = create_tables_statements).
Proof.
  destruct (conn_db conn w) as [db|] eqn:Hdb.
  - destruct (exec_script (conn_foreign_keys conn) (w_now w) create_tables_statements db)
      as [[d issued] r] eqn:Hscript.
    destruct (create_tables_spec _ _ _ _ _ _ Hdb Hscript) as (Ht & Hr & _).
    destruct (exec_script_issued _ _ _ _ _ _ _ Hscript) as [Hp Hall].
    exists issued. split; [done|]. split.
    + intros ->. unfold create_tables_statements, ddl_statements in Hscript.
      cbn [app] in Hscript. rewrite exec_script_cons in Hscript.
      destruct (exec_stmt _ _ _ db) as [e|[db' rows]]; [done|].
      by destruct (exec_script _ _ _ db') as [[? ?] ?].
    + rewrite Ht, Hr. destruct r as [e|]; [by split|]. split; [done|].
      intros _. by apply Hall.
  - rewrite (create_tables_no_database _ _ Hdb). cbn [out_trace out_result].
    exists [CreateTableIfNotExists "schema_migrations" schema_migrations_def].
    split; [by eexists|]. split; [done|]. split; [done|]. discriminate.
Qed.

Lemma files_opened_app t1 t2 :
  files_opened (t1 ++ t2) = files_opened t1 ++ files_opened t2.
Proof. apply omap_app. Qed.

Lemma files_opened_execute qs : files_opened (map EvExecute qs) = [].
Proof. induction qs as [|q qs IH]; [done|]. exact IH. Qed.

(* ===================================================================== *)
(** ** The two metadata files *)
(* ===================================================================== *)

(** C5.  A successful run of [initialize_db] opens exactly two files for
    writing, db_connection.txt and db_visualizer/sqlite.env, in both
    branches of the schema check; afterwards the first holds the four
    lines of connection metadata and the second the SQLITE_DB export. *)
Theorem initialize_db_writes_metadata cwd w :
  out_result (initialize_db cwd w) = inr tt ->
  files_opened (out_trace (initialize_db cwd w))
    = ["db_connection.txt"; "db_visualizer/sqlite.env"]
  /\ w_fs (out_world (initialize_db cwd w)) !! "db_connection.txt"
     = Some (TextFile
               ("# SQLite connection methods:" +:+ newline
                +:+ "# Python: sqlite3.connect('myapp.db')" +:+ newline
                +:+ "# Connection string: sqlite:///" +:+ DB_PATH cwd +:+ newline
                +:+ "# File path: " +:+ DB_PATH cwd +:+ newline))
  /\ w_fs (out_world (initialize_db cwd w)) !! "db_visualizer/sqlite.env"
     = Some (TextFile
               ("export SQLITE_DB=" +:+ dquote +:+ DB_PATH cwd +:+ dquote +:+ newline)).
Proof.
  rewrite initialize_db_unfold.
  destruct (w_fs w !! DB_NAME) as [[| |]|]; [done| | |].
  all: pose proof (is_schema_up_to_date_spec main_conn (connected w)) as Hcheck.
  all: cbv zeta in Hcheck.
  all: destruct (is_schema_up_to_date main_conn (connected w)) as [w2 t2 [e|up]];
    [done|].
  all: cbn [out_trace] in Hcheck; destruct Hcheck as (-> & _).
  all: destruct (truthy up).
  all: try (pose proof (write_metadata_spec cwd w2) as Hmeta; cbv zeta in Hmeta;
            destruct (write_metadata cwd w2) as [w4 t4 r];
            cbn [out_trace out_world out_result] in *;
            intros ->; destruct Hmeta as (_ & _ & _ & Hmeta);
            destruct (Hmeta eq_refl) as (-> & Hinfo & _ & Henv);
            by repeat split).
  all: destruct (create_tables_trace main_conn w2) as (issued & _ & _ & Ht & _).
  all: destruct (create_tables main_conn w2) as [w3 t3 [e|[]]]; [done|].
  all: cbn [out_trace out_result] in Ht; subst t3.
  all: pose proof (write_metadata_spec cwd w3) as Hmeta; cbv zeta in Hmeta.
  all: destruct (write_metadata cwd w3) as [w4 t4 r].
  all: cbn [out_trace out_world out_result] in *.
  all: intros ->; destruct Hmeta as (_ & _ & _ & Hmeta).
  all: destruct (Hmeta eq_refl) as (-> & Hinfo & _ & Henv).
  all: split; [|by split].
  all: rewrite !files_opened_app, files_opened_execute; reflexivity.
Qed.

(* ===================================================================== *)
(** ** The ledger check in [initialize_db] *)
(* ===================================================================== *)

Lemma ddl_issued_app t1 t2 :
  ddl_issued (t1 ++ t2) = ddl_issued t1 || ddl_issued t2.
Proof. apply existsb_app. Qed.

Lemma ddl_issued_prefix t1 t2 :
  t1 `prefix_of` t2 -> ddl_issued t2 = false -> ddl_issued t1 = false.
Proof.
  intros [k ->]. rewrite ddl_issued_app. by intros [? _]%orb_false_iff.
Qed.

Lemma create_tables_issues_ddl conn w :
  ddl_issued (out_trace (create_tables conn w)) = true.
Proof.
  destruct (create_tables_trace conn w) as (issued & [k Hk] & Hne & -> & _).
  destruct issued as [|q issued]; [done|].
  unfold create_tables_statements, ddl_statements in Hk. cbn [app] in Hk.
  injection Hk as <- _. reflexivity.
Qed.

Lemma write_metadata_no_ddl cwd w :
  ddl_issued (out_trace (write_metadata cwd w)) = false.
Proof.
  destruct (write_metadata_spec cwd w) as (Hp & _).
  by eapply ddl_issued_prefix.
Qed.

Lemma conn_db_connected w db :
  conn_db main_conn w = Some db -> connected w = w.
Proof.
  unfold conn_db, connected. cbn [main_conn conn_path].
  by destruct (w_fs w !! DB_NAME).
Qed.

(** With a ledger to read, [initialize_db] checks it and goes on to send
    DDL exactly when the check comes out false. *)
Lemma initialize_db_with_ledger cwd w db t vs :
  conn_db main_conn w = Some db ->
  ledger db = Some t ->
  named_column "version" t = Some vs ->
  out_result (is_schema_up_to_date main_conn w)
    = inr (PyBool (eq_int (sql_max vs) SCHEMA_VERSION))
  /\ EvExecute check_ledger ∈ out_trace (initialize_db cwd w)
  /\ ddl_issued (out_trace (initialize_db cwd w))
     = negb (eq_int (sql_max vs) SCHEMA_VERSION).
Proof.
  intros Hdb Hl Hvs.
  pose proof (is_schema_up_to_date_spec main_conn w) as Hcheck. cbv zeta in Hcheck.
  rewrite Hdb, Hl, Hvs in Hcheck. destruct Hcheck as (Ht & Hr & _).
  split; [done|].
  rewrite initialize_db_unfold, (conn_db_connected _ _ Hdb).
  assert (exists n, w_fs w !! DB_NAME = Some n /\ n <> Dir) as (n & Hn & Hdir).
  { unfold conn_db in Hdb. cbn [main_conn conn_path] in Hdb.
    destruct (w_fs w !! DB_NAME) as [n|]; [|done]. exists n. split; [done|].
    by intros ->. }
  rewrite Hn.
  destruct (is_schema_up_to_date main_conn w) as [w2 t2 r2].
  cbn [out_trace out_result] in Ht, Hr. subst t2 r2.
  cbn [truthy].
  assert (forall tr, EvExecute check_ledger ∈ opening cwd w ++ [EvExecute check_ledger] ++ tr)
    as Hin.
  { intros tr. apply elem_of_app. right. apply list_elem_of_here. }
  destruct (eq_int (sql_max vs) SCHEMA_VERSION); cbn [negb].
  - pose proof (write_metadata_no_ddl cwd w2) as Hno.
    destruct (write_metadata cwd w2) as [w4 t4 r4]. cbn [out_trace] in *.
    destruct n; [done| |]; cbv beta iota; cbn [out_trace]; (split; [apply Hin|]);
      by rewrite !ddl_issued_app, Hno.
  - pose proof (create_tables_issues_ddl main_conn w2) as Hyes.
    destruct (create_tables main_conn w2) as [w3 t3 [e|[]]]; cbn [out_trace] in *.
    + destruct n; [done| |]; cbv beta iota; cbn [out_trace]; (split; [apply Hin|]);
        rewrite !ddl_issued_app, Hyes; by rewrite !orb_true_r.
    + destruct (write_metadata cwd w3) as [w4 t4 r4]. cbn [out_trace].
      destruct n; [done| |]; cbv beta iota; cbn [out_trace]; (split; [apply Hin|]);
        rewrite !ddl_issued_app, Hyes; by rewrite ?orb_true_r.
Qed.

(* ===================================================================== *)
(** ** What the ledger check returns *)
(* ===================================================================== *)

(** C8.  On a database that has the schema_migrations table,
    [is_schema_up_to_date] returns True if and only if the table has its
    version column and the largest version recorded there is
    SCHEMA_VERSION.  With the column present it always returns a boolean:
    False on an empty ledger, and False when every recorded version is
    greater than 1, in which case [initialize_db] goes on to send the DDL
    again. *)
Theorem is_schema_up_to_date_iff_max conn w db t :
  conn_db conn w = Some db ->
  ledger db = Some t ->
  (out_result (is_schema_up_to_date conn w) = inr (PyBool true)
   <-> exists vs, named_column "version" t = Some vs
                  /\ is_maximum (VInt SCHEMA_VERSION) vs)
  /\ (forall vs, named_column "version" t = Some vs ->
        exists b, out_result (is_schema_up_to_date conn w) = inr (PyBool b)
                  /\ (b = true <-> is_maximum (VInt SCHEMA_VERSION) vs))
  /\ (named_column "version" t = Some [] ->
        out_result (is_schema_up_to_date conn w) = inr (PyBool false))
  /\ (forall vs, named_column "version" t = Some vs ->
        (forall v, v ∈ vs -> exists z, v = VInt z /\ (1 < z)%Z) ->
        out_result (is_schema_up_to_date conn w) = inr (PyBool false)
        /\ (conn = main_conn ->
            forall cwd, ddl_issued (out_trace (initialize_db cwd w)) = true)).
Proof.
  intros Hdb Hl.
  pose proof (is_schema_up_to_date_spec conn w) as Hcheck. cbv zeta in Hcheck.
  rewrite Hdb, Hl in Hcheck. destruct Hcheck as (_ & Hr & _).
  assert (forall vs, named_column "version" t = Some vs ->
            (forall v, v ∈ vs -> exists z, v = VInt z /\ (1 < z)%Z) ->
            eq_int (sql_max vs) SCHEMA_VERSION = false) as Hgreater.
  { intros vs Hvs Hall. destruct (eq_int (sql_max vs) SCHEMA_VERSION) eqn:Heq; [|done].
    apply eq_int_true, sql_max_is in Heq as [Hin _].
    destruct (Hall _ Hin) as (z & [= <-] & Hz). unfold SCHEMA_VERSION in Hz. lia. }
  split; [|split; [|split]].
  - rewrite Hr. destruct (named_column "version" t) as [vs|].
    + split.
      * intros [= Heq]. exists vs. split; [done|]. by apply sql_max_is, eq_int_true.
      * intros (vs' & [= <-] & Hmax). do 2 f_equal. by apply eq_int_true, sql_max_is.
    + split; [done|]. by intros (vs' & [=] & _).
  - intros vs Hvs. rewrite Hr, Hvs. eexists. split; [done|].
    by rewrite eq_int_true, sql_max_is.
  - intros Hvs. by rewrite Hr, Hvs.
  - intros vs Hvs Hall. rewrite Hr, Hvs, (Hgreater vs Hvs Hall). split; [done|].
    intros -> cwd.
    destruct (initialize_db_with_ledger cwd w db t vs Hdb Hl Hvs) as (_ & _ & ->).
    by rewrite (Hgreater vs Hvs Hall).
Qed.

(* ===================================================================== *)
(** ** A first run *)
(* ===================================================================== *)

(** C1 fails on the code: with no database file to begin with,
    [initialize_db] creates the file, asks the ledger for its largest
    version before any table exists, and stops on "no such table:
    schema_migrations".  No DDL statement is issued, the database file is
    left empty and no metadata file is written. *)
Theorem initialize_db_fresh_database_fails cwd fs now :
  let w := World (delete DB_NAME fs) now in
  out_result (initialize_db cwd w)
    = inl (Sqlite3Error (NoSuchTable "schema_migrations"))
  /\ w_fs (out_world (initialize_db cwd w)) !! DB_NAME = Some (DbFile empty_db)
  /\ db_tables empty_db = ∅
  /\ out_trace (initialize_db cwd w)
     = [ EvPrint "Checking for existing SQLite database ...";
         EvConnect DB_NAME;
         EvExecute (PragmaForeignKeys true);
         EvPrint ("Database will be created at " +:+ DB_PATH cwd);
         EvExecute check_ledger ].
Proof.
  intros w.
  assert (w_fs w !! DB_NAME = None) as Hfresh by apply lookup_delete_eq.
  rewrite initialize_db_unfold. unfold opening, connected. rewrite Hfresh.
  unfold is_schema_up_to_date, conn_cursor, cursor_execute, cursor_fetchone,
    mbind, py_bind, mret, py_ret, bind, ret. cbn [cur_conn].
  rewrite (run_stmt_database main_conn (SelectMax "version" "schema_migrations") _
             empty_db eq_refl (conn_db_written main_conn _ _ _)).
  cbn [exec_stmt]. unfold exec_select_max.
  change (db_tables empty_db) with (∅ : gmap string table).
  rewrite lookup_empty. cbn [out_result out_world out_trace set_fs w_fs app].
  by rewrite lookup_insert_eq.
Qed.

(* ===================================================================== *)
(** ** Steps and their order *)
(* ===================================================================== *)

Lemma ascending_head a ps :
  ascending (a :: ps) = true ->
  Forall (fun b => (phase_rank a <= phase_rank b)%nat) ps.
Proof.
  revert a. induction ps as [|b ps IH]; intros a Hasc; [constructor|].
  cbn [ascending] in Hasc. apply andb_true_iff in Hasc as [Hab Hrest].
  apply Nat.leb_le in Hab. constructor; [done|].
  eapply Forall_impl; [by apply IH|]. intros c Hc. simpl in Hc. lia.
Qed.

Lemma ascending_tail a ps : ascending (a :: ps) = true -> ascending ps = true.
Proof.
  destruct ps as [|b ps]; [done|]. cbn [ascending].
  by intros [_ ?]%andb_true_iff.
Qed.

Lemma ascending_in_order ps : ascending ps = true -> in_order ps.
Proof.
  induction ps as [|a ps IH]; intros Hasc i j x y Hij Hi Hj.
  - done.
  - destruct j as [|j]; [lia|]. destruct i as [|i].
    + injection Hi as <-. cbn in Hj.
      pose proof (ascending_head _ _ Hasc) as Hall.
      rewrite Forall_forall in Hall. apply Hall. by eapply list_elem_of_lookup_2.
    + cbn in Hi, Hj. eapply (IH (ascending_tail _ _ Hasc) i j); [lia|done|done].
Qed.

Lemma in_order_prefix ps1 ps2 :
  ps1 `prefix_of` ps2 -> in_order ps2 -> in_order ps1.
Proof.
  intros Hp Hord i j a b Hij Hi Hj.
  eapply Hord; [exact Hij| |]; by eapply prefix_lookup_Some.
Qed.

Lemma phases_app t1 t2 : phases (t1 ++ t2) = phases t1 ++ phases t2.
Proof. apply omap_app. Qed.

Lemma phases_prefix t1 t2 : t1 `prefix_of` t2 -> phases t1 `prefix_of` phases t2.
Proof. intros [k ->]. rewrite phases_app. by eexists. Qed.

Lemma map_prefix {A B} (f : A -> B) (l1 l2 : list A) :
  l1 `prefix_of` l2 -> map f l1 `prefix_of` map f l2.
Proof. intros [k ->]. rewrite map_app. by eexists. Qed.

(** The steps of [create_tables]: a prefix of eight DDL statements and the
    INSERT, then the commit when it got that far. *)
Lemma create_tables_phases conn w :
  match out_result (create_tables conn w) with
  | inr _ =>
      phases (out_trace (create_tables conn w))
      = replicate 8 ApplyDDL ++ [RecordVersion; RecordVersion]
  | inl _ =>
      phases (out_trace (create_tables conn w))
      `prefix_of` replicate 8 ApplyDDL ++ [RecordVersion]
  end.
Proof.
  destruct (create_tables_trace conn w) as (issued & Hp & _ & Ht & Hall).
  rewrite Ht. destruct (out_result (create_tables conn w)) as [e|[]].
  - rewrite app_nil_r.
    change (replicate 8 ApplyDDL ++ [RecordVersion])
      with (phases (map EvExecute create_tables_statements)).
    by apply phases_prefix, map_prefix.
  - by rewrite (Hall eq_refl).
Qed.

Lemma write_metadata_phases cwd w :
  phases (out_trace (write_metadata cwd w)) `prefix_of` replicate 10 WriteMetadata
  /\ (out_result (write_metadata cwd w) = inr tt ->
      phases (out_trace (write_metadata cwd w)) = replicate 10 WriteMetadata).
Proof.
  destruct (write_metadata_spec cwd w) as (Hp & _ & _ & Hok). split.
  - change (replicate 10 WriteMetadata) with (phases (metadata_trace cwd)).
    by apply phases_prefix.
  - intros Hr. destruct (Hok Hr) as (-> & _). reflexivity.
Qed.

Lemma initialize_db_after_connect cwd w :
  w_fs w !! DB_NAME <> Some Dir ->
  initialize_db cwd w = after_connect cwd (opening cwd w) (connected w).
Proof.
  intros Hn. rewrite initialize_db_unfold. unfold after_connect.
  by destruct (w_fs w !! DB_NAME) as [[| |]|].
Qed.

(* ===================================================================== *)
(** ** Tables the script creates *)
(* ===================================================================== *)

Lemma exec_script_table_absent fk now qs db d issued r n :
  exec_script fk now qs db = (d, issued, r) ->
  forallb (fun q => negb (creates_table n q)) qs = true ->
  db_tables db !! n = None ->
  db_tables d !! n = None.
Proof.
  revert db d issued r. induction qs as [|q qs IH]; intros db d issued r; simpl.
  - by intros [= <- <- <-].
  - intros Hex Hqs Hn. apply andb_true_iff in Hqs as [Hq Hqs].
    apply negb_true_iff in Hq.
    destruct (exec_stmt fk now q db) as [e|[db' rows]] eqn:Hstep.
    + by injection Hex as <- _ _.
    + destruct (exec_script fk now qs db') as [[d' i'] r'] eqn:Hrec.
      injection Hex as <- _ _.
      eapply IH; [done|done|]. by eapply exec_stmt_table_absent.
Qed.

(** A table the script creates is there, empty and as defined, once the
    script has run through. *)
Lemma exec_script_creates fk now qs1 qs2 name def db d issued :
  exec_script fk now (qs1 ++ CreateTableIfNotExists name def :: qs2) db
    = (d, issued, None) ->
  forallb (fun q => negb (creates_table name q)) qs1 = true ->
  forallb (fun q => negb (inserts_into name q)) qs2 = true ->
  db_tables db !! name = None ->
  db_tables d !! name = Some (Table def []).
Proof.
  intros Hex Hqs1 Hqs2 Hn. rewrite exec_script_app in Hex.
  destruct (exec_script fk now qs1 db) as [[d1 i1] [e|]] eqn:H1; [done|].
  pose proof (exec_script_table_absent _ _ _ _ _ _ _ _ H1 Hqs1 Hn) as Hn1.
  rewrite exec_script_cons in Hex. cbn [exec_stmt] in Hex.
  unfold exec_create_table in Hex. rewrite Hn1 in Hex.
  destruct (db_indices d1 !! name); [done|].
  destruct (exec_script fk now qs2 _) as [[d2 i2] r2] eqn:H2.
  injection Hex as <- _ _.
  eapply exec_script_keeps_table; [exact H2|done|].
  cbn [db_tables]. by rewrite lookup_insert_eq.
Qed.

Lemma imap_pair_lookup {A} (l : list A) i x :
  l !! i = Some x -> (i, x) ∈ imap pair l.
Proof.
  intros Hl. apply list_elem_of_lookup. exists i.
  by rewrite list_lookup_imap, Hl.
Qed.

(** A row INSERT OR IGNORE does not skip is admissible. *)
Lemma new_row_admissible now cols vals t :
  row_conflicts t (new_row now cols vals t) = false ->
  admissible (t_def t) (new_row now cols vals t).
Proof.
  intros Hc. split.
  - unfold new_row. by rewrite length_imap.
  - intros i c Hi. unfold row_conflicts in Hc.
    assert (violates (t_rows t) (new_row now cols vals t) i c = false) as Hv.
    { destruct (violates _ _ i c) eqn:Hv; [|done].
      rewrite <- Hc. symmetry. apply existsb_exists. exists (i, c).
      split; [|done]. apply list_elem_of_In. by apply imap_pair_lookup. }
    unfold violates in Hv.
    apply orb_false_iff in Hv as [Hv _]. by apply orb_false_iff in Hv.
Qed.

(** Statements keep a table, its definition and the validity of its
    rows. *)
Lemma exec_stmt_holds_table fk now q db db' rows n def :
  exec_stmt fk now q db = inr (db', rows) ->
  holds_table n def db ->
  holds_table n def db'.
Proof.
  intros Hex (t & Ht & Hdef & Hvalid).
  destruct (inserts_into n q) eqn:Hq.
  - destruct q as [| | |tbl cols vals|]; try discriminate. simpl in Hq, Hex.
    apply String.eqb_eq in Hq as ->. unfold exec_insert_or_ignore in Hex.
    rewrite Ht in Hex.
    destruct (first_error _ cols); [done|].
    destruct (negb _); [done|].
    destruct (if fk then _ else _); [done|].
    destruct (row_conflicts _ _) eqn:Hc; [injection Hex as <- _; by exists t|].
    destruct (fk && _); [done|]. injection Hex as <- _.
    eexists. cbn [db_tables]. rewrite lookup_insert_eq. split; [done|].
    split; [done|]. unfold valid_rows. cbn [t_def t_rows].
    apply Forall_app. split; [done|]. constructor; [|constructor].
    by apply new_row_admissible.
  - exists t. split; [|done]. by eapply exec_stmt_keeps_table.
Qed.

(* ===================================================================== *)
(** ** Instances *)
(* ===================================================================== *)

Lemma create_tables_idempotent_witness :
  let w1 := at_time "2024-06-01 08:00:00"
              (out_world (create_tables main_conn (world_of empty_db))) in
  out_result (create_tables main_conn w1) = inr tt
  /\ conn_db main_conn (out_world (create_tables main_conn w1)) = conn_db main_conn w1
  /\ forall p, p <> conn_path main_conn ->
       w_fs (out_world (create_tables main_conn w1)) !! p = w_fs w1 !! p.
Proof.
  apply (create_tables_idempotent main_conn (world_of empty_db) empty_db
           "2024-06-01 08:00:00"); vm_compute; first [reflexivity | exact I].
Defined.

Lemma create_tables_records_version_witness :
  exists db',
    conn_db main_conn (out_world (create_tables main_conn (world_of empty_db))) = Some db'
    /\ VInt SCHEMA_VERSION ∈ recorded_versions db'.
Proof.
  apply (create_tables_records_version main_conn (world_of empty_db) empty_db);
    vm_compute; first [reflexivity | exact I].
Defined.

Lemma initialize_db_writes_metadata_witness :
  files_opened (out_trace (initialize_db "/srv/app" (world_of installed_db)))
    = ["db_connection.txt"; "db_visualizer/sqlite.env"]
  /\ w_fs (out_world (initialize_db "/srv/app" (world_of installed_db)))
       !! "db_connection.txt"
     = Some (TextFile
               ("# SQLite connection methods:" +:+ newline
                +:+ "# Python: sqlite3.connect('myapp.db')" +:+ newline
                +:+ "# Connection string: sqlite:///" +:+ DB_PATH "/srv/app" +:+ newline
                +:+ "# File path: " +:+ DB_PATH "/srv/app" +:+ newline))
  /\ w_fs (out_world (initialize_db "/srv/app" (world_of installed_db)))
       !! "db_visualizer/sqlite.env"
     = Some (TextFile
               ("export SQLITE_DB=" +:+ dquote +:+ DB_PATH "/srv/app" +:+ dquote
                +:+ newline)).
Proof.
  apply (initialize_db_writes_metadata "/srv/app" (world_of installed_db)).
  vm_compute. reflexivity.
Defined.

Lemma create_tables_keeps_existing_witness :
  exists db',
    conn_db main_conn (out_world (create_tables main_conn (world_of installed_db)))
      = Some db'
    /\ (forall n, n ∈ app_tables -> db_tables db' !! n = db_tables installed_db !! n)
    /\ (forall i ix, db_indices installed_db !! i = Some ix ->
                     db_indices db' !! i = Some ix).
Proof.
  apply (create_tables_keeps_existing main_conn (world_of installed_db) installed_db);
    first [ vm_compute; reflexivity
          | eexists; vm_compute; reflexivity ].
Defined.

Lemma is_schema_up_to_date_iff_max_witness :
  out_result (is_schema_up_to_date main_conn (world_of installed_db)) = inr (PyBool true)
  <-> exists vs, named_column "version" installed_ledger = Some vs
                 /\ is_maximum (VInt SCHEMA_VERSION) vs.
Proof.
  apply (is_schema_up_to_date_iff_max main_conn (world_of installed_db)
           installed_db installed_ledger); vm_compute; reflexivity.
Defined.

Lemma ledger_never_duplicates_witness :
  (forall times, exists d,
      conn_db main_conn (runs main_conn times (world_of empty_db)) = Some d
      /\ script_ledger d
      /\ NoDup (recorded_versions d))
  /\ (forall t, exists d,
        conn_db main_conn (runs main_conn [t] (world_of empty_db)) = Some d
        /\ (ledger_rows d = ledger_rows empty_db
            \/ ((VInt SCHEMA_VERSION ∉ recorded_versions empty_db)
                /\ ledger_rows d
                   = ledger_rows empty_db ++ [[VInt SCHEMA_VERSION; VText t]])))
  /\ (forall t times,
        out_result (create_tables main_conn (at_time t (world_of empty_db))) = inr tt ->
        exists d1 d2,
          conn_db main_conn (runs main_conn [t] (world_of empty_db)) = Some d1
          /\ conn_db main_conn (runs main_conn (t :: times) (world_of empty_db)) = Some d2
          /\ VInt SCHEMA_VERSION ∈ recorded_versions d1
          /\ ledger_rows d2 = ledger_rows d1).
Proof.
  apply (ledger_never_duplicates main_conn (world_of empty_db) empty_db).
  - vm_compute. reflexivity.
  - vm_compute. exact I.
  - vm_compute. apply NoDup_nil_2.
Defined.

(* ===================================================================== *)
(** ** Further properties of [create_tables] *)
(* ===================================================================== *)

(** A statement keeps every table, with its definition, and only ever
    appends to its rows. *)
Lemma exec_stmt_table_grows fk now q db db' rows n t :
  exec_stmt fk now q db = inr (db', rows) ->
  db_tables db !! n = Some t ->
  exists t', db_tables db' !! n = Some t'
             /\ t_def t' = t_def t
             /\ t_rows t `prefix_of` t_rows t'.
Proof.
  intros Hex Ht.
  destruct (inserts_into n q) eqn:Hq.
  - destruct q as [| | |tbl cols vals|]; try discriminate. simpl in Hq, Hex.
    apply String.eqb_eq in Hq as ->. unfold exec_insert_or_ignore in Hex.
    rewrite Ht in Hex.
    destruct (first_error _ cols); [done|].
    destruct (negb _); [done|].
    destruct (if fk then _ else _); [done|].
    destruct (row_conflicts _ _); [injection Hex as <- _; by exists t|].
    destruct (fk && _); [done|]. injection Hex as <- _.
    eexists. cbn [db_tables]. rewrite lookup_insert_eq. split; [done|].
    split; [done|]. cbn [t_rows]. by eexists.
  - exists t. split; [|done]. by eapply exec_stmt_keeps_table.
Qed.

Lemma exec_script_table_grows fk now qs db d issued r n t :
  exec_script fk now qs db = (d, issued, r) ->
  db_tables db !! n = Some t ->
  exists t', db_tables d !! n = Some t'
             /\ t_def t' = t_def t
             /\ t_rows t `prefix_of` t_rows t'.
Proof.
  revert db d issued r t. induction qs as [|q qs IH]; intros db d issued r t; simpl.
  - intros [= <- <- <-] Ht. by exists t.
  - intros Hex Ht.
    destruct (exec_stmt fk now q db) as [e|[db' rows]] eqn:Hstep.
    + injection Hex as <- _ _. by exists t.
    + destruct (exec_script fk now qs db') as [[d' i'] r'] eqn:Hrec.
      injection Hex as <- _ _.
      destruct (exec_stmt_table_grows _ _ _ _ _ _ _ _ Hstep Ht) as (t1 & Ht1 & Hd1 & Hp1).
      destruct (IH _ _ _ _ _ Hrec Ht1) as (t2 & Ht2 & Hd2 & Hp2).
      exists t2. split; [done|]. split; [congruence|]. by etrans.
Qed.

Lemma no_insert_elsewhere n :
  n <> "schema_migrations" ->
  forallb (fun q => negb (inserts_into n q)) create_tables_statements = true.
Proof.
  intros Hn. unfold create_tables_statements, ddl_statements, record_version.
  cbn [app forallb inserts_into negb andb].
  assert (String.eqb "schema_migrations" n = false) as ->; [|done].
  apply String.eqb_neq. congruence.
Qed.

(** Whatever its outcome, [create_tables] drops nothing and rewrites
    nothing: every table other than the ledger and every index is found
    exactly as it was, the ledger keeps its definition and its rows (rows
    are only appended), and no file but the database changes. *)
Theorem create_tables_only_adds conn w db :
  conn_db conn w = Some db ->
  exists d,
    conn_db conn (out_world (create_tables conn w)) = Some d
    /\ (forall n t, n <> "schema_migrations" ->
          db_tables db !! n = Some t -> db_tables d !! n = Some t)
    /\ (forall i ix, db_indices db !! i = Some ix -> db_indices d !! i = Some ix)
    /\ (forall t, ledger db = Some t ->
          exists t', ledger d = Some t'
                     /\ t_def t' = t_def t
                     /\ t_rows t `prefix_of` t_rows t')
    /\ (forall p, p <> conn_path conn ->
          w_fs (out_world (create_tables conn w)) !! p = w_fs w !! p).
Proof.
  intros Hdb.
  destruct (exec_script (conn_foreign_keys conn) (w_now w) create_tables_statements db)
    as [[d issued] r] eqn:Hscript.
  destruct (create_tables_spec _ _ _ _ _ _ Hdb Hscript) as (_ & _ & Hd & _ & Hframe).
  exists d. split; [done|]. split; [|split; [|split; [|done]]].
  - intros n t Hn Ht. eapply exec_script_keeps_table; [exact Hscript| |exact Ht].
    by apply no_insert_elsewhere.
  - intros i ix Hi. by eapply exec_script_keeps_index.
  - intros t Ht. by eapply exec_script_table_grows.
Qed.

Lemma create_tables_only_adds_witness :
  exists d,
    conn_db main_conn (out_world (create_tables main_conn (world_of keyless_ledger_db)))
      = Some d
    /\ (forall n t, n <> "schema_migrations" ->
          db_tables keyless_ledger_db !! n = Some t -> db_tables d !! n = Some t)
    /\ (forall i ix, db_indices keyless_ledger_db !! i = Some ix ->
                     db_indices d !! i = Some ix)
    /\ (forall t, ledger keyless_ledger_db = Some t ->
          exists t', ledger d = Some t'
                     /\ t_def t' = t_def t
                     /\ t_rows t `prefix_of` t_rows t')
    /\ (forall p, p <> conn_path main_conn ->
          w_fs (out_world (create_tables main_conn (world_of keyless_ledger_db))) !! p
          = w_fs (world_of keyless_ledger_db) !! p).
Proof.
  apply (create_tables_only_adds main_conn (world_of keyless_ledger_db) keyless_ledger_db).
  vm_compute. reflexivity.
Defined.

(** After a successful [create_tables], on whatever database, the five
    tables exist and an index of each of the three names exists. *)
Theorem create_tables_establishes_schema conn w :
  out_result (create_tables conn w) = inr tt ->
  exists d,
    conn_db conn (out_world (create_tables conn w)) = Some d
    /\ (forall n, n ∈ script_tables -> has_table n d)
    /\ (forall i, i ∈ script_indices -> is_Some (db_indices d !! i)).
Proof.
  intros Hok. destruct (conn_db conn w) as [db|] eqn:Hdb.
  2: { by rewrite (create_tables_no_database _ _ Hdb) in Hok. }
  destruct (exec_script (conn_foreign_keys conn) (w_now w) create_tables_statements db)
    as [[d issued] r] eqn:Hscript.
  destruct (create_tables_spec _ _ _ _ _ _ Hdb Hscript) as (_ & Hres & Hd & _).
  rewrite Hok in Hres. destruct r as [e|]; [done|].
  exists d. split; [done|].
  unfold create_tables_statements in Hscript. rewrite exec_script_app in Hscript.
  destruct (exec_script _ _ ddl_statements db) as [[d1 i1] [e|]] eqn:Hddl; [done|].
  pose proof (exec_script_settles _ _ ddl_statements db d1 i1 eq_refl eq_refl Hddl)
    as Hsettled.
  cbn [exec_script] in Hscript.
  destruct (exec_stmt _ _ record_version d1) as [e|[d2 rows]] eqn:Hins; [done|].
  injection Hscript as <- _.
  assert (Forall (fun q => settled q d2) ddl_statements) as Hs.
  { eapply Forall_impl; [exact Hsettled|]. intros q Hq.
    eapply settled_stable; [exact Hq|exact Hins|]. by destruct q. }
  unfold ddl_statements in Hs.
  repeat match goal with
         | H : Forall _ (_ :: _) |- _ => apply Forall_cons in H as [? H]
         end.
  cbn [settled] in *. split.
  - intros n Hn. unfold script_tables in Hn. unfold has_table.
    repeat (apply elem_of_cons in Hn as [->|Hn]; [done|]).
    by apply elem_of_nil in Hn.
  - intros i Hi. unfold script_indices in Hi.
    repeat (apply elem_of_cons in Hi as [->|Hi]; [tauto|]).
    by apply elem_of_nil in Hi.
Qed.

Lemma create_tables_establishes_schema_witness :
  exists d,
    conn_db main_conn (out_world (create_tables main_conn (world_of dirty_ledger_db)))
      = Some d
    /\ (forall n, n ∈ script_tables -> has_table n d)
    /\ (forall i, i ∈ script_indices -> is_Some (db_indices d !! i)).
Proof.
  apply (create_tables_establishes_schema main_conn (world_of dirty_ledger_db)).
  vm_compute. reflexivity.
Defined.

Lemma exec_create_table_fresh fk now n def db :
  db_tables db !! n = None ->
  db_indices db !! n = None ->
  exec_stmt fk now (CreateTableIfNotExists n def) db
  = inr (Database (<[n := Table def []]> (db_tables db)) (db_indices db), []).
Proof. intros Ht Hi. cbn [exec_stmt]. unfold exec_create_table. by rewrite Ht, Hi. Qed.

Lemma exec_create_index_fresh fk now i tbl cols t db :
  db_tables db !! tbl = Some t ->
  db_tables db !! i = None ->
  db_indices db !! i = None ->
  first_error (fun c => match col_index c (td_columns (t_def t)) with
                        | None => Some (NoSuchColumn c)
                        | Some _ => None
                        end) cols = None ->
  exec_stmt fk now (CreateIndexIfNotExists i tbl cols) db
  = inr (Database (db_tables db) (<[i := Index tbl cols]> (db_indices db)), []).
Proof.
  intros Ht Hn Hi Hcols. cbn [exec_stmt]. unfold exec_create_index.
  by rewrite Ht, Hn, Hi, Hcols.
Qed.

(** On a database in which the eight names are free, whatever else it
    holds, [create_tables] succeeds: the five tables are there as the
    script defines them, empty but for the ledger's one row (version 1,
    stamped with the current time), the three indices are on their
    columns, and every other table and index is as before, the objects
    apart that the engine keeps under sqlite_ names of its own. *)
Theorem create_tables_on_free_names conn w db :
  conn_db conn w = Some db ->
  (forall n, n ∈ script_tables ++ script_indices -> name_free db n) ->
  out_result (create_tables conn w) = inr tt
  /\ exists d,
       conn_db conn (out_world (create_tables conn w)) = Some d
       /\ db_tables d !! "schema_migrations"
          = Some (Table schema_migrations_def [[VInt SCHEMA_VERSION; VText (w_now w)]])
       /\ db_tables d !! "users" = Some (Table users_def [])
       /\ db_tables d !! "games" = Some (Table games_def [])
       /\ db_tables d !! "moves" = Some (Table moves_def [])
       /\ db_tables d !! "scores" = Some (Table scores_def [])
       /\ db_indices d !! "idx_users_username" = Some (Index "users" ["username"])
       /\ db_indices d !! "idx_games_status" = Some (Index "games" ["status"])
       /\ db_indices d !! "idx_moves_gameid" = Some (Index "moves" ["game_id"])
       /\ (forall n, n ∉ script_tables -> internal_name n = false ->
             db_tables d !! n = db_tables db !! n)
       /\ (forall i, i ∉ script_indices -> internal_name i = false ->
             db_indices d !! i = db_indices db !! i).
Proof.
  intros Hdb Hfree.
  assert (forall n, n ∈ script_tables ++ script_indices ->
            db_tables db !! n = None /\ db_indices db !! n = None) as Hfree' by done.
  unfold script_tables, script_indices in Hfree'. cbn [app] in Hfree'.
  destruct (Hfree' "schema_migrations") as [Ht1 Hi1];
    [repeat first [apply list_elem_of_here | apply list_elem_of_further]|].
  destruct (Hfree' "users") as [Ht2 Hi2];
    [repeat first [apply list_elem_of_here | apply list_elem_of_further]|].
  destruct (Hfree' "games") as [Ht3 Hi3];
    [repeat first [apply list_elem_of_here | apply list_elem_of_further]|].
  destruct (Hfree' "moves") as [Ht4 Hi4];
    [repeat first [apply list_elem_of_here | apply list_elem_of_further]|].
  destruct (Hfree' "scores") as [Ht5 Hi5];
    [repeat first [apply list_elem_of_here | apply list_elem_of_further]|].
  destruct (Hfree' "idx_users_username") as [Ht6 Hi6];
    [repeat first [apply list_elem_of_here | apply list_elem_of_further]|].
  destruct (Hfree' "idx_games_status") as [Ht7 Hi7];
    [repeat first [apply list_elem_of_here | apply list_elem_of_further]|].
  destruct (Hfree' "idx_moves_gameid") as [Ht8 Hi8];
    [repeat first [apply list_elem_of_here | apply list_elem_of_further]|].
  clear Hfree'.
  destruct (exec_script (conn_foreign_keys conn) (w_now w) create_tables_statements db)
    as [[d issued] r] eqn:Hscript.
  destruct (create_tables_spec _ _ _ _ _ _ Hdb Hscript) as (_ & Hres & Hd & _).
  rewrite Hres. clear Hres.
  unfold create_tables_statements, ddl_statements in Hscript. cbn [app] in Hscript.
  rewrite exec_script_cons, exec_create_table_fresh in Hscript by done.
  rewrite exec_script_cons, exec_create_table_fresh in Hscript
    by (cbn [db_tables db_indices]; rewrite ?lookup_insert_ne by done; done).
  rewrite exec_script_cons,
    (exec_create_index_fresh _ _ _ _ _ (Table users_def [])) in Hscript
    by first [ reflexivity
             | cbn [db_tables db_indices];
               rewrite ?lookup_insert_eq, ?lookup_insert_ne by done; done ].
  rewrite exec_script_cons, exec_create_table_fresh in Hscript
    by (cbn [db_tables db_indices]; rewrite ?lookup_insert_ne by done; done).
  rewrite exec_script_cons,
    (exec_create_index_fresh _ _ _ _ _ (Table games_def [])) in Hscript
    by first [ reflexivity
             | cbn [db_tables db_indices];
               rewrite ?lookup_insert_eq, ?lookup_insert_ne by done; done ].
  rewrite exec_script_cons, exec_create_table_fresh in Hscript
    by (cbn [db_tables db_indices]; rewrite ?lookup_insert_ne by done; done).
  rewrite exec_script_cons,
    (exec_create_index_fresh _ _ _ _ _ (Table moves_def [])) in Hscript
    by first [ reflexivity
             | cbn [db_tables db_indices];
               rewrite ?lookup_insert_eq, ?lookup_insert_ne by done; done ].
  rewrite exec_script_cons, exec_create_table_fresh in Hscript
    by (cbn [db_tables db_indices]; rewrite ?lookup_insert_ne by done; done).
  rewrite exec_script_cons,
    (record_version_script_ledger _ _ _ (Table schema_migrations_def [])) in Hscript
    by first [ reflexivity
             | unfold ledger; cbn [db_tables];
               rewrite ?lookup_insert_ne by done; by rewrite lookup_insert_eq ].
  rewrite bool_decide_eq_false_2 in Hscript by (cbn; apply not_elem_of_nil).
  cbn [exec_script app t_rows] in Hscript. injection Hscript as <- _ <-.
  split; [done|]. eexists. split; [exact Hd|]. cbn [db_tables db_indices].
  repeat split.
  all: try (rewrite ?lookup_insert_eq, ?lookup_insert_ne by done;
            by rewrite ?lookup_insert_eq, ?lookup_insert_ne by done).
  - intros n Hn _. unfold script_tables in Hn.
    rewrite !lookup_insert_ne; [done|..]; intros <-; apply Hn;
      repeat first [apply list_elem_of_here | apply list_elem_of_further].
  - intros i Hi _. unfold script_indices in Hi.
    rewrite !lookup_insert_ne; [done|..]; intros <-; apply Hi;
      repeat first [apply list_elem_of_here | apply list_elem_of_further].
Qed.

Lemma create_tables_on_free_names_witness :
  out_result (create_tables main_conn (world_of empty_db)) = inr tt
  /\ exists d,
       conn_db main_conn (out_world (create_tables main_conn (world_of empty_db)))
         = Some d
       /\ db_tables d !! "schema_migrations"
          = Some (Table schema_migrations_def
                        [[VInt SCHEMA_VERSION; VText (w_now (world_of empty_db))]])
       /\ db_tables d !! "users" = Some (Table users_def [])
       /\ db_tables d !! "games" = Some (Table games_def [])
       /\ db_tables d !! "moves" = Some (Table moves_def [])
       /\ db_tables d !! "scores" = Some (Table scores_def [])
       /\ db_indices d !! "idx_users_username" = Some (Index "users" ["username"])
       /\ db_indices d !! "idx_games_status" = Some (Index "games" ["status"])
       /\ db_indices d !! "idx_moves_gameid" = Some (Index "moves" ["game_id"])
       /\ (forall n, n ∉ script_tables -> internal_name n = false ->
             db_tables d !! n = db_tables empty_db !! n)
       /\ (forall i, i ∉ script_indices -> internal_name i = false ->
             db_indices d !! i = db_indices empty_db !! i).
Proof.
  apply (create_tables_on_free_names main_conn (world_of empty_db) empty_db).
  - vm_compute. reflexivity.
  - intros n _. split; apply lookup_empty.
Defined.

(* ===================================================================== *)
(** ** Further properties of [get_conn] and [is_schema_up_to_date] *)
(* ===================================================================== *)

(** [get_conn] raises exactly when myapp.db is a directory, and then
    changes nothing.  Otherwise it returns a connection on myapp.db with
    foreign keys on; it creates the file, as an empty database, only when
    it is missing, and never changes a file that exists. *)
Theorem get_conn_behaviour w :
  (out_result (get_conn w) = inl (Sqlite3Error UnableToOpen)
   <-> w_fs w !! DB_NAME = Some Dir)
  /\ (w_fs w !! DB_NAME <> Some Dir ->
      out_result (get_conn w) = inr (Connection DB_NAME true))
  /\ (forall p n, w_fs w !! p = Some n -> w_fs (out_world (get_conn w)) !! p = Some n)
  /\ (forall p, p <> DB_NAME -> w_fs (out_world (get_conn w)) !! p = w_fs w !! p)
  /\ (w_fs w !! DB_NAME = None ->
      w_fs (out_world (get_conn w)) !! DB_NAME = Some (DbFile empty_db)).
Proof.
  rewrite get_conn_spec. unfold connected.
  destruct (w_fs w !! DB_NAME) as [[| |]|] eqn:Hn; cbn [out_result out_world].
  1-3: repeat split; try done.
  - repeat split; try done.
    + intros p n Hp. cbn [set_fs w_fs]. rewrite lookup_insert_ne; [done|].
      intros <-. congruence.
    + intros p Hp. cbn [set_fs w_fs]. by rewrite lookup_insert_ne.
    + intros _. cbn [set_fs w_fs]. by rewrite lookup_insert_eq.
Qed.

(** [is_schema_up_to_date] only reads: the database and every file are as
    before, whatever the outcome.  It raises "no such table" when the
    ledger is missing and "no such column" when the ledger has no version
    column; whenever it returns, it returns a boolean, never [row]
    itself. *)
Theorem is_schema_up_to_date_reads_only conn w :
  conn_db conn (out_world (is_schema_up_to_date conn w)) = conn_db conn w
  /\ (forall p, p <> conn_path conn ->
        w_fs (out_world (is_schema_up_to_date conn w)) !! p = w_fs w !! p)
  /\ (forall db, conn_db conn w = Some db -> ledger db = None ->
        out_result (is_schema_up_to_date conn w)
        = inl (Sqlite3Error (NoSuchTable "schema_migrations")))
  /\ (forall db t, conn_db conn w = Some db -> ledger db = Some t ->
        named_column "version" t = None ->
        out_result (is_schema_up_to_date conn w)
        = inl (Sqlite3Error (NoSuchColumn "version")))
  /\ (forall v, out_result (is_schema_up_to_date conn w) = inr v ->
        exists b, v = PyBool b).
Proof.
  pose proof (is_schema_up_to_date_spec conn w) as Hspec. cbv zeta in Hspec.
  destruct Hspec as (_ & Hr & Hdb & _ & Hframe).
  split; [done|]. split; [done|]. split; [|split].
  - intros db Hc Hl. by rewrite Hr, Hc, Hl.
  - intros db t Hc Hl Hcol. by rewrite Hr, Hc, Hl, Hcol.
  - intros v. rewrite Hr.
    destruct (conn_db conn w) as [db|]; [|done].
    destruct (ledger db) as [t|]; [|done].
    destruct (named_column "version" t) as [vs|]; [|done].
    intros [= <-]. by eexists.
Qed.

(** The two functions agree: on a ledger that is absent or the script's
    own and records no version above SCHEMA_VERSION, a successful
    [create_tables] makes [is_schema_up_to_date] return True. *)
Theorem create_tables_then_up_to_date conn w db :
  conn_db conn w = Some db ->
  script_ledger db ->
  (forall v, v ∈ recorded_versions db -> value_lt (VInt SCHEMA_VERSION) v = false) ->
  out_result (create_tables conn w) = inr tt ->
  out_result (is_schema_up_to_date conn (out_world (create_tables conn w)))
  = inr (PyBool true).
Proof.
  intros Hdb Hsl Hle Hok.
  destruct (create_tables_run conn w db (w_now w) Hdb Hsl) as (d & Hd & Hsl' & Hrows & Hrec).
  assert (at_time (w_now w) w = w) as Hw by by destruct w.
  rewrite Hw in *. specialize (Hrec Hok).
  pose proof (is_schema_up_to_date_spec conn (out_world (create_tables conn w))) as Hspec.
  cbv zeta in Hspec. destruct Hspec as (_ & Hr & _). rewrite Hr, Hd.
  unfold script_ledger in Hsl'. unfold recorded_versions in Hrec.
  destruct (ledger d) as [t|] eqn:Ht; [|by apply elem_of_nil in Hrec].
  assert (recorded_versions d = column_values 0 (t_rows t)) as Hvs
    by by apply recorded_versions_script.
  unfold named_column in *. rewrite Hsl' in *. cbn in Hrec |- *.
  do 2 f_equal. apply eq_int_true, sql_max_is. split; [done|].
  intros v Hv. fold (column_values 0 (t_rows t)) in Hv. rewrite <- Hvs in Hv.
  rewrite (recorded_rows d) in Hv by (unfold script_ledger; by rewrite Ht).
  rewrite (recorded_rows db Hsl) in Hle.
  destruct Hrows as [Hsame|(_ & _ & Hnew)].
  - apply Hle. by rewrite <- Hsame.
  - rewrite Hnew in Hv. unfold column_values in Hv. rewrite map_app in Hv.
    apply elem_of_app in Hv as [Hv|Hv]; [by apply Hle|].
    apply elem_of_cons in Hv as [->|Hv]; [done|by apply elem_of_nil in Hv].
Qed.

Lemma create_tables_then_up_to_date_witness :
  out_result (is_schema_up_to_date main_conn
                (out_world (create_tables main_conn (world_of empty_db))))
  = inr (PyBool true).
Proof.
  apply (create_tables_then_up_to_date main_conn (world_of empty_db) empty_db).
  - vm_compute. reflexivity.
  - vm_compute. exact I.
  - intros v Hv. vm_compute in Hv. by apply elem_of_nil in Hv.
  - vm_compute. reflexivity.
Defined.

(* ===================================================================== *)
(** ** Further properties of [initialize_db] *)
(* ===================================================================== *)

Lemma create_tables_frame conn w p :
  p <> conn_path conn ->
  w_fs (out_world (create_tables conn w)) !! p = w_fs w !! p.
Proof.
  intros Hp. destruct (conn_db conn w) as [db|] eqn:Hdb.
  - destruct (exec_script (conn_foreign_keys conn) (w_now w) create_tables_statements db)
      as [[d issued] r] eqn:Hscript.
    destruct (create_tables_spec _ _ _ _ _ _ Hdb Hscript) as (_ & _ & _ & _ & Hframe).
    by apply Hframe.
  - by rewrite (create_tables_no_database _ _ Hdb).
Qed.

(** [write_metadata] succeeds exactly when the file system lets it. *)
Lemma write_metadata_result cwd w :
  out_result (write_metadata cwd w) = inr tt <-> metadata_writable w.
Proof.
  unfold metadata_writable.
  remember (write_metadata cwd w) as o eqn:Ho.
  unfold write_metadata in Ho.
  rewrite bind_apply in Ho. unfold print at 1 in Ho. cbv beta iota in Ho.
  rewrite bind_apply, write_connection_info in Ho.
  destruct (w_fs w !! "db_connection.txt") as [[|c1|db1]|] eqn:H1; cbv beta iota in Ho.
  { subst o. cbn [out_result]. split; [done|]. by intros [? _]. }
  all: rewrite bind_apply, os_makedirs_spec in Ho.
  all: unfold set_fs at 1 in Ho; cbn [w_fs] in Ho.
  all: rewrite lookup_insert_ne in Ho by done.
  all: destruct (w_fs w !! "db_visualizer") as [[|c2|db2]|] eqn:H2; cbv beta iota in Ho.
  all: try (subst o; cbn [out_result]; split; [done|];
            intros (_ & [?|?] & _); done).
  all: rewrite bind_apply, write_visualizer_env in Ho
         by (unfold set_fs; cbn [w_fs];
             rewrite ?lookup_insert_eq, ?lookup_insert_ne by done; done).
  all: unfold set_fs in Ho; cbn [w_fs w_now] in Ho.
  all: rewrite ?lookup_insert_ne in Ho by done.
  all: destruct (w_fs w !! "db_visualizer/sqlite.env") as [[|c3|db3]|] eqn:H3;
         cbv beta iota in Ho.
  all: try rewrite bind_apply in Ho; unfold print in Ho; cbv beta iota in Ho.
  all: subst o; cbn [out_result].
  all: try (split; [done|]; by intros (_ & _ & ?)).
  all: split; [intros _|done].
  all: split; [done|]; split; [by auto|done].
Qed.

Lemma statements_issued_app t1 t2 :
  statements_issued (t1 ++ t2) = statements_issued t1 ++ statements_issued t2.
Proof. apply omap_app. Qed.

Lemma write_metadata_issues_nothing cwd w :
  statements_issued (out_trace (write_metadata cwd w)) = [].
Proof.
  destruct (write_metadata_spec cwd w) as ([k Hk] & _).
  apply (f_equal statements_issued) in Hk. rewrite statements_issued_app in Hk.
  change (statements_issued (metadata_trace cwd)) with (@nil stmt) in Hk.
  symmetry in Hk. by apply app_eq_nil in Hk as [? _].
Qed.

Lemma write_metadata_keeps_database cwd w conn :
  conn_path conn = DB_NAME ->
  conn_db conn (out_world (write_metadata cwd w)) = conn_db conn w.
Proof.
  intros Hpath. destruct (write_metadata_spec cwd w) as (_ & _ & Hframe & _).
  unfold conn_db. rewrite Hpath. by rewrite Hframe.
Qed.

Lemma connected_frame w p :
  p <> DB_NAME -> w_fs (connected w) !! p = w_fs w !! p.
Proof.
  intros Hp. unfold connected. destruct (w_fs w !! DB_NAME); [done|].
  cbn [set_fs w_fs]. by rewrite lookup_insert_ne.
Qed.

Lemma not_script_path p :
  p ∉ script_paths ->
  p <> DB_NAME /\ p <> "db_connection.txt" /\ p <> "db_visualizer"
  /\ p <> "db_visualizer/sqlite.env".
Proof.
  intros Hp. unfold script_paths in Hp.
  repeat split; intros ->; apply Hp;
    repeat first [apply list_elem_of_here | apply list_elem_of_further].
Qed.

Lemma metadata_writable_transfer w w' :
  (forall p, p <> DB_NAME -> w_fs w' !! p = w_fs w !! p) ->
  metadata_writable w' <-> metadata_writable w.
Proof.
  intros Hframe. unfold metadata_writable.
  by rewrite !Hframe by done.
Qed.

Lemma after_connect_frame cwd t0 w1 p :
  p ∉ script_paths ->
  w_fs (out_world (after_connect cwd t0 w1)) !! p = w_fs w1 !! p.
Proof.
  intros (Hdb & Hp1 & Hp2 & Hp3)%not_script_path. unfold after_connect.
  pose proof (is_schema_up_to_date_spec main_conn w1) as Hcheck. cbv zeta in Hcheck.
  destruct Hcheck as (_ & _ & _ & _ & Hf2). specialize (Hf2 p Hdb).
  destruct (is_schema_up_to_date main_conn w1) as [w2 t2 [e|up]];
    cbn [out_world] in *; [done|].
  destruct (truthy up).
  - destruct (write_metadata_spec cwd w2) as (_ & _ & Hf4 & _).
    specialize (Hf4 p Hp1 Hp2 Hp3).
    destruct (write_metadata cwd w2) as [w4 t4 r]. cbn [out_world] in *. congruence.
  - pose proof (create_tables_frame main_conn w2 p Hdb) as Hf3.
    destruct (create_tables main_conn w2) as [w3 t3 [e|[]]]; cbn [out_world] in *;
      [congruence|].
    destruct (write_metadata_spec cwd w3) as (_ & _ & Hf4 & _).
    specialize (Hf4 p Hp1 Hp2 Hp3).
    destruct (write_metadata cwd w3) as [w4 t4 r]. cbn [out_world] in *. congruence.
Qed.

(** Whatever its outcome, [initialize_db] leaves every path alone except
    myapp.db, db_connection.txt, db_visualizer and
    db_visualizer/sqlite.env. *)
Theorem initialize_db_touches_only cwd w p :
  p ∉ script_paths ->
  w_fs (out_world (initialize_db cwd w)) !! p = w_fs w !! p.
Proof.
  intros Hp. destruct (w_fs w !! DB_NAME) as [n|] eqn:Hn.
  - destruct n.
    + by rewrite initialize_db_unfold, Hn.
    + rewrite initialize_db_after_connect by by rewrite Hn.
      rewrite after_connect_frame by done. apply connected_frame.
      by apply not_script_path in Hp as [? _].
    + rewrite initialize_db_after_connect by by rewrite Hn.
      rewrite after_connect_frame by done. apply connected_frame.
      by apply not_script_path in Hp as [? _].
  - rewrite initialize_db_after_connect by by rewrite Hn.
    rewrite after_connect_frame by done. apply connected_frame.
    by apply not_script_path in Hp as [? _].
Qed.

Lemma initialize_db_touches_only_witness :
  w_fs (out_world (initialize_db "/srv/app" (world_of installed_db))) !! "notes.txt"
  = w_fs (world_of installed_db) !! "notes.txt".
Proof.
  apply (initialize_db_touches_only "/srv/app" (world_of installed_db) "notes.txt").
  unfold script_paths. intros H.
  repeat (apply elem_of_cons in H as [H|H]; [discriminate|]).
  by apply elem_of_nil in H.
Defined.

Lemma after_connect_success cwd t0 w1 :
  out_result (after_connect cwd t0 w1) = inr tt ->
  metadata_writable w1.
Proof.
  unfold after_connect.
  pose proof (is_schema_up_to_date_spec main_conn w1) as Hcheck. cbv zeta in Hcheck.
  destruct Hcheck as (_ & _ & _ & _ & Hf2).
  destruct (is_schema_up_to_date main_conn w1) as [w2 t2 [e|up]];
    cbn [out_world out_result] in *; [done|].
  destruct (truthy up).
  - pose proof (write_metadata_result cwd w2) as Hres.
    destruct (write_metadata cwd w2) as [w4 t4 r]. cbn [out_result] in *.
    intros Hr. apply Hres in Hr. by apply (metadata_writable_transfer w1 w2).
  - pose proof (create_tables_frame main_conn w2) as Hf3.
    destruct (create_tables main_conn w2) as [w3 t3 [e|[]]];
      cbn [out_world out_result] in *; [done|].
    pose proof (write_metadata_result cwd w3) as Hres.
    destruct (write_metadata cwd w3) as [w4 t4 r]. cbn [out_result] in *.
    intros Hr. apply Hres in Hr. apply (metadata_writable_transfer w1 w2); [done|].
    by apply (metadata_writable_transfer w2 w3).
Qed.

(** [initialize_db] cannot complete unless the file system lets it:
    myapp.db must not be a directory, neither metadata file may be a
    directory, and db_visualizer must be a directory or not exist. *)
Theorem initialize_db_needs_writable cwd w :
  out_result (initialize_db cwd w) = inr tt ->
  w_fs w !! DB_NAME <> Some Dir /\ metadata_writable w.
Proof.
  intros Hok.
  assert (w_fs w !! DB_NAME <> Some Dir) as Hn.
  { intros Hn. by rewrite initialize_db_unfold, Hn in Hok. }
  split; [done|]. rewrite initialize_db_after_connect in Hok by done.
  apply after_connect_success in Hok.
  apply (metadata_writable_transfer w (connected w)); [|done].
  intros p Hp. by apply connected_frame.
Qed.

Lemma initialize_db_needs_writable_witness :
  w_fs (world_of installed_db) !! DB_NAME <> Some Dir
  /\ metadata_writable (world_of installed_db).
Proof.
  apply (initialize_db_needs_writable "/srv/app" (world_of installed_db)).
  vm_compute. reflexivity.
Defined.

(** On a database that [is_schema_up_to_date] finds up to date,
    [initialize_db] sends the database nothing but the pragma and the
    ledger query, leaves the database as it is, and completes exactly
    when the file system lets the metadata files be written. *)
Theorem initialize_db_on_up_to_date cwd w db :
  conn_db main_conn w = Some db ->
  out_result (is_schema_up_to_date main_conn w) = inr (PyBool true) ->
  statements_issued (out_trace (initialize_db cwd w))
    = [PragmaForeignKeys true; check_ledger]
  /\ conn_db main_conn (out_world (initialize_db cwd w)) = Some db
  /\ (out_result (initialize_db cwd w) = inr tt <-> metadata_writable w).
Proof.
  intros Hdb Hup.
  assert (w_fs w !! DB_NAME <> Some Dir) as Hn.
  { unfold conn_db in Hdb. cbn [main_conn conn_path] in Hdb.
    intros Hn. by rewrite Hn in Hdb. }
  rewrite initialize_db_after_connect by done.
  rewrite (conn_db_connected _ _ Hdb). unfold after_connect.
  pose proof (is_schema_up_to_date_spec main_conn w) as Hcheck. cbv zeta in Hcheck.
  destruct Hcheck as (Ht2 & _ & Hdb2 & _ & Hf2).
  destruct (is_schema_up_to_date main_conn w) as [w2 t2 r2].
  cbn [out_world out_result out_trace] in *. subst r2 t2. cbn [truthy].
  pose proof (write_metadata_issues_nothing cwd w2) as Hnone.
  pose proof (write_metadata_keeps_database cwd w2 main_conn eq_refl) as Hkeep.
  pose proof (write_metadata_result cwd w2) as Hres.
  destruct (write_metadata cwd w2) as [w4 t4 r4].
  cbn [out_world out_result out_trace] in *.
  split; [|split].
  - rewrite !statements_issued_app, Hnone. reflexivity.
  - congruence.
  - rewrite Hres. by apply metadata_writable_transfer.
Qed.

Lemma initialize_db_on_up_to_date_witness :
  statements_issued (out_trace (initialize_db "/srv/app" (world_of installed_db)))
    = [PragmaForeignKeys true; check_ledger]
  /\ conn_db main_conn (out_world (initialize_db "/srv/app" (world_of installed_db)))
     = Some installed_db
  /\ (out_result (initialize_db "/srv/app" (world_of installed_db)) = inr tt
      <-> metadata_writable (world_of installed_db)).
Proof.
  apply (initialize_db_on_up_to_date "/srv/app" (world_of installed_db) installed_db);
    vm_compute; reflexivity.
Defined.

Lemma write_metadata_again cwd w :
  metadata_written cwd w ->
  out_result (write_metadata cwd w) = inr tt
  /\ forall p, w_fs (out_world (write_metadata cwd w)) !! p = w_fs w !! p.
Proof.
  intros (H1 & H2 & H3).
  assert (out_result (write_metadata cwd w) = inr tt) as Hok.
  { apply write_metadata_result. unfold metadata_writable.
    rewrite H1, H2, H3. by repeat split; auto. }
  split; [done|]. intros p.
  destruct (write_metadata_spec cwd w) as (_ & _ & Hframe & Hdone).
  destruct (Hdone Hok) as (_ & Hp1 & Hp2 & Hp3).
  destruct (decide (p = "db_connection.txt")) as [->|Hn1]; [congruence|].
  destruct (decide (p = "db_visualizer")) as [->|Hn2]; [congruence|].
  destruct (decide (p = "db_visualizer/sqlite.env")) as [->|Hn3]; [congruence|].
  by apply Hframe.
Qed.

Lemma metadata_written_transfer cwd w w' :
  (forall p, p <> DB_NAME -> w_fs w' !! p = w_fs w !! p) ->
  metadata_written cwd w -> metadata_written cwd w'.
Proof.
  intros Hframe. unfold metadata_written. by rewrite !Hframe by done.
Qed.

Lemma script_ledger_readable d :
  script_ledger d ->
  VInt SCHEMA_VERSION ∈ recorded_versions d ->
  exists t vs, ledger d = Some t /\ named_column "version" t = Some vs.
Proof.
  unfold script_ledger, recorded_versions. intros Hsl Hrec.
  destruct (ledger d) as [t|]; [|by apply elem_of_nil in Hrec].
  exists t. unfold named_column. rewrite Hsl. by eexists.
Qed.

(** What a complete run of [initialize_db] leaves behind. *)
Lemma initialize_db_leaves cwd w db :
  conn_db main_conn w = Some db ->
  script_ledger db ->
  out_result (initialize_db cwd w) = inr tt ->
  exists d,
    conn_db main_conn (out_world (initialize_db cwd w)) = Some d
    /\ rerunnable d
    /\ metadata_written cwd (out_world (initialize_db cwd w)).
Proof.
  intros Hdb Hsl.
  assert (w_fs w !! DB_NAME <> Some Dir) as Hn.
  { unfold conn_db in Hdb. cbn [main_conn conn_path] in Hdb.
    intros Hn. by rewrite Hn in Hdb. }
  rewrite initialize_db_after_connect by done.
  rewrite (conn_db_connected _ _ Hdb). unfold after_connect.
  pose proof (is_schema_up_to_date_spec main_conn w) as Hcheck. cbv zeta in Hcheck.
  destruct Hcheck as (_ & Hr & Hdb2 & _).
  destruct (is_schema_up_to_date main_conn w) as [w2 t2 [e|up]];
    cbn [out_world out_result] in *; [done|].
  rewrite Hdb in Hr, Hdb2.
  destruct (ledger db) as [t|] eqn:Hl; [|done].
  destruct (named_column "version" t) as [vs|] eqn:Hvs; [|done].
  injection Hr as ->.
  destruct (eq_int (sql_max vs) SCHEMA_VERSION) eqn:Hb; cbn [truthy].
  - pose proof (write_metadata_spec cwd w2) as (_ & _ & _ & Hdone).
    pose proof (write_metadata_keeps_database cwd w2 main_conn eq_refl) as Hkeep.
    destruct (write_metadata cwd w2) as [w4 t4 r4].
    cbn [out_world out_result out_trace] in *. intros Hok.
    exists db. split; [congruence|]. split; [|by apply Hdone].
    split; [by exists t, vs|].
    intros t' vs' Ht' Hvs' Hfalse. congruence.
  - pose proof (create_tables_frame main_conn w2) as Hf3.
    destruct (exec_script (conn_foreign_keys main_conn) (w_now w2)
                create_tables_statements db) as [[d issued] r] eqn:Hscript.
    destruct (create_tables_spec _ _ _ _ _ _ Hdb2 Hscript) as (_ & Hres & Hd & _).
    destruct (create_tables main_conn w2) as [w3 t3 [e|[]]];
      cbn [out_world out_result] in *; [done|].
    destruct r as [e|]; [done|].
    pose proof (write_metadata_spec cwd w3) as (_ & _ & _ & Hdone).
    pose proof (write_metadata_keeps_database cwd w3 main_conn eq_refl) as Hkeep.
    destruct (write_metadata cwd w3) as [w4 t4 r4].
    cbn [out_world out_result out_trace] in *. intros Hok.
    exists d. split; [congruence|]. split; [|by apply Hdone].
    destruct (create_tables_ledger _ _ _ _ _ _ Hsl Hscript) as (Hsl' & _ & Hrec).
    split; [by apply script_ledger_readable, Hrec|].
    intros _ _ _ _ _ now. exact (rerun true (w_now w2) now db d issued Hsl Hscript).
Qed.

(** A run of [initialize_db] on what a complete run left. *)
Lemma initialize_db_rerun cwd w d :
  conn_db main_conn w = Some d ->
  rerunnable d ->
  metadata_written cwd w ->
  out_result (initialize_db cwd w) = inr tt
  /\ conn_db main_conn (out_world (initialize_db cwd w)) = Some d
  /\ forall p, p <> DB_NAME ->
       w_fs (out_world (initialize_db cwd w)) !! p = w_fs w !! p.
Proof.
  intros Hdb [(t & vs & Hl & Hvs) Hrerun] Hmeta.
  assert (w_fs w !! DB_NAME <> Some Dir) as Hn.
  { unfold conn_db in Hdb. cbn [main_conn conn_path] in Hdb.
    intros Hn. by rewrite Hn in Hdb. }
  rewrite initialize_db_after_connect by done.
  rewrite (conn_db_connected _ _ Hdb). unfold after_connect.
  pose proof (is_schema_up_to_date_spec main_conn w) as Hcheck. cbv zeta in Hcheck.
  destruct Hcheck as (_ & Hr & Hdb2 & _ & Hf2).
  destruct (is_schema_up_to_date main_conn w) as [w2 t2 r2].
  cbn [out_world out_result] in *. rewrite Hdb, Hl, Hvs in Hr. subst r2.
  rewrite Hdb in Hdb2. cbn [main_conn conn_path] in Hf2.
  destruct (eq_int (sql_max vs) SCHEMA_VERSION) eqn:Hb; cbn [truthy].
  - destruct (write_metadata_again cwd w2) as [Hok Hsame];
      [by apply (metadata_written_transfer cwd w)|].
    destruct (write_metadata cwd w2) as [w4 t4 r4].
    cbn [out_world out_result] in *. split; [done|]. split.
    + unfold conn_db in *. by rewrite Hsame.
    + intros p Hp. rewrite Hsame. by apply Hf2.
  - specialize (Hrerun t vs Hl Hvs Hb (w_now w2)).
    destruct (create_tables_spec main_conn w2 d _ _ _ Hdb2 Hrerun)
      as (_ & Hres & Hd & _ & Hf3).
    destruct (create_tables main_conn w2) as [w3 t3 r3].
    cbn [out_world out_result] in *. subst r3. cbn [main_conn conn_path] in Hf3.
    destruct (write_metadata_again cwd w3) as [Hok Hsame].
    { apply (metadata_written_transfer cwd w2); [done|].
      by apply (metadata_written_transfer cwd w). }
    destruct (write_metadata cwd w3) as [w4 t4 r4].
    cbn [out_world out_result] in *. split; [done|]. split.
    + unfold conn_db in *. by rewrite Hsame.
    + intros p Hp. rewrite Hsame, Hf3 by done. by apply Hf2.
Qed.

(** [initialize_db] is idempotent on a ledger of the script's own: after
    a complete run, a second run, at whatever time, completes as well and
    leaves the database and every file as the first run left them. *)
Theorem initialize_db_idempotent cwd w db now' :
  conn_db main_conn w = Some db ->
  script_ledger db ->
  out_result (initialize_db cwd w) = inr tt ->
  let w1 := at_time now' (out_world (initialize_db cwd w)) in
  out_result (initialize_db cwd w1) = inr tt
  /\ conn_db main_conn (out_world (initialize_db cwd w1)) = conn_db main_conn w1
  /\ forall p, p <> DB_NAME ->
       w_fs (out_world (initialize_db cwd w1)) !! p = w_fs w1 !! p.
Proof.
  intros Hdb Hsl Hok w1.
  destruct (initialize_db_leaves cwd w db Hdb Hsl Hok) as (d & Hd & Hre & Hmeta).
  assert (conn_db main_conn w1 = Some d) as Hd1 by done.
  destruct (initialize_db_rerun cwd w1 d Hd1 Hre Hmeta) as (Hok1 & Hdb1 & Hframe).
  split; [done|]. split; [congruence|done].
Qed.

Lemma initialize_db_idempotent_witness :
  let w1 := at_time "2024-06-01 08:00:00"
              (out_world (initialize_db "/srv/app" (world_of newer_ledger_db))) in
  out_result (initialize_db "/srv/app" w1) = inr tt
  /\ conn_db main_conn (out_world (initialize_db "/srv/app" w1)) = conn_db main_conn w1
  /\ forall p, p <> DB_NAME ->
       w_fs (out_world (initialize_db "/srv/app" w1)) !! p = w_fs w1 !! p.
Proof.
  apply (initialize_db_idempotent "/srv/app" (world_of newer_ledger_db) newer_ledger_db
           "2024-06-01 08:00:00"); vm_compute; reflexivity.
Defined.

(* ===================================================================== *)
(** ** A run that stops half way *)
(* ===================================================================== *)

(** [create_tables] is not all-or-nothing.  On a database whose [users]
    table has no username column (the ledger and the index name being
    free), it raises "no such column: username" at the third statement,
    without reaching the commit: the ledger has been created by then and
    stays, empty, while nothing else has changed. *)
Theorem create_tables_stops_at_users_index conn w db t :
  conn_db conn w = Some db ->
  name_free db "schema_migrations" ->
  name_free db "idx_users_username" ->
  db_tables db !! "users" = Some t ->
  col_index "username" (td_columns (t_def t)) = None ->
  out_result (create_tables conn w) = inl (Sqlite3Error (NoSuchColumn "username"))
  /\ out_trace (create_tables conn w)
     = [ EvExecute (CreateTableIfNotExists "schema_migrations" schema_migrations_def);
         EvExecute (CreateTableIfNotExists "users" users_def);
         EvExecute (CreateIndexIfNotExists "idx_users_username" "users" ["username"]) ]
  /\ exists d,
       conn_db conn (out_world (create_tables conn w)) = Some d
       /\ ledger d = Some (Table schema_migrations_def [])
       /\ (forall n, n <> "schema_migrations" -> db_tables d !! n = db_tables db !! n)
       /\ db_indices d = db_indices db.
Proof.
  intros Hdb [Hl1 Hl2] [Hi1 Hi2] Hu Hcol.
  destruct (exec_script (conn_foreign_keys conn) (w_now w) create_tables_statements db)
    as [[d issued] r] eqn:Hscript.
  destruct (create_tables_spec _ _ _ _ _ _ Hdb Hscript) as (Ht & Hres & Hd & _).
  unfold create_tables_statements, ddl_statements in Hscript. cbn [app] in Hscript.
  rewrite exec_script_cons, exec_create_table_fresh in Hscript by done.
  rewrite exec_script_cons in Hscript. cbn [exec_stmt] in Hscript.
  unfold exec_create_table in Hscript. cbn [db_tables db_indices] in Hscript.
  rewrite lookup_insert_ne, Hu in Hscript by done.
  rewrite exec_script_cons in Hscript. cbn [exec_stmt] in Hscript.
  unfold exec_create_index in Hscript. cbn [db_tables db_indices] in Hscript.
  rewrite !lookup_insert_ne, Hu, Hi1, Hi2 in Hscript by done.
  cbn [first_error] in Hscript. rewrite Hcol in Hscript.
  injection Hscript as <- <- <-.
  rewrite Ht, Hres. split; [done|]. split; [done|].
  eexists. split; [exact Hd|]. unfold ledger. cbn [db_tables db_indices].
  split; [by rewrite lookup_insert_eq|]. split; [|done].
  intros n Hn. by rewrite lookup_insert_ne.
Qed.

Lemma create_tables_stops_at_users_index_witness :
  out_result (create_tables main_conn (world_of foreign_users_db))
  = inl (Sqlite3Error (NoSuchColumn "username")).
Proof.
  apply (create_tables_stops_at_users_index main_conn (world_of foreign_users_db)
           foreign_users_db
           (Table (TableDef [Column "id" INTEGER true false false false None None;
                             Column "email" TEXT false false true true None None] [])
                  [[VInt 1; VText "ann@example.org"]]));
    first [ vm_compute; reflexivity
          | split; vm_compute; reflexivity ].
Defined.

(** On a database that [is_schema_up_to_date] finds outdated,
    [initialize_db] does to the database what [create_tables] does, and
    completes exactly when [create_tables] succeeds and the file system
    lets the metadata files be written. *)
Theorem initialize_db_on_outdated cwd w db :
  conn_db main_conn w = Some db ->
  out_result (is_schema_up_to_date main_conn w) = inr (PyBool false) ->
  conn_db main_conn (out_world (initialize_db cwd w))
    = conn_db main_conn (out_world (create_tables main_conn w))
  /\ (out_result (initialize_db cwd w) = inr tt
      <-> out_result (create_tables main_conn w) = inr tt /\ metadata_writable w).
Proof.
  intros Hdb Hup.
  assert (w_fs w !! DB_NAME <> Some Dir) as Hn.
  { unfold conn_db in Hdb. cbn [main_conn conn_path] in Hdb.
    intros Hn. by rewrite Hn in Hdb. }
  rewrite initialize_db_after_connect by done.
  rewrite (conn_db_connected _ _ Hdb). unfold after_connect.
  pose proof (is_schema_up_to_date_spec main_conn w) as Hcheck. cbv zeta in Hcheck.
  destruct Hcheck as (_ & _ & Hdb2 & Hnow2 & Hf2).
  destruct (is_schema_up_to_date main_conn w) as [w2 t2 r2].
  cbn [out_world out_result] in *. subst r2. cbn [truthy].
  rewrite Hdb in Hdb2. cbn [main_conn conn_path] in Hf2.
  destruct (exec_script (conn_foreign_keys main_conn) (w_now w)
              create_tables_statements db) as [[d issued] r] eqn:Hscript.
  destruct (create_tables_spec _ _ _ _ _ _ Hdb Hscript) as (_ & Hres & Hd & _).
  rewrite <- Hnow2 in Hscript.
  destruct (create_tables_spec _ _ _ _ _ _ Hdb2 Hscript) as (_ & Hres2 & Hd2 & _ & Hf3).
  rewrite Hres, Hd. cbn [main_conn conn_path] in Hf3.
  destruct (create_tables main_conn w2) as [w3 t3 r3].
  cbn [out_world out_result] in *. subst r3.
  destruct r as [e|].
  - cbn [out_world out_result]. split; [done|]. split; [done|]. by intros [? _].
  - pose proof (write_metadata_result cwd w3) as Hmeta.
    pose proof (write_metadata_keeps_database cwd w3 main_conn eq_refl) as Hkeep.
    destruct (write_metadata cwd w3) as [w4 t4 r4].
    cbn [out_world out_result] in *. split; [congruence|].
    rewrite Hmeta.
    rewrite (metadata_writable_transfer w2 w3) by done.
    rewrite (metadata_writable_transfer w w2) by done.
    split; [done|]. by intros [_ ?].
Qed.

Lemma initialize_db_on_outdated_witness :
  conn_db main_conn (out_world (initialize_db "/srv/app" (world_of newer_ledger_db)))
    = conn_db main_conn (out_world (create_tables main_conn (world_of newer_ledger_db)))
  /\ (out_result (initialize_db "/srv/app" (world_of newer_ledger_db)) = inr tt
      <-> out_result (create_tables main_conn (world_of newer_ledger_db)) = inr tt
          /\ metadata_writable (world_of newer_ledger_db)).
Proof.
  apply (initialize_db_on_outdated "/srv/app" (world_of newer_ledger_db) newer_ledger_db);
    vm_compute; reflexivity.
Defined.

(* ===================================================================== *)
(** ** When the DDL is applied *)
(* ===================================================================== *)

Lemma statements_issued_execute qs : statements_issued (map EvExecute qs) = qs.
Proof.
  induction qs as [|q qs IH]; [done|].
  change (q :: statements_issued (map EvExecute qs) = q :: qs). by rewrite IH.
Qed.

(** What [create_tables] sends is what the script issues on the
    database. *)
Lemma create_tables_issues conn w db d issued r :
  conn_db conn w = Some db ->
  exec_script (conn_foreign_keys conn) (w_now w) create_tables_statements db
    = (d, issued, r) ->
  statements_issued (out_trace (create_tables conn w)) = issued.
Proof.
  intros Hdb Hscript.
  destruct (create_tables_spec _ _ _ _ _ _ Hdb Hscript) as (-> & _).
  rewrite statements_issued_app, statements_issued_execute.
  destruct r; cbn; by rewrite app_nil_r.
Qed.

(** The statement a script stops at fails on the database it leaves. *)
Lemma exec_script_fails fk now qs db d issued e :
  exec_script fk now qs db = (d, issued, Some e) ->
  exists q, q ∈ qs /\ exec_stmt fk now q d = inl e.
Proof.
  revert db d issued. induction qs as [|q qs IH]; intros db d issued; simpl; [done|].
  destruct (exec_stmt fk now q db) as [e'|[db' rows]] eqn:Hstep.
  - intros [= <- _ <-]. exists q. split; [apply list_elem_of_here|done].
  - destruct (exec_script fk now qs db') as [[d' i'] r'] eqn:Hrec.
    intros [= <- _ ->]. destruct (IH _ _ _ Hrec) as (q' & Hin & Hex).
    exists q'. split; [by apply list_elem_of_further|done].
Qed.

Lemma filter_prefix {A} (f : A -> bool) (l1 l2 : list A) :
  l1 `prefix_of` l2 -> List.filter f l1 `prefix_of` List.filter f l2.
Proof. intros [k ->]. rewrite List.filter_app. by eexists. Qed.

(** [initialize_db] on a database whose ledger can be read: after the
    pragma and the ledger query it sends nothing more when the largest
    version is SCHEMA_VERSION, and otherwise what [create_tables] sends, to
    the same effect on the database. *)
Lemma initialize_db_gate cwd w db t vs :
  conn_db main_conn w = Some db ->
  ledger db = Some t ->
  named_column "version" t = Some vs ->
  if eq_int (sql_max vs) SCHEMA_VERSION
  then statements_issued (out_trace (initialize_db cwd w))
       = [PragmaForeignKeys true; check_ledger]
       /\ conn_db main_conn (out_world (initialize_db cwd w)) = Some db
  else statements_issued (out_trace (initialize_db cwd w))
       = [PragmaForeignKeys true; check_ledger]
         ++ statements_issued (out_trace (create_tables main_conn w))
       /\ conn_db main_conn (out_world (initialize_db cwd w))
          = conn_db main_conn (out_world (create_tables main_conn w))
       /\ (forall e, out_result (create_tables main_conn w) = inl e ->
             out_result (initialize_db cwd w) = inl e).
Proof.
  intros Hdb Hl Hvs.
  assert (w_fs w !! DB_NAME <> Some Dir) as Hn.
  { unfold conn_db in Hdb. cbn [main_conn conn_path] in Hdb.
    intros Hn. by rewrite Hn in Hdb. }
  rewrite initialize_db_after_connect by done.
  rewrite (conn_db_connected _ _ Hdb). unfold after_connect.
  pose proof (is_schema_up_to_date_spec main_conn w) as Hcheck. cbv zeta in Hcheck.
  destruct Hcheck as (Ht2 & Hr2 & Hdb2 & Hnow2 & _).
  rewrite Hdb, Hl, Hvs in Hr2. rewrite Hdb in Hdb2.
  destruct (is_schema_up_to_date main_conn w) as [w2 t2 r2].
  cbn [out_world out_result out_trace] in *. subst r2 t2. cbn [truthy].
  assert (statements_issued (opening cwd w) = [PragmaForeignKeys true]) as Hopen
    by reflexivity.
  destruct (eq_int (sql_max vs) SCHEMA_VERSION).
  - pose proof (write_metadata_issues_nothing cwd w2) as Hnone.
    pose proof (write_metadata_keeps_database cwd w2 main_conn eq_refl) as Hkeep.
    destruct (write_metadata cwd w2) as [w4 t4 r4].
    cbn [out_world out_result out_trace] in *.
    split; [|congruence].
    rewrite !statements_issued_app, Hopen, Hnone. reflexivity.
  - destruct (exec_script (conn_foreign_keys main_conn) (w_now w)
                create_tables_statements db) as [[d issued] r] eqn:Hscript.
    rewrite (create_tables_issues _ _ _ _ _ _ Hdb Hscript).
    destruct (create_tables_spec _ _ _ _ _ _ Hdb Hscript) as (_ & Hres & Hd & _).
    rewrite <- Hnow2 in Hscript.
    pose proof (create_tables_issues _ _ _ _ _ _ Hdb2 Hscript) as Hiss2.
    destruct (create_tables_spec _ _ _ _ _ _ Hdb2 Hscript) as (_ & Hres2 & Hd2 & _).
    rewrite Hres, Hd.
    destruct (create_tables main_conn w2) as [w3 t3 r3].
    cbn [out_world out_result out_trace] in *. subst r3.
    destruct r as [e|].
    + cbn [out_world out_result out_trace].
      rewrite !statements_issued_app, Hopen, Hiss2.
      split; [reflexivity|]. split; [done|]. by intros e' [= <-].
    + pose proof (write_metadata_issues_nothing cwd w3) as Hnone.
      pose proof (write_metadata_keeps_database cwd w3 main_conn eq_refl) as Hkeep.
      destruct (write_metadata cwd w3) as [w4 t4 r4].
      cbn [out_world out_result out_trace] in *.
      rewrite !statements_issued_app, Hopen, Hiss2, Hnone.
      split; [by rewrite app_nil_r|]. split; [congruence|]. discriminate.
Qed.

Lemma record_version_clashes_not q : clashes q record_version = false.
Proof. by destruct q. Qed.

(** What the script's statements come to on a database. *)
Lemma create_tables_script fk now db :
  match exec_script fk now ddl_statements db with
  | (d1, issued1, Some e) =>
      exec_script fk now create_tables_statements db = (d1, issued1, Some e)
      /\ exists q, q ∈ ddl_statements /\ exec_stmt fk now q d1 = inl e
  | (d1, issued1, None) =>
      issued1 = ddl_statements
      /\ exists d r,
           exec_script fk now create_tables_statements db
           = (d, ddl_statements ++ [record_version], r)
           /\ Forall (fun q => settled q d) ddl_statements
  end.
Proof.
  unfold create_tables_statements. rewrite exec_script_app.
  destruct (exec_script fk now ddl_statements db) as [[d1 issued1] [e|]] eqn:Hddl.
  - split; [done|]. by eapply exec_script_fails.
  - destruct (exec_script_issued _ _ _ _ _ _ _ Hddl) as [_ Hall].
    rewrite (Hall eq_refl) in *. split; [done|].
    pose proof (exec_script_settles fk now ddl_statements db d1 ddl_statements
                  eq_refl eq_refl Hddl) as Hs.
    assert (exists d r, exec_script fk now [record_version] d1 = (d, [record_version], r))
      as (d & r & Hrv).
    { rewrite exec_script_cons.
      destruct (exec_stmt fk now record_version d1) as [e|[d rows]]; by eexists _, _. }
    rewrite Hrv. exists d, r. split; [done|].
    eapply Forall_impl; [exact Hs|]. intros q Hq. cbv beta in *.
    eapply exec_script_settled_stable; [exact Hq|exact Hrv|].
    cbn [forallb]. by rewrite record_version_clashes_not.
Qed.

(** C2, as the code has it.  On a database whose ledger has its version
    column, [initialize_db] asks the ledger for its largest version
    before it asks anything else of the database.  When that version is
    SCHEMA_VERSION it sends no DDL statement and leaves the database as
    it is.  When it is not, which is when [is_schema_up_to_date] returns
    False, it runs [create_tables]: the DDL statements are sent in the
    order of the script, up to the first that fails, whose error ends
    the run.  So the DDL
    statements are applied, all eight with each taking effect, if and
    only if the largest recorded version is not SCHEMA_VERSION and none
    of them fails on the database. *)
Theorem initialize_db_applies_ddl_iff_outdated cwd w db t vs :
  conn_db main_conn w = Some db ->
  ledger db = Some t ->
  named_column "version" t = Some vs ->
  [PragmaForeignKeys true; check_ledger]
    `prefix_of` statements_issued (out_trace (initialize_db cwd w))
  /\ (out_result (is_schema_up_to_date main_conn w) = inr (PyBool false)
      <-> ~ is_maximum (VInt SCHEMA_VERSION) vs)
  /\ (is_maximum (VInt SCHEMA_VERSION) vs ->
      ddl_sent (out_trace (initialize_db cwd w)) = []
      /\ conn_db main_conn (out_world (initialize_db cwd w)) = Some db)
  /\ (~ is_maximum (VInt SCHEMA_VERSION) vs ->
      statements_issued (out_trace (initialize_db cwd w))
      = [PragmaForeignKeys true; check_ledger]
        ++ statements_issued (out_trace (create_tables main_conn w))
      /\ conn_db main_conn (out_world (initialize_db cwd w))
         = conn_db main_conn (out_world (create_tables main_conn w))
      /\ ddl_sent (out_trace (initialize_db cwd w)) <> []
      /\ ddl_sent (out_trace (initialize_db cwd w)) `prefix_of` ddl_statements
      /\ (forall e, out_result (create_tables main_conn w) = inl e ->
            out_result (initialize_db cwd w) = inl e))
  /\ (applies_ddl (initialize_db cwd w)
      <-> ~ is_maximum (VInt SCHEMA_VERSION) vs /\ ddl_goes_through (w_now w) db).
Proof.
  intros Hdb Hl Hvs.
  pose proof (initialize_db_gate cwd w db t vs Hdb Hl Hvs) as Hgate.
  pose proof (is_schema_up_to_date_spec main_conn w) as Hcheck. cbv zeta in Hcheck.
  destruct Hcheck as (_ & Hr & _). rewrite Hdb, Hl, Hvs in Hr. rewrite Hr.
  rewrite <- sql_max_is, <- eq_int_true.
  destruct (exec_script true (w_now w) create_tables_statements db)
    as [[d issued] r] eqn:Hscript.
  pose proof (create_tables_issues main_conn w db d issued r Hdb Hscript) as Hiss.
  destruct (create_tables_spec main_conn w db d issued r Hdb Hscript)
    as (_ & _ & Hd & _).
  destruct (exec_script_issued _ _ _ _ _ _ _ Hscript) as [Hpre _].
  pose proof (create_tables_script true (w_now w) db) as Hcs.
  unfold ddl_goes_through, applies_ddl, ddl_sent.
  destruct (eq_int (sql_max vs) SCHEMA_VERSION).
  - destruct Hgate as [Hsent Hsame]. rewrite Hsent, Hsame.
    split; [done|]. split; [split; [done|by intros []]|].
    split; [done|]. split; [by intros []|].
    split; [by intros [[=] _]|by intros [[] _]].
  - destruct Hgate as (Hsent & Hsame & Hraise). rewrite Hsent, Hsame, Hiss, Hd.
    split; [by eexists|]. split; [split; [by intros _ ?|done]|].
    split; [done|]. split.
    { intros _. split; [done|]. split; [done|]. split; [|split; [|done]].
      - destruct Hpre as [k Hk]. destruct issued as [|q issued]; [|].
        + unfold create_tables_statements, ddl_statements in Hscript.
          cbn [app] in Hscript. rewrite exec_script_cons in Hscript.
          destruct (exec_stmt _ _ _ db) as [e|[db' rows]]; [done|].
          by destruct (exec_script _ _ _ db') as [[? ?] ?].
        + unfold create_tables_statements, ddl_statements in Hk. cbn [app] in Hk.
          injection Hk as <- _. done.
      - change (List.filter is_ddl issued
                `prefix_of` List.filter is_ddl create_tables_statements).
        by apply filter_prefix. }
    destruct (exec_script true (w_now w) ddl_statements db)
      as [[d1 issued1] [e|]] eqn:Hddl; cbn [snd].
    + destruct Hcs as [Hfull (q & Hq & Hfail)].
      rewrite Hscript in Hfull. injection Hfull as -> -> ->.
      split; [|by intros [_ [=]]].
      intros (_ & d' & [= <-] & Hs). exfalso.
      rewrite Forall_forall in Hs. specialize (Hs q Hq).
      assert (is_ddl q = true) as Hqd.
      { assert (forallb is_ddl ddl_statements = true) as Hall by reflexivity.
        rewrite forallb_forall in Hall. apply Hall. by apply list_elem_of_In. }
      by rewrite (settled_noop _ _ _ _ Hqd Hs) in Hfail.
    + destruct Hcs as (_ & d' & r' & Hfull & Hs).
      rewrite Hscript in Hfull. injection Hfull as -> -> ->.
      split; [intros _; by split|]. intros _. split; [reflexivity|]. by exists d'.
Qed.

(** C2 fails as stated: a ledger that records versions 1 and 2 does record
    the current version, and yet the DDL statements are applied again,
    all eight of them, because the check compares the largest version. *)
Lemma initialize_db_reapplies_under_newer_version :
  recorded_versions newer_ledger_db = [VInt SCHEMA_VERSION; VInt 2]
  /\ out_result (is_schema_up_to_date main_conn (world_of newer_ledger_db))
     = inr (PyBool false)
  /\ applies_ddl (initialize_db "/srv/app" (world_of newer_ledger_db)).
Proof.
  split; [vm_compute; reflexivity|]. split; [vm_compute; reflexivity|].
  split; [vm_compute; reflexivity|].
  eexists. split; [vm_compute; reflexivity|].
  repeat (constructor;
          [cbn [settled]; repeat split;
           first [vm_compute; reflexivity | eexists; vm_compute; reflexivity]|]).
  constructor.
Qed.

Lemma initialize_db_applies_ddl_iff_outdated_witness :
  [PragmaForeignKeys true; check_ledger]
    `prefix_of` statements_issued
                  (out_trace (initialize_db "/srv/app" (world_of installed_db)))
  /\ (out_result (is_schema_up_to_date main_conn (world_of installed_db))
      = inr (PyBool false)
      <-> ~ is_maximum (VInt SCHEMA_VERSION) [VInt 1])
  /\ (is_maximum (VInt SCHEMA_VERSION) [VInt 1] ->
      ddl_sent (out_trace (initialize_db "/srv/app" (world_of installed_db))) = []
      /\ conn_db main_conn (out_world (initialize_db "/srv/app" (world_of installed_db)))
         = Some installed_db)
  /\ (~ is_maximum (VInt SCHEMA_VERSION) [VInt 1] ->
      statements_issued (out_trace (initialize_db "/srv/app" (world_of installed_db)))
      = [PragmaForeignKeys true; check_ledger]
        ++ statements_issued (out_trace (create_tables main_conn (world_of installed_db)))
      /\ conn_db main_conn (out_world (initialize_db "/srv/app" (world_of installed_db)))
         = conn_db main_conn (out_world (create_tables main_conn (world_of installed_db)))
      /\ ddl_sent (out_trace (initialize_db "/srv/app" (world_of installed_db))) <> []
      /\ ddl_sent (out_trace (initialize_db "/srv/app" (world_of installed_db)))
         `prefix_of` ddl_statements
      /\ (forall e,
            out_result (create_tables main_conn (world_of installed_db)) = inl e ->
            out_result (initialize_db "/srv/app" (world_of installed_db)) = inl e))
  /\ (applies_ddl (initialize_db "/srv/app" (world_of installed_db))
      <-> ~ is_maximum (VInt SCHEMA_VERSION) [VInt 1]
          /\ ddl_goes_through (w_now (world_of installed_db)) installed_db).
Proof.
  apply (initialize_db_applies_ddl_iff_outdated "/srv/app" (world_of installed_db)
           installed_db installed_ledger [VInt 1]); vm_compute; reflexivity.
Defined.

(* ===================================================================== *)
(** ** The order of the steps *)
(* ===================================================================== *)

(** A run of [create_tables] that succeeds sends the whole script. *)
Lemma create_tables_sends_all conn w :
  out_result (create_tables conn w) = inr tt ->
  statements_issued (out_trace (create_tables conn w)) = create_tables_statements.
Proof.
  intros Hok. destruct (create_tables_trace conn w) as (issued & _ & _ & Ht & Hall).
  rewrite Ht, Hok, (Hall Hok), statements_issued_app, statements_issued_execute.
  apply app_nil_r.
Qed.

(** The ledger check returns a boolean or raises. *)
Lemma is_schema_up_to_date_bool conn w up :
  out_result (is_schema_up_to_date conn w) = inr up ->
  exists b, up = PyBool b.
Proof.
  pose proof (is_schema_up_to_date_spec conn w) as Hcheck. cbv zeta in Hcheck.
  destruct Hcheck as (_ & -> & _).
  destruct (conn_db conn w) as [db|]; [|done].
  destruct (ledger db) as [t|]; [|done].
  destruct (named_column "version" t) as [vs|]; [|done].
  intros [= <-]. by eexists.
Qed.

(** The check does not return on a database that was just created. *)
Lemma checked_not_created w up :
  out_result (is_schema_up_to_date main_conn (connected w)) = inr up ->
  connected w = w.
Proof.
  pose proof (is_schema_up_to_date_spec main_conn (connected w)) as Hcheck.
  cbv zeta in Hcheck. destruct Hcheck as (_ & -> & _).
  unfold connected. destruct (w_fs w !! DB_NAME) eqn:Hn; [done|].
  unfold conn_db. cbn [main_conn conn_path set_fs w_fs].
  by rewrite lookup_insert_eq.
Qed.

Lemma after_connect_steps cwd t0 w1 :
  phases t0 = [OpenConnection; OpenConnection] ->
  statements_issued t0 = [PragmaForeignKeys true] ->
  let o := after_connect cwd t0 w1 in
  (out_result o = inr tt ->
   exists up,
     out_result (is_schema_up_to_date main_conn w1) = inr (PyBool up)
     /\ phases (out_trace o) = (if up then complete_current else complete_outdated)
     /\ statements_issued (out_trace o)
        = [PragmaForeignKeys true; check_ledger]
          ++ (if up then [] else create_tables_statements))
  /\ (forall up,
        out_result (is_schema_up_to_date main_conn w1) = inr up ->
        phases (out_trace o)
          `prefix_of` (if truthy up then complete_current else complete_outdated))
  /\ (forall e,
        out_result (is_schema_up_to_date main_conn w1) = inl e ->
        phases (out_trace o) = [OpenConnection; OpenConnection; CheckLedger]).
Proof.
  intros Hopen Hsent. cbv zeta. unfold after_connect.
  pose proof (is_schema_up_to_date_spec main_conn w1) as Hcheck.
  cbv zeta in Hcheck. destruct Hcheck as (Ht2 & _).
  pose proof (is_schema_up_to_date_bool main_conn w1) as Hbool.
  destruct (is_schema_up_to_date main_conn w1) as [w2 t2 [e|up]];
    cbn [out_trace out_result] in *; subst t2.
  { cbn [out_trace out_result]. rewrite phases_app, Hopen.
    split; [done|]. split; [done|]. by intros e' _. }
  destruct (Hbool up eq_refl) as [b ->]. cbn [truthy].
  split; [|split; [|done]]; [|intros up' [= <-]; cbn [truthy]]; destruct b.
  - pose proof (write_metadata_phases cwd w2) as [_ Hok].
    pose proof (write_metadata_issues_nothing cwd w2) as Hnone.
    destruct (write_metadata cwd w2) as [w4 t4 r].
    cbn [out_trace out_result] in *. intros Hr. exists true.
    rewrite !phases_app, Hopen, (Hok Hr), !statements_issued_app, Hsent, Hnone.
    by repeat split.
  - pose proof (create_tables_phases main_conn w2) as Hct.
    pose proof (create_tables_sends_all main_conn w2) as Hall.
    destruct (create_tables main_conn w2) as [w3 t3 [e|[]]];
      cbn [out_trace out_result] in *; [done|].
    pose proof (write_metadata_phases cwd w3) as [_ Hok].
    pose proof (write_metadata_issues_nothing cwd w3) as Hnone.
    destruct (write_metadata cwd w3) as [w4 t4 r].
    cbn [out_trace out_result] in *. intros Hr. exists false.
    rewrite !phases_app, Hopen, Hct, (Hok Hr), !statements_issued_app, Hsent,
      (Hall eq_refl), Hnone.
    split; [done|]. split; [reflexivity|]. cbn [statements_issued omap app].
    by rewrite app_nil_r.
  - pose proof (write_metadata_phases cwd w2) as [Hp _].
    destruct (write_metadata cwd w2) as [w4 t4 r]. cbn [out_trace] in *.
    rewrite !phases_app, Hopen.
    change (phases [EvExecute check_ledger]) with [CheckLedger].
    change (phases [EvPrint "Schema already up-to-date."]) with (@nil phase).
    cbn [app]. by apply (prefix_app [_; _; _]).
  - pose proof (create_tables_phases main_conn w2) as Hct.
    destruct (create_tables main_conn w2) as [w3 t3 [e|[]]];
      cbn [out_trace out_result] in *.
    + rewrite !phases_app, Hopen.
      change (phases [EvExecute check_ledger]) with [CheckLedger].
      change (phases [EvPrint "Applying database schema ..."]) with (@nil phase).
      cbn [app]. apply (prefix_app [_; _; _]).
      apply (prefix_app_r _ _ ([RecordVersion] ++ replicate 10 WriteMetadata)) in Hct.
      by rewrite <- app_assoc in Hct.
    + pose proof (write_metadata_phases cwd w3) as [Hp _].
      destruct (write_metadata cwd w3) as [w4 t4 r]. cbn [out_trace] in *.
      rewrite !phases_app, Hopen, Hct.
      change (phases [EvExecute check_ledger]) with [CheckLedger].
      change (phases [EvPrint "Applying database schema ..."]) with (@nil phase).
      change (phases [EvPrint "Schema created or updated successfully."])
        with (@nil phase).
      cbn [app]. apply (prefix_app [_; _; _]).
      rewrite <- !app_assoc. by do 2 apply prefix_app.
Qed.

(** C6, as the code has it.  A run of [initialize_db] that completes goes
    through the steps in the stated order: the connection is opened
    first, then the ledger is checked, then, exactly when the check
    returned False, the eight DDL statements are applied and after them
    the version is recorded, and the metadata files are written last.  A
    run that an error ends has gone through an initial part of the
    sequence that the check decides on, and no further than the check
    when it is the check that raises. *)
Theorem initialize_db_steps_in_order cwd w :
  (out_result (initialize_db cwd w) = inr tt ->
   exists up,
     out_result (is_schema_up_to_date main_conn w) = inr (PyBool up)
     /\ phases (out_trace (initialize_db cwd w))
        = (if up then complete_current else complete_outdated)
     /\ statements_issued (out_trace (initialize_db cwd w))
        = [PragmaForeignKeys true; check_ledger]
          ++ (if up then [] else ddl_statements ++ [record_version]))
  /\ in_order (phases (out_trace (initialize_db cwd w)))
  /\ (forall up,
        out_result (is_schema_up_to_date main_conn (connected w)) = inr up ->
        phases (out_trace (initialize_db cwd w))
          `prefix_of` (if truthy up then complete_current else complete_outdated))
  /\ (forall e,
        out_result (is_schema_up_to_date main_conn (connected w)) = inl e ->
        phases (out_trace (initialize_db cwd w))
          `prefix_of` [OpenConnection; OpenConnection; CheckLedger]).
Proof.
  assert (in_order complete_outdated /\ in_order complete_current) as [Hco Hcc]
    by (split; by apply ascending_in_order).
  assert (w_fs w !! DB_NAME = Some Dir \/ w_fs w !! DB_NAME <> Some Dir) as [Hdir|Hn]
    by (destruct (w_fs w !! DB_NAME) as [[| |]|]; auto).
  - rewrite initialize_db_unfold, Hdir. cbn [out_result out_trace].
    change (phases [EvPrint "Checking for existing SQLite database ...";
                    EvConnect DB_NAME]) with [OpenConnection].
    split; [done|]. split.
    { eapply in_order_prefix; [|exact Hco]. by eexists. }
    split; [|intros e _; by eexists].
    intros up Hup. exfalso.
    pose proof (is_schema_up_to_date_spec main_conn (connected w)) as Hcheck.
    cbv zeta in Hcheck. destruct Hcheck as (_ & Hr & _). rewrite Hup in Hr.
    assert (conn_db main_conn (connected w) = None) as Hnone.
    { unfold connected, conn_db. rewrite Hdir. cbn [main_conn conn_path].
      by rewrite Hdir. }
    by rewrite Hnone in Hr.
  - rewrite initialize_db_after_connect by done.
    destruct (after_connect_steps cwd (opening cwd w) (connected w) eq_refl eq_refl)
      as (Hok & Hpre & Hraise).
    split; [|split; [|split]].
    + intros Hr. destruct (Hok Hr) as (up & Hup & Hps & Hst).
      pose proof (checked_not_created w _ Hup) as Hc. rewrite Hc in *.
      by exists up.
    + destruct (out_result (is_schema_up_to_date main_conn (connected w)))
        as [e|up] eqn:Hup.
      * rewrite (Hraise e eq_refl).
        eapply in_order_prefix; [|exact Hco]. by eexists.
      * eapply in_order_prefix; [exact (Hpre up eq_refl)|]. by destruct (truthy up).
    + done.
    + intros e He. by rewrite (Hraise e He).
Qed.

(** C6 fails as stated: not every run gets to the later steps.  On an
    outdated database whose users table has no username column, the third
    DDL statement raises; the version is not recorded and no metadata
    file is written. *)
Lemma initialize_db_may_stop_at_ddl :
  out_result (is_schema_up_to_date main_conn (world_of outdated_foreign_users_db))
  = inr (PyBool false)
  /\ out_result (initialize_db "/srv/app" (world_of outdated_foreign_users_db))
     = inl (Sqlite3Error (NoSuchColumn "username"))
  /\ phases (out_trace (initialize_db "/srv/app" (world_of outdated_foreign_users_db)))
     = [OpenConnection; OpenConnection; CheckLedger; ApplyDDL; ApplyDDL; ApplyDDL]
  /\ files_opened (out_trace (initialize_db "/srv/app"
                                (world_of outdated_foreign_users_db))) = [].
Proof. repeat split; vm_compute; reflexivity. Qed.

Lemma initialize_db_steps_in_order_witness :
  (exists up,
     out_result (is_schema_up_to_date main_conn (world_of newer_ledger_db))
     = inr (PyBool up)
     /\ phases (out_trace (initialize_db "/srv/app" (world_of newer_ledger_db)))
        = (if up then complete_current else complete_outdated)
     /\ statements_issued (out_trace (initialize_db "/srv/app" (world_of newer_ledger_db)))
        = [PragmaForeignKeys true; check_ledger]
          ++ (if up then [] else ddl_statements ++ [record_version]))
  /\ (exists up,
       out_result (is_schema_up_to_date main_conn (world_of installed_db))
       = inr (PyBool up)
       /\ phases (out_trace (initialize_db "/srv/app" (world_of installed_db)))
          = (if up then complete_current else complete_outdated)
       /\ statements_issued (out_trace (initialize_db "/srv/app" (world_of installed_db)))
          = [PragmaForeignKeys true; check_ledger]
            ++ (if up then [] else ddl_statements ++ [record_version])).
Proof.
  split.
  - apply (proj1 (initialize_db_steps_in_order "/srv/app" (world_of newer_ledger_db))).
    vm_compute. reflexivity.
  - apply (proj1 (initialize_db_steps_in_order "/srv/app" (world_of installed_db))).
    vm_compute. reflexivity.
Defined.

(* ===================================================================== *)
(** ** The constraints the schema puts on rows *)
(* ===================================================================== *)

(** A row that NOT NULL and CHECK let through is admissible. *)
Lemma vet_admissible oc now def r0 r :
  vet oc now def r0 = Stored r -> admissible def r.
Proof.
  unfold vet. cbv zeta.
  destruct (row_rejected def _) eqn:Hrej; [by destruct oc|].
  intros [= <-]. split; [by rewrite length_imap|].
  intros i c Hi.
  assert (rejects c (cell i (imap (fun i c => fill oc now c (cell i r0))
                                  (td_columns def))) = false) as Hc.
  { destruct (rejects c _) eqn:Hc; [|done].
    rewrite <- Hrej. symmetry. apply existsb_exists. exists (i, c).
    split; [|done]. apply list_elem_of_In. by apply imap_pair_lookup. }
  unfold rejects in Hc. by apply orb_false_iff in Hc.
Qed.

Lemma exec_stmt_checked fk now q db db' rows n def :
  exec_stmt fk now q db = inr (db', rows) ->
  checked n def db ->
  checked n def db'.
Proof.
  intros Hex Hck t' Ht' Hdef'.
  destruct (db_tables db !! n) as [t|] eqn:Ht.
  - destruct (exec_stmt_table_grows _ _ _ _ _ _ _ _ Hex Ht) as (t2 & Ht2 & Hd2 & _).
    assert (t2 = t') as -> by congruence.
    assert (holds_table n def db) as Hh.
    { exists t. split; [done|]. split; [congruence|]. apply Hck; [done|congruence]. }
    destruct (exec_stmt_holds_table _ _ _ _ _ _ _ _ Hex Hh) as (t3 & Ht3 & _ & Hv3).
    congruence.
  - destruct (creates_table n q) eqn:Hq.
    + destruct q as [|name d| | |]; try discriminate. cbn in Hq, Hex.
      apply String.eqb_eq in Hq as ->. unfold exec_create_table in Hex.
      rewrite Ht in Hex. destruct (db_indices db !! n); [done|].
      injection Hex as <- _. cbn [db_tables] in Ht'.
      rewrite lookup_insert_eq in Ht'. injection Ht' as <-. constructor.
    + by rewrite (exec_stmt_table_absent _ _ _ _ _ _ _ Hex Hq Ht) in Ht'.
Qed.

Lemma with_rows_checked m u kept n def db :
  db_tables db !! m = Some u ->
  (Forall (admissible (t_def u)) (t_rows u) -> Forall (admissible (t_def u)) kept) ->
  checked n def db ->
  checked n def (with_rows m u kept db).
Proof.
  intros Hu Hkept Hck t' Ht' Hdef'. unfold with_rows in Ht'. cbn [db_tables] in Ht'.
  destruct (decide (m = n)) as [->|Hne].
  - rewrite lookup_insert_eq in Ht'. injection Ht' as <-. cbn [t_def] in Hdef'.
    unfold valid_rows. cbn [t_def t_rows]. apply Hkept. by apply Hck.
  - rewrite lookup_insert_ne in Ht' by done. by apply Hck.
Qed.

Lemma sublist_admissible def (kept rows : list row) :
  kept `sublist_of` rows ->
  Forall (admissible def) rows -> Forall (admissible def) kept.
Proof.
  intros Hsub Hall. rewrite Forall_forall in *. intros r Hr.
  apply Hall. by eapply elem_of_sublist.
Qed.

Lemma dml_step_checked db db' n def :
  dml_step db db' ->
  checked n def db ->
  checked n def db'.
Proof.
  intros Hstep.
  destruct Hstep as [db m u oc now r0 r kept Hu Hvet Hsub
                    |db m u oc now i r0 r kept Hu Hi Hvet Hsub
                    |db m u kept Hu Hsub];
    apply with_rows_checked; try done; intros Hall.
  - apply Forall_app. split; [by eapply sublist_admissible|].
    constructor; [by eapply vet_admissible|constructor].
  - eapply sublist_admissible; [exact Hsub|].
    apply Forall_insert; [done|by eapply vet_admissible].
  - by eapply sublist_admissible.
Qed.

Lemma drop_step_checked db db' n def :
  drop_step db db' ->
  checked n def db ->
  checked n def db'.
Proof.
  intros [db1 m db2 rows Hex] Hck t' Ht' Hdef'. unfold exec_drop_table in Hex.
  destruct (db_tables db1 !! m); [|done]. injection Hex as <- _.
  cbn [db_tables] in Ht'. apply lookup_delete_Some in Ht' as [_ Ht'].
  by apply Hck.
Qed.

Lemma later_state_checked db db' n def :
  later_state db db' ->
  checked n def db ->
  checked n def db'.
Proof.
  induction 1 as [|db1 db2 db3 Hstep _ IH]; [done|].
  intros Hck. apply IH. destruct Hstep as [Hstep|Hdrop].
  - destruct Hstep as [fk now q db1 db2 rows Hex|db1 db2 Hdml].
    + by eapply exec_stmt_checked.
    + by eapply dml_step_checked.
  - by eapply drop_step_checked.
Qed.

(** While no table is dropped, a table stays and keeps its definition. *)
Lemma undropped_state_defined_as db db' n def :
  undropped_state db db' ->
  defined_as n def db ->
  defined_as n def db'.
Proof.
  induction 1 as [|db1 db2 db3 Hstep _ IH]; [done|].
  intros (t & Ht & Hdef). apply IH.
  destruct Hstep as [fk now q db1 db2 rows Hex|db1 db2 Hdml].
  - destruct (exec_stmt_table_grows _ _ _ _ _ _ _ _ Hex Ht) as (t2 & Ht2 & Hd2 & _).
    exists t2. split; [done|congruence].
  - assert (forall m u kept, db_tables db1 !! m = Some u ->
              defined_as n def (with_rows m u kept db1)) as Hgen.
    { intros m u kept Hu. unfold defined_as, with_rows. cbn [db_tables].
      destruct (decide (m = n)) as [->|Hne].
      - rewrite lookup_insert_eq. eexists. split; [done|]. cbn [t_def]. congruence.
      - rewrite lookup_insert_ne by done. by exists t. }
    destruct Hdml; by apply Hgen.
Qed.

(** What BETWEEN and NOT NULL leave: a number in the range. *)
Lemma between_checked lo hi (ck : check_expr INTEGER) v :
  ck = Between lo hi ->
  is_null v = false ->
  match eval_check ck v with Some false => true | _ => false end = false ->
  exists q, numeric v = Some q /\ (inject_Z lo <= q <= inject_Z hi)%Q.
Proof.
  intros -> Hnn Hck. destruct v as [|z|a k|s]; cbn in Hnn, Hck; try done.
  - exists (inject_Z z). split; [done|]. rewrite <- !Zle_Qle.
    destruct (lo <=? z)%Z eqn:H1, (z <=? hi)%Z eqn:H2; try done. lia.
  - exists (real a k). split; [done|].
    destruct (Qle_bool (inject_Z lo) (real a k)) eqn:H1; [|done].
    destruct (Qle_bool (real a k) (inject_Z hi)) eqn:H2; [|done].
    by split; apply Qle_bool_iff.
Qed.

Lemma moves_rows_checked t r :
  t_def t = moves_def ->
  admissible (t_def t) r ->
  exists x y,
    numeric (field "row" t r) = Some x /\ numeric (field "col" t r) = Some y
    /\ (0 <= x <= 2)%Q /\ (0 <= y <= 2)%Q.
Proof.
  intros Hdef [_ Hadm]. unfold field. rewrite Hdef in *.
  change (col_index "row" (td_columns moves_def)) with (Some 3%nat).
  change (col_index "col" (td_columns moves_def)) with (Some 4%nat).
  destruct (Hadm 3%nat _ eq_refl) as [Hnn3 Hck3].
  destruct (Hadm 4%nat _ eq_refl) as [Hnn4 Hck4].
  unfold check_fails in Hck3, Hck4.
  cbn [col_check col_not_null andb] in Hnn3, Hck3, Hnn4, Hck4.
  destruct (between_checked 0 2 _ _ eq_refl Hnn3 Hck3) as (x & Hx & Hxr).
  destruct (between_checked 0 2 _ _ eq_refl Hnn4 Hck4) as (y & Hy & Hyr).
  by exists x, y.
Qed.

Lemma games_rows_checked t r :
  t_def t = games_def ->
  admissible (t_def t) r ->
  exists s,
    field "status" t r = VText s /\ s ∈ ["waiting"; "active"; "finished"].
Proof.
  intros Hdef [_ Hadm]. unfold field. rewrite Hdef in *.
  change (col_index "status" (td_columns games_def)) with (Some 4%nat).
  destruct (Hadm 4%nat _ eq_refl) as [Hnn Hck].
  unfold check_fails in Hck. cbn -[bool_decide] in Hnn, Hck.
  destruct (cell 4 r) as [|x|a k|s]; [done|done|done|].
  exists s. split; [done|]. by case_bool_decide.
Qed.

(** What [create_tables] makes of moves and games when they were not
    there. *)
Lemma create_tables_creates_checked conn w db0 db1 :
  conn_db conn w = Some db0 ->
  db_tables db0 !! "moves" = None ->
  db_tables db0 !! "games" = None ->
  out_result (create_tables conn w) = inr tt ->
  conn_db conn (out_world (create_tables conn w)) = Some db1 ->
  db_tables db1 !! "moves" = Some (Table moves_def [])
  /\ db_tables db1 !! "games" = Some (Table games_def []).
Proof.
  intros Hdb Hmoves Hgames Hok Hdb1.
  destruct (exec_script (conn_foreign_keys conn) (w_now w) create_tables_statements db0)
    as [[d issued] r] eqn:Hscript.
  destruct (create_tables_spec _ _ _ _ _ _ Hdb Hscript) as (_ & Hres & Hd & _).
  rewrite Hok in Hres. destruct r as [e|]; [done|].
  assert (d = db1) as -> by congruence.
  split.
  - eapply (exec_script_creates _ _
              [ CreateTableIfNotExists "schema_migrations" schema_migrations_def;
                CreateTableIfNotExists "users" users_def;
                CreateIndexIfNotExists "idx_users_username" "users" ["username"];
                CreateTableIfNotExists "games" games_def;
                CreateIndexIfNotExists "idx_games_status" "games" ["status"] ]
              [ CreateIndexIfNotExists "idx_moves_gameid" "moves" ["game_id"];
                CreateTableIfNotExists "scores" scores_def;
                record_version ]); [exact Hscript|done|done|done].
  - eapply (exec_script_creates _ _
              [ CreateTableIfNotExists "schema_migrations" schema_migrations_def;
                CreateTableIfNotExists "users" users_def;
                CreateIndexIfNotExists "idx_users_username" "users" ["username"] ]
              [ CreateIndexIfNotExists "idx_games_status" "games" ["status"];
                CreateTableIfNotExists "moves" moves_def;
                CreateIndexIfNotExists "idx_moves_gameid" "moves" ["game_id"];
                CreateTableIfNotExists "scores" scores_def;
                record_version ]); [exact Hscript|done|done|done].
Qed.

(** C9, as the engine has it.  [create_tables] creates moves and games
    with their NOT NULL and CHECK constraints.  From then on, in every
    state of the database that the script's statements and INSERT,
    UPDATE, DELETE and DROP TABLE statements lead to, a moves table that
    has this definition holds in every row a number between 0 and 2 for
    row and for col, and a games table that has this definition holds in
    every row a status among 'waiting', 'active' and 'finished'; and
    while no table is dropped, the two tables are there with these
    definitions. *)
Theorem schema_enforces_checks conn w db0 db1 db2 :
  conn_db conn w = Some db0 ->
  db_tables db0 !! "moves" = None ->
  db_tables db0 !! "games" = None ->
  out_result (create_tables conn w) = inr tt ->
  conn_db conn (out_world (create_tables conn w)) = Some db1 ->
  later_state db1 db2 ->
  (forall t,
      db_tables db2 !! "moves" = Some t -> t_def t = moves_def ->
      forall r, r ∈ t_rows t ->
        exists x y,
          numeric (field "row" t r) = Some x /\ numeric (field "col" t r) = Some y
          /\ (0 <= x <= 2)%Q /\ (0 <= y <= 2)%Q)
  /\ (forall t,
        db_tables db2 !! "games" = Some t -> t_def t = games_def ->
        forall r, r ∈ t_rows t ->
          exists s,
            field "status" t r = VText s
            /\ s ∈ ["waiting"; "active"; "finished"])
  /\ (undropped_state db1 db2 ->
      defined_as "moves" moves_def db2 /\ defined_as "games" games_def db2).
Proof.
  intros Hdb Hmoves Hgames Hok Hdb1 Hlater.
  destruct (create_tables_creates_checked _ _ _ _ Hdb Hmoves Hgames Hok Hdb1)
    as [Hm Hg].
  assert (checked "moves" moves_def db1) as Hcm.
  { intros t Ht _. rewrite Hm in Ht. injection Ht as <-. constructor. }
  assert (checked "games" games_def db1) as Hcg.
  { intros t Ht _. rewrite Hg in Ht. injection Ht as <-. constructor. }
  pose proof (later_state_checked _ _ _ _ Hlater Hcm) as Hcm2.
  pose proof (later_state_checked _ _ _ _ Hlater Hcg) as Hcg2.
  split; [|split].
  - intros t Ht Hdef r Hr. apply moves_rows_checked; [done|].
    specialize (Hcm2 t Ht Hdef). unfold valid_rows in Hcm2.
    rewrite Forall_forall in Hcm2. by apply Hcm2.
  - intros t Ht Hdef r Hr. apply games_rows_checked; [done|].
    specialize (Hcg2 t Ht Hdef). unfold valid_rows in Hcg2.
    rewrite Forall_forall in Hcg2. by apply Hcg2.
  - intros Hkept. split.
    + eapply undropped_state_defined_as; [exact Hkept|]. by eexists.
    + eapply undropped_state_defined_as; [exact Hkept|]. by eexists.
Qed.

Lemma played_db_reached : undropped_state installed_db played_db.
Proof.
  eapply rtc_l.
  { apply step_dml.
    apply (dml_insert installed_db "moves" (Table moves_def []) Abort
             "2024-05-01 12:05:00" centre_move centre_move []);
      [vm_compute; reflexivity|vm_compute; reflexivity|constructor]. }
  eapply rtc_l; [|apply rtc_refl].
  apply step_dml.
  assert (played_db
          = with_rows "moves" (Table moves_def [centre_move])
              ([centre_move] ++ [half_way_move])
              (with_rows "moves" (Table moves_def []) ([] ++ [centre_move]) installed_db))
    as -> by (vm_compute; reflexivity).
  apply (dml_insert _ "moves" (Table moves_def [centre_move]) Abort
           "2024-05-01 12:06:00" half_way_move half_way_move [centre_move]);
    [vm_compute; reflexivity|vm_compute; reflexivity|reflexivity].
Defined.

Lemma later_of_undropped db db' : undropped_state db db' -> later_state db db'.
Proof. apply rtc_subrel. intros ? ? ?. by left. Defined.

Lemma schema_enforces_checks_witness :
  (forall t,
      db_tables played_db !! "moves" = Some t -> t_def t = moves_def ->
      forall r, r ∈ t_rows t ->
        exists x y,
          numeric (field "row" t r) = Some x /\ numeric (field "col" t r) = Some y
          /\ (0 <= x <= 2)%Q /\ (0 <= y <= 2)%Q)
  /\ (forall t,
        db_tables played_db !! "games" = Some t -> t_def t = games_def ->
        forall r, r ∈ t_rows t ->
          exists s,
            field "status" t r = VText s
            /\ s ∈ ["waiting"; "active"; "finished"])
  /\ (undropped_state installed_db played_db ->
      defined_as "moves" moves_def played_db /\ defined_as "games" games_def played_db).
Proof.
  apply (schema_enforces_checks main_conn (world_of empty_db) empty_db
           installed_db played_db); try (vm_compute; reflexivity).
  apply later_of_undropped, played_db_reached.
Defined.

(** C9 fails as stated: the checks go with the table.  After DROP TABLE
    moves, CREATE TABLE IF NOT EXISTS moves without the CHECKs and an
    INSERT, the database that [create_tables] made holds a move whose row
    is 5. *)
Lemma schema_checks_go_with_the_table :
  later_state installed_db recreated_db
  /\ exists t r,
       db_tables recreated_db !! "moves" = Some t
       /\ r ∈ t_rows t
       /\ field "row" t r = VInt 5.
Proof.
  split.
  - eapply rtc_l.
    { right. eapply (drop_table installed_db "moves"). vm_compute. reflexivity. }
    eapply rtc_l.
    { left. eapply (step_stmt true "2024-05-02 09:00:00"
                      (CreateTableIfNotExists "moves" loose_moves_def)).
      vm_compute. reflexivity. }
    eapply rtc_l; [|apply rtc_refl].
    left. apply step_dml.
    match goal with
    | |- dml_step ?d _ =>
        assert (recreated_db
                = with_rows "moves" (Table loose_moves_def []) ([] ++ [stray_move]) d)
          as -> by (vm_compute; reflexivity)
    end.
    apply (dml_insert _ "moves" (Table loose_moves_def []) Abort
             "2024-05-02 09:00:00" stray_move stray_move []);
      [vm_compute; reflexivity|vm_compute; reflexivity|constructor].
  - exists (Table loose_moves_def [stray_move]), stray_move.
    split; [vm_compute; reflexivity|]. split; [apply list_elem_of_here|reflexivity].
Qed.
